(** * Amazon scraped-data transforms: a shallow embedding

    The two pipelines [scripts/transform_best_sellers.py] (suffix [_bs]) and
    [scripts/transform_movers_shakers.py] (suffix [_ms]) are embedded as Rocq
    functions, and the statements of the specification are settled on them.
    The price conversion of [scripts/scrape_best_sellers_all_category.py],
    whose output the two pipelines read, is embedded with them.

    Conventions of the embedding.
    - A Python [str] is a list of code points ([pystr]); literals are written
      [U "..."].  The whitespace class is the one of [str.isspace] and of
      [\s] in [re]; [0-9] and [A-Z] are the ASCII ranges, as in the patterns
      of the source.  [str.lower] folds the ASCII and Latin-1 capitals;
      [re.IGNORECASE] also takes the dotted and dotless i for an i and the
      long s for an s.  The digits are the ASCII ones: the digits of other
      scripts, which [int], [float] and the class [\d] accept as well, are
      not represented.
    - A [float] is the rational it denotes ([Q]); [nan] is [None] in an
      optional value.  The one division of the source whose divisor can be
      zero returns a value of [fval], which has [nan] and the infinities.
    - A pandas column is a list indexed by row position (the index of a
      frame read by [read_input] is [0 .. n-1]); a frame is an association
      list of labelled columns, where order and duplicates matter. *)

From Stdlib Require Import ZArith NArith QArith Qabs Qminmax Qround.
From Stdlib Require Import List Sorted Bool Lia Lqa String Ascii.
From stdpp Require Import base option list gmap.

Local Open Scope N_scope.

(** ** Strings *)

Definition char := N.
Definition pystr := list char.

Definition U (s : string) : pystr := List.map N_of_ascii (list_ascii_of_string s).
Arguments U s%_string.

Definition in_range (lo hi c : char) : bool := (lo <=? c) && (c <=? hi).

Definition is_digit (c : char) : bool := in_range 48 57 c.
Definition is_upper (c : char) : bool := in_range 65 90 c.

(** [str.isspace], also the class [\s] of a [str] pattern. *)
Definition is_space (c : char) : bool :=
  in_range 9 13 c || in_range 28 32 c || (c =? 133) || (c =? 160)
  || (c =? 5760) || in_range 8192 8202 c || (c =? 8232) || (c =? 8233)
  || (c =? 8239) || (c =? 8287) || (c =? 12288).

(** [str.lower] on one code point: ASCII and Latin-1 capitals. *)
Definition lower_char (c : char) : char :=
  if is_upper c then c + 32
  else if in_range 192 222 c && negb (c =? 215) then c + 32
  else c.

Definition lower (s : pystr) : pystr := List.map lower_char s.

Fixpoint lstrip (s : pystr) : pystr :=
  match s with
  | c :: t => if is_space c then lstrip t else s
  | [] => []
  end.

Definition rstrip (s : pystr) : pystr := rev (lstrip (rev s)).

(** [str.strip()] *)
Definition strip (s : pystr) : pystr := rstrip (lstrip s).

Definition str_eqb (a b : pystr) : bool := bool_decide (a = b).

Fixpoint starts_with (p s : pystr) : bool :=
  match p, s with
  | [], _ => true
  | a :: p', b :: s' => (a =? b) && starts_with p' s'
  | _ :: _, [] => false
  end.

(** [p in s] *)
Fixpoint contains (p s : pystr) : bool :=
  starts_with p s ||
  match s with
  | [] => false
  | _ :: t => contains p t
  end.

(** [s.replace] of the comma by the empty string. *)
Definition remove_commas (s : pystr) : pystr :=
  List.filter (fun c => negb (c =? 44)) s.

(** Value of a run of ASCII digits, most significant first. *)
Definition digit_val (c : char) : Z := Z.of_N (c - 48).

Definition dec_value (s : pystr) : Z :=
  fold_left (fun acc c => (acc * 10 + digit_val c)%Z) s 0%Z.

(** ** Values of a cell

    [read_input] reads every cell as [str] ([dtype=str],
    [keep_default_na=False]); the parsers also test for other values. *)
Inductive cell :=
| Str (s : pystr)
| Num (q : Q)
| NaN
| Infty (negative : bool)
| PyNone.

(** ** Identifier extractor *)

Definition is_asin_char (c : char) : bool := is_upper c || is_digit c.

(** A match of [marker([A-Z0-9]{10})] at the head of [s]: the group. *)
Definition match_id_at (marker s : pystr) : option pystr :=
  if starts_with marker s then
    let id := take 10 (drop (length marker) s) in
    if (length id =? 10)%nat && forallb is_asin_char id then Some id else None
  else None.

(** [re.search(marker([A-Z0-9]{10}), s)]: the leftmost match. *)
Fixpoint search_id (marker s : pystr) : option pystr :=
  match match_id_at marker s with
  | Some id => Some id
  | None =>
      match s with
      | [] => None
      | _ :: t => search_id marker t
      end
  end.

Definition pat_dp : pystr := U "/dp/".
Definition pat_gp : pystr := U "/gp/product/".

Definition extract_asin_bs (link : cell) : option pystr :=
  match link with
  | Str s =>
      match search_id pat_dp s with
      | Some id => Some id
      | None =>
          match search_id pat_gp s with
          | Some id => Some id
          | None => None
          end
      end
  | _ => None
  end.

Definition extract_asin_ms (link : cell) : option pystr :=
  match link with
  | Str s =>
      (fix loop (patterns : list pystr) : option pystr :=
         match patterns with
         | [] => None
         | p :: rest =>
             match search_id p s with
             | Some id => Some id
             | None => loop rest
             end
         end) [pat_dp; pat_gp]
  | _ => None
  end.

(** ** Integer parser *)

(** The digits of [int(s)] after the sign: digits with single underscores
    between them. *)
Fixpoint int_digits (acc : Z) (after_digit : bool) (s : pystr) : option Z :=
  match s with
  | [] => if after_digit then Some acc else None
  | c :: t =>
      if is_digit c then int_digits (acc * 10 + digit_val c)%Z true t
      else if (c =? 95) && after_digit then int_digits acc false t
      else None
  end.

(** [int(s)] for a [str], base 10; [None] is [ValueError]. *)
Definition py_int (s : pystr) : option Z :=
  match strip s with
  | c :: t =>
      if c =? 45 then Z.opp <$> int_digits 0 false t
      else if c =? 43 then int_digits 0 false t
      else int_digits 0 false (c :: t)
  | [] => None
  end.

(** Best sellers: the cells are strings, so [pd.isna(s)] is false. *)
Definition parse_int_bs (s : pystr) : option Z :=
  if str_eqb s [] then None
  else py_int (strip (remove_commas s)).

Definition parse_int_ms (s : cell) : option Z :=
  match s with
  | Str s =>
      if str_eqb (strip s) [] then None
      else py_int (List.filter is_digit s)
  | _ => None
  end.

(** The integer parser in the words of the specification: strip every
    character that is not a digit, parse the rest, missing when nothing is
    left. *)
Definition parse_int_spec (s : pystr) : option Z :=
  match List.filter is_digit s with
  | [] => None
  | d => Some (dec_value d)
  end.


(** ** Price parser *)

(** The first [re.sub] of [parse_price], which deletes the parenthetical
    annotations: an opening parenthesis and the text up to the next closing
    one are dropped when no newline lies between them (the dot of the
    pattern does not match a newline).  [pending] is the text read since an
    opening parenthesis. *)
Fixpoint strip_parens_from (pending : option pystr) (s : pystr) : pystr :=
  match s with
  | [] => default [] pending
  | c :: t =>
      match pending with
      | None =>
          if c =? 40 then strip_parens_from (Some [c]) t
          else c :: strip_parens_from None t
      | Some p =>
          if c =? 41 then strip_parens_from None t
          else if c =? 10 then p ++ c :: strip_parens_from None t
          else strip_parens_from (Some (p ++ [c])) t
      end
  end.

Definition strip_parens (s : pystr) : pystr := strip_parens_from None s.

(** The class [0-9\.,-] whose complement is removed. *)
Definition is_price_char (c : char) : bool :=
  is_digit c || (c =? 46) || (c =? 44) || (c =? 45).

Definition keep_price_chars (s : pystr) : pystr := List.filter is_price_char s.

(** [float(s)] of a digit string [ip] with fraction digits [fp]. *)
Definition decimal (ip fp : pystr) : Q :=
  Qmake (dec_value (ip ++ fp)) (Z.to_pos (10 ^ Z.of_nat (length fp))).

Fixpoint span_digits (s : pystr) : pystr * pystr :=
  match s with
  | c :: t =>
      if is_digit c then let '(d, r) := span_digits t in (c :: d, r)
      else ([], s)
  | [] => ([], [])
  end.

(** [float(s)] on the strings that reach it, which hold digits, points
    and hyphens only: an optional sign, then digits with at most one point and at
    least one digit.  [None] is [ValueError]. *)
Definition py_float (s : pystr) : option Q :=
  let '(neg, body) :=
    match s with
    | c :: t => if c =? 45 then (true, t) else (false, s)
    | [] => (false, s)
    end in
  let '(ip, r) := span_digits body in
  let mag :=
    match r with
    | [] => if str_eqb ip [] then None else Some (decimal ip [])
    | c :: fp =>
        if (c =? 46) && forallb is_digit fp && negb (str_eqb (ip ++ fp) [])
        then Some (decimal ip fp) else None
    end in
  (fun q => if neg then Qopp q else q) <$> mag.

Definition parse_price_bs (p : pystr) : option Q :=
  if str_eqb p []
     || bool_decide (lower p ∈ [U "nan"; U "n/a"; U "none"]) then None
  else
    let s := strip_parens p in
    let s := strip (keep_price_chars s) in
    let s :=
      if contains (U ",") s && contains (U ".") s then remove_commas s
      else if contains (U ",") s && negb (contains (U ".") s)
           then remove_commas s
           else s in
    py_float s.

(** Case folding of [re.IGNORECASE] on one code point. *)
Definition ifold (c : char) : char :=
  let l := lower_char c in
  if (l =? 304) || (l =? 305) then 105
  else if l =? 383 then 115
  else l.

Fixpoint istarts_with (p s : pystr) : bool :=
  match p, s with
  | [], _ => true
  | a :: p', b :: s' => (ifold a =? ifold b) && istarts_with p' s'
  | _ :: _, [] => false
  end.

Definition noise_words : list pystr :=
  [U "converted"; U "approx"; U "usd"; U "us$"; U "from"; U "price";
   U "now"; U "only"].

(** The first alternative that matches at the head of [s]: its length. *)
Definition match_word_at (words : list pystr) (s : pystr) : option nat :=
  length <$> List.find (fun w => istarts_with w s) words.

(** [re.sub] of an alternation of words by the empty string, ignoring
    case; [skip] counts the characters of a match still to be dropped. *)
Fixpoint remove_words_from (words : list pystr) (skip : nat) (s : pystr) : pystr :=
  match s with
  | [] => []
  | c :: t =>
      match skip with
      | S k => remove_words_from words k t
      | O =>
          match match_word_at words s with
          | Some (S k) => remove_words_from words k t
          | _ => c :: remove_words_from words 0 t
          end
      end
  end.

Definition remove_words (words : list pystr) (s : pystr) : pystr :=
  remove_words_from words 0 s.

(** Scanner state of the [re.findall] of [parse_price]: a decimal number
    (digits, point, digits) or else a run of digits. *)
Inductive tok_state :=
| Idle
| InInt (d : pystr)
| AfterDot (d : pystr)
| InFrac (d f : pystr).

(** The tokens are kept as (integer digits, fraction digits). *)
Fixpoint findall_numbers_from (st : tok_state) (s : pystr) : list (pystr * pystr) :=
  match s with
  | [] =>
      match st with
      | Idle => []
      | InInt d | AfterDot d => [(d, [])]
      | InFrac d f => [(d, f)]
      end
  | c :: t =>
      match st with
      | Idle =>
          if is_digit c then findall_numbers_from (InInt [c]) t
          else findall_numbers_from Idle t
      | InInt d =>
          if is_digit c then findall_numbers_from (InInt (d ++ [c])) t
          else if c =? 46 then findall_numbers_from (AfterDot d) t
          else (d, []) :: findall_numbers_from Idle t
      | AfterDot d =>
          if is_digit c then findall_numbers_from (InFrac d [c]) t
          else (d, []) :: findall_numbers_from Idle t
      | InFrac d f =>
          if is_digit c then findall_numbers_from (InFrac d (f ++ [c])) t
          else (d, f) :: findall_numbers_from Idle t
      end
  end.

Definition findall_numbers (s : pystr) : list (pystr * pystr) :=
  findall_numbers_from Idle s.

(** The matched text of a token. *)
Definition token_text (tk : pystr * pystr) : pystr :=
  match tk with
  | (d, []) => d
  | (d, f) => d ++ 46 :: f
  end.

Definition parse_price_ms (p : cell) : option Q :=
  match p with
  | Str p =>
      if str_eqb (strip p) [] then None
      else
        let s := strip (lower p) in
        let s := strip_parens s in
        let s := remove_words noise_words s in
        let s := keep_price_chars s in
        let s := remove_commas s in
        match last (findall_numbers s) with
        | None => None
        | Some tk => py_float (token_text tk)
        end
  | _ => None
  end.

(** The price parser in the words of the specification: strip the
    parenthetical annotations, clean, remove the commas, take the last
    numeric token of the cleaned string and convert it; missing when there
    is none. *)
Definition parse_price_spec (p : pystr) : option Q :=
  let cleaned := remove_commas (keep_price_chars (strip_parens p)) in
  match last (findall_numbers cleaned) with
  | None => None
  | Some tk => py_float (token_text tk)
  end.

(** ** Category decomposer *)

Record levels := {
  category_full : option pystr;
  cat_level_1 : option pystr;
  cat_level_2 : option pystr
}.

Definition no_levels : levels :=
  {| category_full := None; cat_level_1 := None; cat_level_2 := None |}.

Fixpoint until_newline (s : pystr) : pystr :=
  match s with
  | c :: t => if c =? 10 then [] else c :: until_newline t
  | [] => []
  end.

(** A match, at the head of [s], of the pattern of [parse_category_levels]
    (the letters i and n in either case, whitespace, then a group): the
    group.  The whitespace part takes the whole run of whitespace, the group
    the rest of the line. *)
Definition match_in_at (s : pystr) : option pystr :=
  match s with
  | a :: b :: w :: t =>
      if (ifold a =? 105) && (ifold b =? 110) && is_space w
      then Some (until_newline (lstrip t)) else None
  | _ => None
  end.

(** [re.search] of that pattern: the leftmost match. *)
Fixpoint search_in (s : pystr) : option pystr :=
  match match_in_at s with
  | Some g => Some g
  | None =>
      match s with
      | [] => None
      | _ :: t => search_in t
      end
  end.

(** The alternatives of the [re.split] pattern at the head of [s], in
    order (one of the six separator characters, then space-hyphen-space, then
    space-ampersand-space): the length of the match. *)
Definition delimiter_at (s : pystr) : option nat :=
  match s with
  | c :: _ =>
      if bool_decide (c ∈ [62; 47; 8250; 187; 124; 44]) then Some 1%nat
      else if starts_with (U " - ") s then Some 3%nat
      else if starts_with (U " & ") s then Some 3%nat
      else None
  | [] => None
  end.

(** [re.split]: [cur] is the piece being read. *)
Fixpoint split_from (skip : nat) (cur s : pystr) : list pystr :=
  match s with
  | [] => [cur]
  | c :: t =>
      match skip with
      | S k => split_from k cur t
      | O =>
          match delimiter_at s with
          | Some (S k) => cur :: split_from k [] t
          | _ => split_from 0 (cur ++ [c]) t
          end
      end
  end.

Definition split_levels (s : pystr) : list pystr := split_from 0 [] s.

Definition nonempty (s : pystr) : bool := negb (str_eqb s []).

Definition parse_category_levels_bs (cat_string : cell) : levels :=
  match cat_string with
  | Str s =>
      let cat_full :=
        match search_in s with
        | Some g => strip g
        | None => strip s
        end in
      let parts := split_levels cat_full in
      let parts :=
        List.map strip
          (List.filter (fun p => nonempty p && nonempty (strip p)) parts) in
      {| category_full := Some cat_full;
         cat_level_1 := parts !! 0%nat;
         cat_level_2 := parts !! 1%nat |}
  | _ => no_levels
  end.

Definition parse_category_levels_ms (cat_string : cell) : levels :=
  match cat_string with
  | Str s =>
      if str_eqb (strip s) [] then no_levels
      else
        let cat_full :=
          match search_in s with
          | Some g => strip g
          | None => strip s
          end in
        let parts := split_levels cat_full in
        let parts := List.map strip (List.filter nonempty parts) in
        {| category_full := Some cat_full;
           cat_level_1 := parts !! 0%nat;
           cat_level_2 := parts !! 1%nat |}
  | _ => no_levels
  end.

(** ** Rating and float parsers *)

(** [re.search] of the decimal pattern (digits, point, digits): the leftmost
    match, as (integer digits, fraction digits). *)
Fixpoint search_decimal_from (st : tok_state) (s : pystr) : option (pystr * pystr) :=
  match s with
  | [] =>
      match st with
      | InFrac d f => Some (d, f)
      | _ => None
      end
  | c :: t =>
      match st with
      | Idle =>
          search_decimal_from (if is_digit c then InInt [c] else Idle) t
      | InInt d =>
          if is_digit c then search_decimal_from (InInt (d ++ [c])) t
          else if c =? 46 then search_decimal_from (AfterDot d) t
          else search_decimal_from Idle t
      | AfterDot d =>
          if is_digit c then search_decimal_from (InFrac d [c]) t
          else search_decimal_from Idle t
      | InFrac d f =>
          if is_digit c then search_decimal_from (InFrac d (f ++ [c])) t
          else Some (d, f)
      end
  end.

Definition parse_rating_bs (r : pystr) : option Q :=
  if str_eqb r [] then None
  else
    match search_decimal_from Idle r with
    | Some tk => py_float (token_text tk)
    | None => None
    end.

Definition parse_rating_ms (r : cell) : option Q :=
  match r with
  | Str r =>
      if str_eqb (strip r) [] then None
      else
        match search_decimal_from Idle r with
        | Some tk => py_float (token_text tk)
        | None => None
        end
  | _ => None
  end.

Definition parse_float (s : cell) : option Q :=
  match s with
  | Str s =>
      if str_eqb (strip s) [] then None
      else py_float (List.filter (fun c => is_digit c || (c =? 46) || (c =? 45)) s)
  | _ => None
  end.

(** ** Derived features of a row *)

Local Open Scope Q_scope.

Definition Qltb (a b : Q) : bool := negb (Qle_bool b a).

(** [review_count / rank] when both are present and [rank > 0]. *)
Definition review_density (review_count rank : option Q) : option Q :=
  match review_count, rank with
  | Some c, Some r => if Qltb 0 r then Some (c / r) else None
  | _, _ => None
  end.

(** Movers and shakers: [sales_rank_was - sales_rank_now]. *)
Definition sales_rank_change (was now : option Q) : option Q :=
  match was, now with
  | Some w, Some n => Some (w - n)
  | _, _ => None
  end.

(** [Series.abs()]: [nan] stays [nan]. *)
Definition sales_rank_change_abs (change : option Q) : option Q :=
  Qabs <$> change.

(** The inner function [direction] of [transform]. *)
Definition direction (x : option Q) : option pystr :=
  match x with
  | None => None
  | Some x =>
      if Qltb 0 x then Some (U "up")
      else if Qltb x 0 then Some (U "down")
      else Some (U "no_change")
  end.

(** ** Groups of rows

    [groupby("cat_level_1", dropna=False)]: the rows are partitioned by the
    value of the key column; the rows whose key is missing form a group. *)

Definition key := option pystr.

(** The group keys, each once. *)
Definition group_keys (keys : list key) : list key := remove_dups keys.

(** [.groups[k]]: the positions of the rows of group [k], in row order. *)
Definition group_index (keys : list key) (k : key) : list nat :=
  List.filter (fun i => bool_decide (keys !! i = Some k)) (seq 0 (length keys)).

(** [df.loc[idx, col]] read: the values at the positions [idx]. *)
Definition loc {A} (d : A) (idx : list nat) (col : list A) : list A :=
  List.map (fun i => nth i col d) idx.

(** [df.loc[idx, col] = vals]: the values are written position by position. *)
Definition set_loc {A} (idx : list nat) (vals : list A) (col : list A) : list A :=
  fold_left (fun c iv => <[iv.1 := iv.2]> c) (zip idx vals) col.

(** [df.loc[idx, col] = v] for a scalar [v]. *)
Definition set_loc_const {A} (idx : list nat) (v : A) (col : list A) : list A :=
  fold_left (fun c i => <[i := v]> c) idx col.

(** [Series.dropna()] *)
Definition dropna {A} (vals : list (option A)) : list A := omap id vals.

(** [Series.min()] and [Series.max()] of a series with a first value. *)
Definition qmin_list (x : Q) (l : list Q) : Q := fold_left Qmin l x.
Definition qmax_list (x : Q) (l : list Q) : Q := fold_left Qmax l x.

(** ** Normalised review density *)

(** A float that can be [nan] or infinite. *)
Inductive fval :=
| Fin (q : Q)
| Nan
| Inf (negative : bool).

(** [series - b] on one value *)
Definition fsub (a : option Q) (b : Q) : option Q := (fun x => x - b) <$> a.

(** [series / b] on one value, for a divisor that is not negative zero:
    [0/0] and [nan/b] are [nan], [x/0] is infinite. *)
Definition fdiv (a : option Q) (b : Q) : fval :=
  match a with
  | None => Nan
  | Some x =>
      if Qeq_bool b 0 then (if Qeq_bool x 0 then Nan else Inf (Qltb x 0))
      else Fin (x / b)
  end.

(** One round of the loop over the groups, best sellers. *)
Definition norm_group_bs (keys : list key) (density : list (option Q))
    (col : list fval) (k : key) : list fval :=
  let grp_idx := group_index keys k in
  let vals := loc None grp_idx density in
  match dropna vals with
  | [] => col
  | v :: vs =>
      let mn := qmin_list v vs in
      let mx := qmax_list v vs in
      if Qeq_bool mn mx then set_loc_const grp_idx (Fin 0) col
      else set_loc grp_idx (List.map (fun x => fdiv (fsub x mn) (mx - mn)) vals) col
  end.

Definition norm_review_density_over_bs (groups : list key) (keys : list key)
    (density : list (option Q)) : list fval :=
  fold_left (norm_group_bs keys density) groups (repeat Nan (length keys)).

Definition norm_review_density_bs (keys : list key) (density : list (option Q)) : list fval :=
  norm_review_density_over_bs (group_keys keys) keys density.

(** One round of the loop over the groups, movers and shakers. *)
Definition norm_group_ms (keys : list key) (density : list (option Q))
    (col : list fval) (k : key) : list fval :=
  let idx := group_index keys k in
  let vals := dropna (loc None idx density) in
  if (length vals <? 2)%nat then set_loc_const idx (Fin 0) col
  else
    match vals with
    | [] => col
    | v :: vs =>
        let mn := qmin_list v vs in
        let mx := qmax_list v vs in
        set_loc idx
          (List.map (fun x => fdiv (fsub x mn) (mx - mn)) (loc None idx density)) col
    end.

Definition norm_review_density_over_ms (groups : list key) (keys : list key)
    (density : list (option Q)) : list fval :=
  fold_left (norm_group_ms keys density) groups (repeat Nan (length keys)).

Definition norm_review_density_ms (keys : list key) (density : list (option Q)) : list fval :=
  norm_review_density_over_ms (group_keys keys) keys density.

(** ** Price segments *)

Inductive segment := Unknown | Low | Mid | High.

Definition segment_name (s : segment) : pystr :=
  match s with
  | Unknown => U "unknown"
  | Low => U "Low"
  | Mid => U "Mid"
  | High => U "High"
  end.

Fixpoint insert_sorted (x : Q) (l : list Q) : list Q :=
  match l with
  | [] => [x]
  | y :: t => if Qle_bool x y then x :: l else y :: insert_sorted x t
  end.

Definition sort_values (l : list Q) : list Q := foldr insert_sorted [] l.

(** [Series.quantile(q)] with the default interpolation (linear): the
    missing values are skipped, the position [q * (n - 1)] is taken in the
    sorted values and the two neighbours are joined by a straight line. *)
Definition quantile (q : Q) (series : list (option Q)) : Q :=
  let s := sort_values (dropna series) in
  let n := length s in
  let h := q * inject_Z (Z.of_nat (n - 1)) in
  let lo := Z.to_nat (Qfloor h) in
  let g := h - inject_Z (Qfloor h) in
  let a := nth lo s 0 in
  let b := nth (Nat.min (lo + 1) (n - 1)) s 0 in
  a + (b - a) * g.

Definition is_missing {A} (x : option A) : bool :=
  match x with
  | None => true
  | Some _ => false
  end.

Definition classify (q1 q2 : Q) (x : option Q) : segment :=
  match x with
  | None => Unknown
  | Some x =>
      if Qle_bool x q1 then Low
      else if Qle_bool x q2 then Mid
      else High
  end.

(** The inner function [seg] of [price_segment_by_category]. *)
Definition seg (q_low q_high : Q) (series : list (option Q)) : list segment :=
  if forallb is_missing series then repeat Unknown (length series)
  else
    let q1 := quantile q_low series in
    let q2 := quantile q_high series in
    List.map (classify q1 q2) series.

Definition segment_group (q_low q_high : Q) (keys : list key)
    (price_norm : list (option Q)) (col : list segment) (k : key) : list segment :=
  let idx := group_index keys k in
  set_loc idx (seg q_low q_high (loc None idx price_norm)) col.

Definition price_segment_over (groups : list key) (q_low q_high : Q)
    (keys : list key) (price_norm : list (option Q)) : list segment :=
  fold_left (segment_group q_low q_high keys price_norm) groups
    (repeat Unknown (length keys)).

(** Both scripts define the same function, with the defaults 0.25, 0.75. *)
Definition price_segment_by_category (keys : list key)
    (price_norm : list (option Q)) : list segment :=
  price_segment_over (group_keys keys) (1 # 4) (3 # 4) keys price_norm.

(** ** Frames

    A frame is the list of its labelled columns, in order; two columns may
    carry the same label.  The rows are the positions [0 .. n-1]. *)

Definition column := list cell.
Definition frame := list (pystr * column).

Definition labels (df : frame) : list pystr := List.map fst df.

(** The number of rows: the length of every column. *)
Definition nrows (df : frame) : nat :=
  match df with
  | (_, c) :: _ => length c
  | [] => 0%nat
  end.

Definition columns_named (k : pystr) (df : frame) : list column :=
  List.map snd (List.filter (fun lc => str_eqb lc.1 k) df).

Inductive exn :=
| AttributeError
| KeyError (label : pystr).

(** The result of running a piece of the pipeline: a value, an exception,
    or [Unmodelled] where the behaviour of pandas is outside this model
    (a label carried by several columns is read or written as one column,
    the frame has no row, a parser of the best-sellers script meets a cell
    that is not a string). *)
Inductive outcome (A : Type) :=
| Done (a : A)
| Raised (e : exn)
| Unmodelled.
Arguments Done {A} a.
Arguments Raised {A} e.
Arguments Unmodelled {A}.

Definition bind {A B} (m : outcome A) (f : A -> outcome B) : outcome B :=
  match m with
  | Done a => f a
  | Raised e => Raised e
  | Unmodelled => Unmodelled
  end.

Notation "x <- m ;; k" := (bind m (fun x => k))
  (at level 100, m at next level, right associativity).

(** What [df.get(k, default)] and [df[k]] hand back. *)
Inductive pyobj :=
| Series (c : column)
| SubFrame (cs : list column)
| Scalar (v : cell).

Definition select (cs : list column) (otherwise : outcome pyobj) : outcome pyobj :=
  match cs with
  | [] => otherwise
  | [c] => Done (Series c)
  | _ => Done (SubFrame cs)
  end.

(** [df.get(k, default)] *)
Definition get (k : pystr) (default : cell) (df : frame) : outcome pyobj :=
  select (columns_named k df) (Done (Scalar default)).

(** [df[k]] *)
Definition getitem (k : pystr) (df : frame) : outcome pyobj :=
  select (columns_named k df) (Raised (KeyError k)).

Fixpoint map_cells (f : cell -> option cell) (c : column) : outcome column :=
  match c with
  | [] => Done []
  | x :: t =>
      match f x with
      | Some y => t' <- map_cells f t ;; Done (y :: t')
      | None => Unmodelled
      end
  end.

(** [obj.apply(f)]: only a series has it among the objects met here. *)
Definition apply (f : cell -> option cell) (obj : pyobj) : outcome column :=
  match obj with
  | Series c => map_cells f c
  | Scalar _ => Raised AttributeError
  | SubFrame _ => Unmodelled
  end.

Fixpoint replace_column (k : pystr) (c : column) (df : frame) : frame :=
  match df with
  | [] => []
  | (l, c') :: t =>
      if str_eqb l k then (l, c) :: t else (l, c') :: replace_column k c t
  end.

(** [df[k] = c]: the column is replaced in place, or added at the end. *)
Definition setitem (k : pystr) (c : column) (df : frame) : outcome frame :=
  match columns_named k df with
  | [] => Done (df ++ [(k, c)])
  | [_] => Done (replace_column k c df)
  | _ => Unmodelled
  end.

Definition num_cell (x : option Q) : cell :=
  match x with
  | Some q => Num q
  | None => NaN
  end.

Definition int_cell (x : option Z) : cell := num_cell (inject_Z <$> x).

Definition text_cell (x : option pystr) : cell :=
  match x with
  | Some s => Str s
  | None => PyNone
  end.

(** A parser of the best-sellers script, which is written for strings. *)
Definition on_str (f : pystr -> cell) (x : cell) : option cell :=
  match x with
  | Str s => Some (f s)
  | _ => None
  end.

(** A numeric cell as an optional number ([pd.isna] is true of [nan] and of
    [None]). *)
Definition cell_num (x : cell) : option (option Q) :=
  match x with
  | Num q => Some (Some q)
  | NaN | PyNone => Some None
  | Str _ | Infty _ => None
  end.

(** A cell of the key column. *)
Definition cell_key (x : cell) : option key :=
  match x with
  | Str s => Some (Some s)
  | NaN | PyNone => Some None
  | Num _ | Infty _ => None
  end.

Fixpoint all_some {A} (l : list (option A)) : outcome (list A) :=
  match l with
  | [] => Done []
  | Some x :: t => t' <- all_some t ;; Done (x :: t')
  | None :: _ => Unmodelled
  end.

Definition read_column {A} (conv : cell -> option A) (k : pystr) (df : frame)
  : outcome (list A) :=
  obj <- getitem k df ;;
  match obj with
  | Series c => all_some (List.map conv c)
  | _ => Unmodelled
  end.

Definition fval_cell (v : fval) : cell :=
  match v with
  | Fin q => Num q
  | Nan => NaN
  | Inf s => Infty s
  end.

(** ** Column mapping *)

Definition canonical_bs (lc : pystr) : option pystr :=
  if contains (U "rank") lc then Some (U "rank")
  else if str_eqb (U "page") lc then Some (U "page")
  else if contains (U "category") lc then Some (U "category")
  else if contains (U "title") lc then Some (U "title")
  else if contains (U "link") lc || contains (U "url") lc then Some (U "link")
  else if contains (U "rating") lc then Some (U "rating_raw")
  else if contains (U "review") lc then Some (U "review_count_raw")
  else if contains (U "price") lc then Some (U "price_raw")
  else None.

Definition canonical_ms (lc : pystr) : option pystr :=
  if str_eqb lc (U "page") then Some (U "page")
  else if starts_with (U "rank") lc && negb (contains (U "sales") lc)
       then Some (U "rank")
  else if contains (U "category") lc then Some (U "category")
  else if contains (U "title") lc then Some (U "title")
  else if contains (U "link") lc || contains (U "url") lc then Some (U "link")
  else if contains (U "rating") lc then Some (U "rating_raw")
  else if contains (U "review") lc then Some (U "review_count_raw")
  else if contains (U "price") lc && negb (contains (U "move") lc)
       then Some (U "price_raw")
  else if contains (U "move") lc then Some (U "move_pct_raw")
  else if contains (U "sales_rank_now") lc || contains (U "rank now") lc
       then Some (U "sales_rank_now_raw")
  else if contains (U "sales_rank_was") lc || contains (U "rank was") lc
       then Some (U "sales_rank_was_raw")
  else None.

(** The loop that fills the dictionary [colmap], keyed by the header. *)
Definition build_colmap (canonical : pystr -> option pystr) (columns : list pystr)
  : gmap pystr pystr :=
  fold_left
    (fun colmap c =>
       match canonical (lower c) with
       | Some k => <[c := k]> colmap
       | None => colmap
       end)
    columns ∅.

(** [df.rename(columns=colmap)] *)
Definition rename (colmap : gmap pystr pystr) (df : frame) : frame :=
  List.map (fun lc => (default lc.1 (colmap !! lc.1), lc.2)) df.

(** [df.columns = [c.strip() for c in df.columns]] *)
Definition strip_labels (df : frame) : frame :=
  List.map (fun lc => (strip lc.1, lc.2)) df.

Definition map_columns (canonical : pystr -> option pystr) (df : frame) : frame :=
  let df := strip_labels df in
  rename (build_colmap canonical (labels df)) df.

(** [df[keys]] for a list of labels: every column that carries one of the
    labels, label by label; a label that no column carries is a
    [KeyError]. *)
Fixpoint project (keep : list pystr) (df : frame) : outcome frame :=
  match keep with
  | [] => Done []
  | k :: rest =>
      match columns_named k df with
      | [] => Raised (KeyError k)
      | cs => out <- project rest df ;; Done (List.map (pair k) cs ++ out)
      end
  end.

(** ** The two transforms *)

Definition SCRAPED_AT : pystr := U "2025-10-25".

(** [df[dst] = obj.apply(f)] *)
Definition assign_applied (dst : pystr) (f : cell -> option cell)
    (obj : outcome pyobj) (df : frame) : outcome frame :=
  o <- obj ;;
  c <- apply f o ;;
  setitem dst c df.

(** [df[dst] = v] for a scalar [v] *)
Definition assign_const (dst : pystr) (v : cell) (df : frame) : outcome frame :=
  setitem dst (repeat v (nrows df)) df.

(** [pd.concat([df, cats], axis=1)] for the three columns made from the
    dictionaries of [parse_category_levels]. *)
Definition concat_levels (df : frame) (cats : list levels) : frame :=
  df ++ [(U "category_full", List.map (fun l => text_cell (category_full l)) cats);
         (U "cat_level_1", List.map (fun l => text_cell (cat_level_1 l)) cats);
         (U "cat_level_2", List.map (fun l => text_cell (cat_level_2 l)) cats)].

Definition levels_of (f : cell -> levels) (obj : pyobj) : outcome (list levels) :=
  match obj with
  | Series c => Done (List.map f c)
  | Scalar _ => Raised AttributeError
  | SubFrame _ => Unmodelled
  end.

(** The column [review_density], row by row. *)
Definition with_review_density (df : frame) : outcome frame :=
  rc <- read_column cell_num (U "review_count") df ;;
  rk <- read_column cell_num (U "rank") df ;;
  setitem (U "review_density")
    (List.map num_cell (zip_with review_density rc rk)) df.

(** The column [norm_review_density], by the loop [norm] over the groups. *)
Definition with_norm_review_density
    (norm : list key -> list (option Q) -> list fval) (df : frame)
  : outcome frame :=
  df <- assign_const (U "norm_review_density") NaN df ;;
  keys <- read_column cell_key (U "cat_level_1") df ;;
  density <- read_column cell_num (U "review_density") df ;;
  setitem (U "norm_review_density") (List.map fval_cell (norm keys density)) df.

Definition with_price_segment (df : frame) : outcome frame :=
  df <- assign_const (U "price_segment") (Str (U "unknown")) df ;;
  keys <- read_column cell_key (U "cat_level_1") df ;;
  price <- read_column cell_num (U "price_norm") df ;;
  setitem (U "price_segment")
    (List.map (fun s => Str (segment_name s)) (price_segment_by_category keys price))
    df.

Definition keep_cols_bs : list pystr :=
  [U "rank"; U "page"; U "category"; U "category_full"; U "cat_level_1";
   U "cat_level_2"; U "title"; U "asin"; U "link"; U "rating";
   U "review_count"; U "price_raw"; U "price_norm"; U "price_segment";
   U "review_density"; U "norm_review_density"; U "scraped_at"].

Definition keep_ms : list pystr :=
  [U "rank"; U "page"; U "category"; U "category_full"; U "cat_level_1";
   U "cat_level_2"; U "title"; U "asin"; U "link"; U "rating";
   U "review_count"; U "price_raw"; U "price_norm"; U "price_segment";
   U "move_pct"; U "sales_rank_now"; U "sales_rank_was";
   U "sales_rank_change"; U "sales_rank_change_abs"; U "move_direction";
   U "review_density"; U "norm_review_density"; U "scraped_at"].

Definition has_label (df : frame) (k : pystr) : bool :=
  bool_decide (k ∈ labels df).

Definition transform_bs (df : frame) : outcome frame :=
  let df := map_columns canonical_bs df in
  if (nrows df =? 0)%nat then Unmodelled
  else
    df <- assign_applied (U "rank") (on_str (fun s => int_cell (parse_int_bs s)))
            (get (U "rank") PyNone df) df ;;
    df <- assign_applied (U "asin") (fun x => Some (text_cell (extract_asin_bs x)))
            (get (U "link") (Str []) df) df ;;
    df <- assign_applied (U "price_norm") (on_str (fun s => num_cell (parse_price_bs s)))
            (get (U "price_raw") (Str []) df) df ;;
    df <- assign_applied (U "rating") (on_str (fun s => num_cell (parse_rating_bs s)))
            (get (U "rating_raw") (Str []) df) df ;;
    df <- assign_applied (U "review_count") (on_str (fun s => int_cell (parse_int_bs s)))
            (get (U "review_count_raw") (Str []) df) df ;;
    category <- get (U "category") (Str []) df ;;
    cats <- levels_of parse_category_levels_bs category ;;
    let df := concat_levels df cats in
    df <- assign_const (U "scraped_at") (Str SCRAPED_AT) df ;;
    df <- with_review_density df ;;
    df <- with_norm_review_density norm_review_density_bs df ;;
    df <- with_price_segment df ;;
    project (List.filter (has_label df) keep_cols_bs) df.

(** The three rank columns of movers and shakers, row by row. *)
Definition with_rank_change (df : frame) : outcome frame :=
  was <- read_column cell_num (U "sales_rank_was") df ;;
  now <- read_column cell_num (U "sales_rank_now") df ;;
  let change := zip_with sales_rank_change was now in
  df <- setitem (U "sales_rank_change") (List.map num_cell change) df ;;
  df <- setitem (U "sales_rank_change_abs")
          (List.map (fun x => num_cell (sales_rank_change_abs x)) change) df ;;
  setitem (U "move_direction")
    (List.map (fun x => text_cell (direction x)) change) df.

Definition transform_ms (df : frame) : outcome frame :=
  let df := map_columns canonical_ms df in
  if (nrows df =? 0)%nat then Unmodelled
  else
    df <- assign_applied (U "rank") (fun x => Some (int_cell (parse_int_ms x)))
            (getitem (U "rank") df) df ;;
    df <- assign_applied (U "asin") (fun x => Some (text_cell (extract_asin_ms x)))
            (getitem (U "link") df) df ;;
    df <- assign_applied (U "price_norm") (fun x => Some (num_cell (parse_price_ms x)))
            (getitem (U "price_raw") df) df ;;
    df <- assign_applied (U "rating") (fun x => Some (num_cell (parse_rating_ms x)))
            (getitem (U "rating_raw") df) df ;;
    df <- assign_applied (U "review_count") (fun x => Some (int_cell (parse_int_ms x)))
            (getitem (U "review_count_raw") df) df ;;
    df <- assign_applied (U "move_pct") (fun x => Some (num_cell (parse_float x)))
            (getitem (U "move_pct_raw") df) df ;;
    df <- assign_applied (U "sales_rank_now") (fun x => Some (num_cell (parse_float x)))
            (getitem (U "sales_rank_now_raw") df) df ;;
    df <- assign_applied (U "sales_rank_was") (fun x => Some (num_cell (parse_float x)))
            (getitem (U "sales_rank_was_raw") df) df ;;
    category <- getitem (U "category") df ;;
    cats <- levels_of parse_category_levels_ms category ;;
    let df := concat_levels df cats in
    df <- with_rank_change df ;;
    df <- with_review_density df ;;
    df <- with_norm_review_density norm_review_density_ms df ;;
    df <- with_price_segment df ;;
    df <- assign_const (U "scraped_at") (Str SCRAPED_AT) df ;;
    project keep_ms df.

(** A frame as [read_input] returns it: headers and string cells. *)
Definition read_frame (table : list (string * list string)) : frame :=
  List.map (fun hc => (U hc.1, List.map (fun s => Str (U s)) hc.2)) table.

(** ** Row views, predicates and sample tables of the statements *)

(** The values of a column on the rows of group [k], in row order. *)
Definition group_values {A} (keys : list key) (col : list (option A)) (k : key)
  : list (option A) :=
  loc None (group_index keys k) col.

(** All the values of a series are equal. *)
Definition all_equal (l : list Q) : Prop :=
  forall x y, In x l -> In y l -> x == y.

(** What the round of a group writes on a row that holds [x], given the
    non-missing densities [present] of the group. *)
Definition norm_value_bs (present : list Q) (x : option Q) (old : fval) : fval :=
  match present with
  | [] => old
  | v :: vs =>
      let mn := qmin_list v vs in
      let mx := qmax_list v vs in
      if Qeq_bool mn mx then Fin 0 else fdiv (fsub x mn) (mx - mn)
  end.

(** The same for movers and shakers. *)
Definition norm_value_ms (present : list Q) (x : option Q) (old : fval) : fval :=
  if (length present <? 2)%nat then Fin 0
  else
    match present with
    | [] => old
    | v :: vs => fdiv (fsub x (qmin_list v vs)) (qmax_list v vs - qmin_list v vs)
    end.

(** What the round of a group writes on a row that holds the price [x]. *)
Definition segment_value (q_low q_high : Q) (grp : list (option Q)) (x : option Q)
  : segment :=
  if forallb is_missing grp then Unknown
  else classify (quantile q_low grp) (quantile q_high grp) x.

(** The percentile of the specification, by linear interpolation, on the
    values in ascending order: the position [q * (n - 1)] lies between two
    neighbouring ranks, and the percentile divides the step between their
    values as the position divides the step between the ranks. *)
Definition percentile (q : Q) (sorted : list Q) : Q :=
  let h := q * inject_Z (Z.of_nat (length sorted - 1)) in
  let g := h - inject_Z (Qfloor h) in
  (1 - g) * nth (Z.to_nat (Qfloor h)) sorted 0
  + g * nth (Z.to_nat (Qceiling h)) sorted 0.

(** The price segment of a row in the words of the specification, given
    the prices of its group in ascending order: unknown if the row has no
    price or its group has no price at all, otherwise Low up to the 25th
    percentile, Mid up to the 75th percentile, else High. *)
Definition price_segment_spec (x : option Q) (sorted : list Q) : segment :=
  match x, sorted with
  | None, _ => Unknown
  | Some _, [] => Unknown
  | Some v, _ :: _ =>
      if Qle_bool v (percentile (1 # 4) sorted) then Low
      else if Qle_bool v (percentile (3 # 4) sorted) then Mid
      else High
  end.

(** Ten characters, each an ASCII capital or digit. *)
Definition valid_asin (id : pystr) : Prop :=
  length id = 10%nat /\ forallb is_asin_char id = true.

(** The text [marker ++ id] occurs in [link]. *)
Definition embeds (marker link id : pystr) : Prop :=
  exists pre post, link = pre ++ marker ++ id ++ post.

(** Every match of the pattern in [s], from left to right. *)
Fixpoint all_ids (marker s : pystr) : list pystr :=
  option_list (match_id_at marker s) ++
  match s with
  | [] => []
  | _ :: t => all_ids marker t
  end.

(** The guard of the best-sellers parser. *)
Definition price_guard_bs (p : pystr) : bool :=
  str_eqb p [] || bool_decide (lower p ∈ [U "nan"; U "n/a"; U "none"]).

(** The label that the renaming gives to a header: the canonical name of
    the first rule that the trimmed, lower-cased header matches, or the
    trimmed header itself. *)
Definition canonical_label (canonical : pystr -> option pystr) (header : pystr)
  : pystr :=
  default (strip header) (canonical (lower (strip header))).

(** A best-sellers table with two headers that match the rule of [title]. *)
Definition two_titles : frame :=
  read_frame
    [("Rank", ["1"; "2"]);
     ("Category", ["Best Sellers in Toys"; "Best Sellers in Toys"]);
     ("Title", ["Widget"; "Gadget"]);
     ("Subtitle", ["Deluxe"; "Mini"]);
     ("Link", ["https://a.example/dp/B000000001/ref=x";
               "https://a.example/gp/product/B000000002"]);
     ("Rating", ["4.5 out of 5 stars"; "3.0"]);
     ("Reviews", ["1,234"; "10"]);
     ("Price", ["$19.99"; "$9.00 (converted)"])]%string.

(** A best-sellers table without a price column, as read by [read_input]. *)
Definition table_no_price : list (string * list string) :=
  [("Rank", ["1"; "2"]);
   ("Category", ["Best Sellers in Toys"; "Best Sellers in Toys"]);
   ("Title", ["Widget"; "Gadget"]);
   ("Link", ["https://a.example/dp/B000000001/ref=x";
             "https://a.example/gp/product/B000000002"]);
   ("Rating", ["4.5 out of 5 stars"; "3.0"]);
   ("Reviews", ["1,234"; "10"])]%string.

(** The same table with its price column; it has no [page] column. *)
Definition table_with_price : list (string * list string) :=
  table_no_price ++ [("Price", ["$19.99"; "$9.00 (converted)"])]%string.

(** A movers-and-shakers table without a price column, and a complete one
    but for the [page] column. *)
Definition table_ms_no_price : list (string * list string) :=
  table_no_price ++
  [("Move", ["+120%"; "5%"]);
   ("Sales_Rank_Now", ["10"; "20"]);
   ("Sales_Rank_Was", ["22"; "20"])]%string.

Definition table_ms_no_page : list (string * list string) :=
  table_ms_no_price ++ [("Price", ["$19.99"; "$9.00 (converted)"])]%string.

(** The canonical columns that movers and shakers indexes. *)
Definition required_ms : list pystr :=
  [U "rank"; U "link"; U "price_raw"; U "rating_raw"; U "review_count_raw";
   U "move_pct_raw"; U "sales_rank_now_raw"; U "sales_rank_was_raw";
   U "category"; U "page"; U "title"].

(** The columns that best sellers parses. *)
Definition parsed_bs : list pystr :=
  [U "rank"; U "link"; U "price_raw"; U "rating_raw"; U "review_count_raw";
   U "category"].

(** The labels of the category levels. *)
Definition level_labels : list pystr :=
  [U "category_full"; U "cat_level_1"; U "cat_level_2"].

(** The labels that the best-sellers transform assigns. *)
Definition derived_bs : list pystr :=
  [U "rank"; U "asin"; U "price_norm"; U "rating"; U "review_count";
   U "category_full"; U "cat_level_1"; U "cat_level_2"; U "scraped_at";
   U "review_density"; U "norm_review_density"; U "price_segment"].

(** Every column has [n] cells. *)
Definition rows (n : nat) (df : frame) : Prop :=
  Forall (fun lc => length lc.2 = n) df.

(** The labels of [df'] are those of [df] and some of [added]. *)
Definition grows (added : list pystr) (df df' : frame) : Prop :=
  forall x, x ∈ labels df' -> x ∈ labels df \/ x ∈ added.

(** [df'] is [df] with the column [c] assigned to the label [dst]. *)
Definition assigned (n : nat) (dst : pystr) (c : column) (df df' : frame) : Prop :=
  NoDup (labels df') /\ rows n df' /\
  columns_named dst df' = [c] /\
  (forall k', k' <> dst -> columns_named k' df' = columns_named k' df) /\
  (forall x, x ∈ labels df' <-> x ∈ labels df \/ x = dst).

(** ** Further row views and predicates *)

(** The order of the segment names: Low, Mid, High. *)
Definition segment_level (s : segment) : nat :=
  match s with
  | Unknown => 0
  | Low => 1
  | Mid => 2
  | High => 3
  end.

(** The digits that the scanners of [re.findall] and [re.search] hold are
    well formed. *)
Definition token_ok (tk : pystr * pystr) : Prop :=
  tk.1 <> [] /\ forallb is_digit tk.1 = true /\ forallb is_digit tk.2 = true.

Definition state_ok (st : tok_state) : Prop :=
  match st with
  | Idle => True
  | InInt d | AfterDot d => token_ok (d, [])
  | InFrac d f => token_ok (d, f) /\ f <> []
  end.

(** The names that the rules of the two mappings give. *)
Definition canonical_names : list pystr :=
  [U "rank"; U "page"; U "category"; U "title"; U "link"; U "rating_raw";
   U "review_count_raw"; U "price_raw"; U "move_pct_raw";
   U "sales_rank_now_raw"; U "sales_rank_was_raw"].

(** The characters that separate two category levels on their own, and the
    separators of the [re.split] pattern as texts. *)
Definition separator_chars : list char := [62; 47; 8250; 187; 124; 44]%N.

Definition separators : list pystr :=
  List.map (fun c => [c]) separator_chars ++ [U " - "; U " & "].

(** A text that holds no separator character, hyphen or ampersand. *)
Definition plain_text (s : pystr) : Prop :=
  forall c, In c s -> ~ In c separator_chars /\ c <> 45%N /\ c <> 38%N.

(** The columns that the best-sellers transform computes from the six
    columns it parses, given as the texts of their cells. *)
Definition best_sellers_columns
    (rank link price_raw rating_raw review_count_raw category : list pystr) : frame :=
  let cats := List.map parse_category_levels_bs (List.map Str category) in
  let keys := List.map cat_level_1 cats in
  let density :=
    zip_with review_density
      (List.map (fun s => inject_Z <$> parse_int_bs s) review_count_raw)
      (List.map (fun s => inject_Z <$> parse_int_bs s) rank) in
  [(U "rank", List.map (fun s => int_cell (parse_int_bs s)) rank);
   (U "asin", List.map (fun s => text_cell (extract_asin_bs (Str s))) link);
   (U "price_norm", List.map (fun s => num_cell (parse_price_bs s)) price_raw);
   (U "rating", List.map (fun s => num_cell (parse_rating_bs s)) rating_raw);
   (U "review_count", List.map (fun s => int_cell (parse_int_bs s)) review_count_raw);
   (U "category_full", List.map (fun l => text_cell (category_full l)) cats);
   (U "cat_level_1", List.map (fun l => text_cell (cat_level_1 l)) cats);
   (U "cat_level_2", List.map (fun l => text_cell (cat_level_2 l)) cats);
   (U "scraped_at", repeat (Str SCRAPED_AT) (length rank));
   (U "review_density", List.map num_cell density);
   (U "norm_review_density",
    List.map fval_cell (norm_review_density_bs keys density));
   (U "price_segment",
    List.map (fun s => Str (segment_name s))
      (price_segment_by_category keys (List.map parse_price_bs price_raw)))].

(** The columns that the transforms pass on as they are read. *)
Definition passed_on : list pystr :=
  [U "page"; U "category"; U "title"; U "link"; U "price_raw"].

(** The columns that the movers-and-shakers transform computes from the
    nine columns it parses, given as the texts of their cells. *)
Definition movers_shakers_columns
    (rank link price_raw rating_raw review_count_raw move_pct_raw
     sales_rank_now_raw sales_rank_was_raw category : list pystr) : frame :=
  let cats := List.map parse_category_levels_ms (List.map Str category) in
  let keys := List.map cat_level_1 cats in
  let change :=
    zip_with sales_rank_change
      (List.map (fun s => parse_float (Str s)) sales_rank_was_raw)
      (List.map (fun s => parse_float (Str s)) sales_rank_now_raw) in
  let density :=
    zip_with review_density
      (List.map (fun s => inject_Z <$> parse_int_ms (Str s)) review_count_raw)
      (List.map (fun s => inject_Z <$> parse_int_ms (Str s)) rank) in
  [(U "rank", List.map (fun s => int_cell (parse_int_ms (Str s))) rank);
   (U "asin", List.map (fun s => text_cell (extract_asin_ms (Str s))) link);
   (U "price_norm", List.map (fun s => num_cell (parse_price_ms (Str s))) price_raw);
   (U "rating", List.map (fun s => num_cell (parse_rating_ms (Str s))) rating_raw);
   (U "review_count",
    List.map (fun s => int_cell (parse_int_ms (Str s))) review_count_raw);
   (U "move_pct", List.map (fun s => num_cell (parse_float (Str s))) move_pct_raw);
   (U "sales_rank_now",
    List.map (fun s => num_cell (parse_float (Str s))) sales_rank_now_raw);
   (U "sales_rank_was",
    List.map (fun s => num_cell (parse_float (Str s))) sales_rank_was_raw);
   (U "category_full", List.map (fun l => text_cell (category_full l)) cats);
   (U "cat_level_1", List.map (fun l => text_cell (cat_level_1 l)) cats);
   (U "cat_level_2", List.map (fun l => text_cell (cat_level_2 l)) cats);
   (U "sales_rank_change", List.map num_cell change);
   (U "sales_rank_change_abs",
    List.map (fun x => num_cell (sales_rank_change_abs x)) change);
   (U "move_direction", List.map (fun x => text_cell (direction x)) change);
   (U "review_density", List.map num_cell density);
   (U "norm_review_density",
    List.map fval_cell (norm_review_density_ms keys density));
   (U "price_segment",
    List.map (fun s => Str (segment_name s))
      (price_segment_by_category keys
         (List.map (fun s => parse_price_ms (Str s)) price_raw)));
   (U "scraped_at", repeat (Str SCRAPED_AT) (length rank))].

(** A complete movers-and-shakers table. *)
Definition table_ms_complete : list (string * list string) :=
  table_ms_no_page ++ [("Page", ["1"; "1"])]%string.

(** ** Price conversion of the scraper

    [convert_price] of [scripts/scrape_best_sellers_all_category.py], the
    one function of the scraper that does not drive the browser.  Its
    argument is a text or [None].  The amount is a rational, as every float
    here; [f"{usd:.2f}"] rounds it to the nearest hundredth, a tie to the
    even one, and writes all its digits. *)

Definition IDR_TO_USD : Q := 0.000060.

(** [s.replace(" ", "")] *)
Definition remove_spaces (s : pystr) : pystr :=
  List.filter (fun c => negb (c =? 32)%N) s.

(** The class of the pattern of [re.findall]: a digit or the point. *)
Definition is_amount_char (c : char) : bool := is_digit c || (c =? 46)%N.

Fixpoint amount_run (s : pystr) : pystr :=
  match s with
  | c :: t => if is_amount_char c then c :: amount_run t else []
  | [] => []
  end.

(** [nums[0]], the first run of the class; [None] when [nums] is empty. *)
Fixpoint first_amount (s : pystr) : option pystr :=
  match s with
  | c :: t => if is_amount_char c then Some (amount_run s) else first_amount t
  | [] => None
  end.

(** The decimal digits of a natural number, most significant first. *)
Fixpoint digits_from (fuel : nat) (n : N) (acc : pystr) : pystr :=
  match fuel with
  | O => acc
  | S k =>
      let acc := (48 + n mod 10)%N :: acc in
      if (n <? 10)%N then acc else digits_from k (n / 10)%N acc
  end.

Definition digits_of (n : N) : pystr :=
  digits_from (S (N.to_nat (N.size n))) n [].

Definition two_digits (n : N) : pystr := [48 + n / 10; 48 + n mod 10]%N.

(** The nearest integer, a tie to the even one. *)
Definition round_half_even (x : Q) : Z :=
  let f := Qfloor x in
  let r := x - inject_Z f in
  if Qltb r (1 # 2) then f
  else if Qltb (1 # 2) r then (f + 1)%Z
  else if Z.even f then f else (f + 1)%Z.

(** [f"{x:.2f}"] of an amount that is not negative. *)
Definition format_2f (x : Q) : pystr :=
  let cents := Z.to_N (round_half_even (x * 100)) in
  digits_of (cents / 100)%N ++ 46%N :: two_digits (cents mod 100)%N.

Definition convert_price (price_text : option pystr) : option pystr :=
  match price_text with
  | None => None
  | Some [] => Some []
  | Some p =>
      let clean := remove_spaces (remove_commas (strip p)) in
      if starts_with (U "$") clean then Some clean
      else if starts_with (U "idr") (lower clean) || contains (U "rp") (lower clean)
      then
        match first_amount clean with
        | None => Some p
        | Some num =>
            match py_float num with
            | Some amount =>
                let usd :=
                  if Qltb 10000 amount then amount * IDR_TO_USD else amount in
                Some (U "$" ++ format_2f usd ++ U " (converted)")
            | None => Some p
            end
        end
      else Some p
  end.

(** * Properties *)

(** ** Writing into a column *)

Lemma set_loc_length {A} (idx : list nat) (vals col : list A) :
  length (set_loc idx vals col) = length col.
Proof.
  unfold set_loc. revert col.
  induction (zip idx vals) as [|iv l IH]; intros col; simpl; [done|].
  rewrite IH. apply length_insert.
Qed.

Lemma set_loc_map {A} (g : nat -> A) (idx : list nat) (col : list A) (i : nat) :
  set_loc idx (List.map g idx) col !! i =
  if bool_decide (i ∈ idx) then (fun _ => g i) <$> (col !! i) else col !! i.
Proof.
  unfold set_loc. revert col.
  induction idx as [|a idx IH]; intros col; simpl; [done|].
  rewrite IH.
  destruct (decide (i = a)) as [->|Hne].
  - rewrite (bool_decide_eq_true_2 (a ∈ a :: idx)) by set_solver.
    destruct (decide (a < length col)%nat) as [Hlt|Hge].
    + rewrite list_lookup_insert_eq by done.
      destruct (lookup_lt_is_Some_2 col a Hlt) as [x ->].
      by case_bool_decide.
    + rewrite list_insert_ge by lia.
      rewrite (proj2 (lookup_ge_None col a)) by lia. by case_bool_decide.
  - rewrite list_lookup_insert_ne by done.
    assert (Hb : bool_decide (i ∈ a :: idx) = bool_decide (i ∈ idx))
      by (apply bool_decide_ext; set_solver).
    by rewrite Hb.
Qed.

Lemma set_loc_const_map {A} (v : A) (idx : list nat) (col : list A) :
  set_loc_const idx v col = set_loc idx (List.map (fun _ => v) idx) col.
Proof.
  unfold set_loc_const, set_loc. revert col.
  induction idx as [|a idx IH]; intros col; simpl; [done|]. apply IH.
Qed.

Lemma repeat_as_map {A} (v : A) (idx : list nat) :
  repeat v (length idx) = List.map (fun _ => v) idx.
Proof. induction idx; simpl; congruence. Qed.

Lemma loc_as_map {A B} (d : A) (f : A -> B) (idx : list nat) (col : list A) :
  List.map f (loc d idx col) = List.map (fun i => f (nth i col d)) idx.
Proof. unfold loc. by rewrite List.map_map. Qed.

(** ** Groups *)

Lemma group_index_spec (keys : list key) (k : key) (i : nat) :
  i ∈ group_index keys k <-> keys !! i = Some k.
Proof.
  unfold group_index. rewrite list_elem_of_In, filter_In, in_seq.
  rewrite bool_decide_eq_true. split.
  - tauto.
  - intros H. split; [|done]. apply lookup_lt_Some in H. lia.
Qed.

Lemma group_keys_spec (keys : list key) (k : key) :
  k ∈ group_keys keys <-> k ∈ keys.
Proof. unfold group_keys. apply elem_of_remove_dups. Qed.

Lemma group_keys_NoDup (keys : list key) : NoDup (group_keys keys).
Proof. apply NoDup_remove_dups. Qed.

(** A loop over the groups that rewrites, in each round, only the rows of
    its group: after the loop, a row holds what the round of its own group
    wrote. *)
Section Groupwise.
Context {A : Type} (keys : list key).
Variable step : list A -> key -> list A.
Variable w : key -> nat -> A -> A.

Hypothesis step_length : forall col k, length (step col k) = length col.
Hypothesis step_lookup : forall col k i ki,
  keys !! i = Some ki ->
  step col k !! i = if bool_decide (ki = k) then w k i <$> col !! i else col !! i.

Lemma groupwise_lookup (groups : list key) (col : list A) (i : nat) (ki : key) :
  NoDup groups ->
  keys !! i = Some ki ->
  fold_left step groups col !! i =
  if bool_decide (ki ∈ groups) then w ki i <$> col !! i else col !! i.
Proof.
  intros Hnd Hi. revert col.
  induction Hnd as [|k groups Hk Hnd IH]; intros col; simpl; [done|].
  rewrite IH, (step_lookup _ _ _ _ Hi).
  destruct (decide (ki = k)) as [->|Hne].
  - rewrite (bool_decide_eq_false_2 (k ∈ groups)) by done.
    rewrite (bool_decide_eq_true_2 (k = k)) by done.
    by rewrite (bool_decide_eq_true_2 (k ∈ k :: groups)) by set_solver.
  - rewrite (bool_decide_eq_false_2 (ki = k)) by done.
    assert (Hb : bool_decide (ki ∈ k :: groups) = bool_decide (ki ∈ groups))
      by (apply bool_decide_ext; set_solver).
    by rewrite Hb.
Qed.

Lemma groupwise_length (groups : list key) (col : list A) :
  length (fold_left step groups col) = length col.
Proof.
  revert col. induction groups as [|k groups IH]; intros col; simpl; [done|].
  by rewrite IH, step_length.
Qed.
End Groupwise.
(** ** Minimum and maximum of a series *)

Lemma qmin_list_le (v : Q) (vs : list Q) :
  qmin_list v vs <= v /\ Forall (fun x => qmin_list v vs <= x) vs.
Proof.
  unfold qmin_list. revert v.
  induction vs as [|a vs IH]; intros v; simpl.
  - split; [apply Qle_refl | constructor].
  - destruct (IH (Qmin v a)) as [H1 H2]. split.
    + eapply Qle_trans; [exact H1 | apply Q.le_min_l].
    + constructor; [|exact H2].
      eapply Qle_trans; [exact H1 | apply Q.le_min_r].
Qed.

Lemma qmax_list_ge (v : Q) (vs : list Q) :
  v <= qmax_list v vs /\ Forall (fun x => x <= qmax_list v vs) vs.
Proof.
  unfold qmax_list. revert v.
  induction vs as [|a vs IH]; intros v; simpl.
  - split; [apply Qle_refl | constructor].
  - destruct (IH (Qmax v a)) as [H1 H2]. split.
    + eapply Qle_trans; [apply Q.le_max_l | exact H1].
    + constructor; [|exact H2].
      eapply Qle_trans; [apply Q.le_max_r | exact H1].
Qed.

Lemma Qmin_cases (x y : Q) : Qmin x y = x \/ Qmin x y = y.
Proof. unfold Qmin, GenericMinMax.gmin. destruct (x ?= y); auto. Qed.

Lemma Qmax_cases (x y : Q) : Qmax x y = x \/ Qmax x y = y.
Proof. unfold Qmax, GenericMinMax.gmax. destruct (x ?= y); auto. Qed.

Lemma qmin_list_in (v : Q) (vs : list Q) : In (qmin_list v vs) (v :: vs).
Proof.
  unfold qmin_list. revert v.
  induction vs as [|a vs IH]; intros v; simpl; [auto|].
  destruct (IH (Qmin v a)) as [H|H]; [|auto].
  destruct (Qmin_cases v a) as [E|E]; rewrite E in *; auto.
Qed.

Lemma qmax_list_in (v : Q) (vs : list Q) : In (qmax_list v vs) (v :: vs).
Proof.
  unfold qmax_list. revert v.
  induction vs as [|a vs IH]; intros v; simpl; [auto|].
  destruct (IH (Qmax v a)) as [H|H]; [|auto].
  destruct (Qmax_cases v a) as [E|E]; rewrite E in *; auto.
Qed.

Lemma between_min_max (v : Q) (vs : list Q) (x : Q) :
  In x (v :: vs) -> qmin_list v vs <= x /\ x <= qmax_list v vs.
Proof.
  intros [<-|H].
  - split; [apply qmin_list_le | apply qmax_list_ge].
  - destruct (qmin_list_le v vs) as [_ H1], (qmax_list_ge v vs) as [_ H2].
    rewrite Forall_forall in H1, H2.
    split; [apply H1 | apply H2]; by apply list_elem_of_In.
Qed.

Lemma all_equal_min_max (v : Q) (vs : list Q) :
  all_equal (v :: vs) <-> qmin_list v vs == qmax_list v vs.
Proof.
  split.
  - intros H. apply H; [apply qmin_list_in | apply qmax_list_in].
  - intros H x y Hx Hy.
    apply between_min_max in Hx, Hy. destruct Hx, Hy.
    apply Qle_antisym; (eapply Qle_trans; [eassumption|]);
      (eapply Qle_trans; [|eassumption]); rewrite H; apply Qle_refl.
Qed.

Lemma unit_interval (mn mx x : Q) :
  mn <= x -> x <= mx -> ~ mn == mx ->
  ~ mx - mn == 0 /\ 0 <= (x - mn) / (mx - mn) <= 1.
Proof.
  intros H1 H2 Hne.
  assert (Hlt : mn < mx).
  { destruct (Qlt_le_dec mn mx) as [?|Hge]; [done|].
    exfalso. apply Hne. apply Qle_antisym; [|done]. by eapply Qle_trans. }
  assert (Hpos : 0 < mx - mn).
  { unfold Qminus. rewrite <- Qlt_minus_iff. exact Hlt. }
  split; [|split].
  - intros E. rewrite E in Hpos. by apply Qlt_irrefl in Hpos.
  - apply Qle_shift_div_l; [done|]. rewrite Qmult_0_l.
    unfold Qminus. rewrite <- Qle_minus_iff. exact H1.
  - apply Qle_shift_div_r; [done|]. rewrite Qmult_1_l.
    unfold Qminus. apply Qplus_le_l. exact H2.
Qed.
Lemma norm_group_bs_lookup keys density col k i ki :
  keys !! i = Some ki ->
  norm_group_bs keys density col k !! i =
  if bool_decide (ki = k)
  then norm_value_bs (dropna (group_values keys density k)) (nth i density None)
         <$> col !! i
  else col !! i.
Proof.
  intros Hi. unfold norm_group_bs, norm_value_bs, group_values.
  assert (Hin : bool_decide (i ∈ group_index keys k) = bool_decide (ki = k)).
  { apply bool_decide_ext. rewrite group_index_spec, Hi. naive_solver. }
  destruct (dropna _) as [|v vs].
  - destruct (bool_decide (ki = k)); [|done]. by destruct (col !! i).
  - destruct (Qeq_bool _ _).
    + by rewrite set_loc_const_map, set_loc_map, Hin.
    + by rewrite loc_as_map, set_loc_map, Hin.
Qed.

Lemma norm_group_bs_length keys density col k :
  length (norm_group_bs keys density col k) = length col.
Proof.
  unfold norm_group_bs. destruct (dropna _); [done|].
  destruct (Qeq_bool _ _).
  - by rewrite set_loc_const_map, set_loc_length.
  - by rewrite set_loc_length.
Qed.

Lemma norm_group_ms_lookup keys density col k i ki :
  keys !! i = Some ki ->
  norm_group_ms keys density col k !! i =
  if bool_decide (ki = k)
  then norm_value_ms (dropna (group_values keys density k)) (nth i density None)
         <$> col !! i
  else col !! i.
Proof.
  intros Hi. unfold norm_group_ms, norm_value_ms, group_values.
  assert (Hin : bool_decide (i ∈ group_index keys k) = bool_decide (ki = k)).
  { apply bool_decide_ext. rewrite group_index_spec, Hi. naive_solver. }
  destruct (_ <? 2)%nat.
  - by rewrite set_loc_const_map, set_loc_map, Hin.
  - destruct (dropna _) as [|v vs].
    + destruct (bool_decide (ki = k)); [|done]. by destruct (col !! i).
    + by rewrite loc_as_map, set_loc_map, Hin.
Qed.

Lemma norm_group_ms_length keys density col k :
  length (norm_group_ms keys density col k) = length col.
Proof.
  unfold norm_group_ms. destruct (_ <? 2)%nat.
  - by rewrite set_loc_const_map, set_loc_length.
  - destruct (dropna _); [done|]. by rewrite set_loc_length.
Qed.

Lemma lookup_repeat_lt {A} (v : A) (n i : nat) :
  (i < n)%nat -> repeat v n !! i = Some v.
Proof.
  revert i. induction n as [|n IH]; intros [|i] H; simpl; try lia; [done|].
  apply IH. lia.
Qed.

(** The row view of the two loops. *)
Lemma norm_review_density_bs_row keys density i k :
  keys !! i = Some k ->
  norm_review_density_bs keys density !! i =
  Some (norm_value_bs (dropna (group_values keys density k)) (nth i density None) Nan).
Proof.
  intros Hi. unfold norm_review_density_bs, norm_review_density_over_bs.
  rewrite (groupwise_lookup keys _ _ (norm_group_bs_length keys density)
             (norm_group_bs_lookup keys density)
             _ _ i k (group_keys_NoDup keys) Hi).
  rewrite bool_decide_eq_true_2.
  - rewrite lookup_repeat_lt; [done|]. by apply lookup_lt_Some in Hi.
  - apply group_keys_spec, list_elem_of_lookup. eauto.
Qed.

Lemma norm_review_density_ms_row keys density i k :
  keys !! i = Some k ->
  norm_review_density_ms keys density !! i =
  Some (norm_value_ms (dropna (group_values keys density k)) (nth i density None) Nan).
Proof.
  intros Hi. unfold norm_review_density_ms, norm_review_density_over_ms.
  rewrite (groupwise_lookup keys _ _ (norm_group_ms_length keys density)
             (norm_group_ms_lookup keys density)
             _ _ i k (group_keys_NoDup keys) Hi).
  rewrite bool_decide_eq_true_2.
  - rewrite lookup_repeat_lt; [done|]. by apply lookup_lt_Some in Hi.
  - apply group_keys_spec, list_elem_of_lookup. eauto.
Qed.

Lemma present_in_group keys (density : list (option Q)) i k x :
  keys !! i = Some k -> density !! i = Some (Some x) ->
  In x (dropna (group_values keys density k)).
Proof.
  intros Hi Hx. apply list_elem_of_In. unfold dropna, group_values, loc.
  apply list_elem_of_omap. exists (Some x). split; [|done].
  apply list_elem_of_In, in_map_iff. exists i. split.
  - by apply nth_lookup_Some.
  - by apply list_elem_of_In, group_index_spec.
Qed.
Lemma nth_Some_lookup {A} (l : list (option A)) (i : nat) (v : A) :
  nth i l None = Some v -> l !! i = Some (Some v).
Proof.
  rewrite nth_lookup. destruct (l !! i) as [o|]; simpl; [|done]. by intros ->.
Qed.

Lemma fdiv_defined (v mn mx : Q) :
  ~ mx - mn == 0 ->
  fdiv (fsub (Some v) mn) (mx - mn) = Fin ((v - mn) / (mx - mn)).
Proof.
  intros H. unfold fdiv, fsub. simpl.
  destruct (Qeq_bool (mx - mn) 0) eqn:E; [|done].
  apply Qeq_bool_iff in E. contradiction.
Qed.

Lemma Qeq_bool_false (a b : Q) : ~ a == b -> Qeq_bool a b = false.
Proof.
  intros H. destruct (Qeq_bool a b) eqn:E; [|done].
  apply Qeq_bool_iff in E. contradiction.
Qed.

(** In a group whose present values are not all equal, a row that holds a
    value is normalised by a division whose divisor is not zero. *)
Lemma norm_value_spread (present : list Q) (v : Q) :
  In v present -> ~ all_equal present ->
  exists mn mx,
    In mn present /\ In mx present /\
    (forall y, In y present -> mn <= y <= mx) /\
    ~ mx - mn == 0 /\ 0 <= (v - mn) / (mx - mn) <= 1 /\
    (forall old, norm_value_bs present (Some v) old = Fin ((v - mn) / (mx - mn))) /\
    (forall old, norm_value_ms present (Some v) old = Fin ((v - mn) / (mx - mn))).
Proof.
  intros Hv Hne. destruct present as [|v0 vs]; [done|].
  set (mn := qmin_list v0 vs). set (mx := qmax_list v0 vs).
  assert (Hmm : ~ mn == mx) by (intros H; apply Hne, all_equal_min_max, H).
  destruct (between_min_max v0 vs v Hv) as [H1 H2].
  destruct (unit_interval mn mx v H1 H2 Hmm) as [Hd Hr].
  exists mn, mx. repeat split; try done.
  - apply qmin_list_in.
  - apply qmax_list_in.
  - by apply between_min_max.
  - by apply between_min_max.
  - apply Hr.
  - apply Hr.
  - intros old. unfold norm_value_bs. fold mn mx.
    rewrite (Qeq_bool_false _ _ Hmm). by apply fdiv_defined.
  - intros old. unfold norm_value_ms. fold mn mx.
    destruct vs as [|v1 vs'].
    + exfalso. apply Hne. intros x y [<-|[]] [<-|[]]. reflexivity.
    + simpl. by apply fdiv_defined.
Qed.

Lemma norm_value_bs_equal (present : list Q) (x : option Q) (old : fval) :
  present <> [] -> all_equal present -> norm_value_bs present x old = Fin 0.
Proof.
  intros Hne Heq. destruct present as [|v vs]; [done|]. unfold norm_value_bs.
  apply all_equal_min_max in Heq. apply Qeq_bool_iff in Heq. by rewrite Heq.
Qed.

Lemma norm_value_bs_missing (present : list Q) (old : fval) :
  ~ all_equal present -> norm_value_bs present None old = Nan.
Proof.
  intros Hne. destruct present as [|v vs].
  - exfalso. apply Hne. by intros x y [].
  - unfold norm_value_bs.
    rewrite Qeq_bool_false; [done|]. by rewrite <- all_equal_min_max.
Qed.

Lemma norm_value_bs_range (present : list Q) (x : option Q) (r : fval) :
  (forall v, x = Some v -> In v present) ->
  norm_value_bs present x Nan = r ->
  r = Nan \/ exists q, r = Fin q /\ 0 <= q <= 1.
Proof.
  intros Hx <-.
  destruct (decide (present = [])) as [->|Hne]; [by left|].
  destruct (Qeq_bool (qmin_list (hd 0 present) (tl present))
              (qmax_list (hd 0 present) (tl present))) eqn:E.
  - right. exists 0. split; [|split; discriminate].
    destruct present as [|v vs]; [done|]. unfold norm_value_bs. simpl in E.
    by rewrite E.
  - assert (Hsp : ~ all_equal present).
    { destruct present as [|v vs]; [done|]. rewrite all_equal_min_max.
      intros H. apply Qeq_bool_iff in H. simpl in E. congruence. }
    destruct x as [v|].
    + destruct (norm_value_spread present v (Hx v eq_refl) Hsp)
        as (mn & mx & _ & _ & _ & _ & Hr & Hbs & _).
      right. eexists. split; [apply Hbs | exact Hr].
    + left. by apply norm_value_bs_missing.
Qed.

Lemma norm_value_ms_range (present : list Q) (x : option Q) (r : fval) :
  (forall v, x = Some v -> In v present) ->
  norm_value_ms present x Nan = r ->
  r = Nan \/ exists q, r = Fin q /\ 0 <= q <= 1.
Proof.
  intros Hx <-. unfold norm_value_ms.
  destruct (length present <? 2)%nat eqn:El.
  { right. exists 0. split; [done | split; discriminate]. }
  destruct present as [|v0 vs]; [by left|].
  destruct x as [v|]; [|by left].
  destruct (Qeq_bool (qmin_list v0 vs) (qmax_list v0 vs)) eqn:E.
  - left. apply Qeq_bool_iff in E.
    destruct (between_min_max v0 vs v (Hx v eq_refl)) as [H1 H2].
    assert (Hv : v == qmin_list v0 vs).
    { apply Qle_antisym; [|done]. by rewrite E. }
    unfold fdiv, fsub. simpl.
    assert (E1 : Qeq_bool (qmax_list v0 vs - qmin_list v0 vs) 0 = true).
    { apply Qeq_bool_iff. rewrite E. unfold Qminus. apply Qplus_opp_r. }
    assert (E2 : Qeq_bool (v - qmin_list v0 vs) 0 = true).
    { apply Qeq_bool_iff. rewrite Hv. unfold Qminus. apply Qplus_opp_r. }
    by rewrite E1, E2.
  - assert (Hsp : ~ all_equal (v0 :: vs)).
    { rewrite all_equal_min_max. intros H. apply Qeq_bool_iff in H. congruence. }
    destruct (norm_value_spread (v0 :: vs) v (Hx v eq_refl) Hsp)
      as (mn & mx & _ & _ & _ & _ & Hr & _ & Hms).
    right. eexists. split; [|exact Hr].
    specialize (Hms Nan). unfold norm_value_ms in Hms. by rewrite El in Hms.
Qed.
(** C10.  In a degenerate group the assignment is group-wide: every row of
    the group gets 0.0, whatever its own review density, also when that
    density is missing.  Best sellers: any group with at least one
    non-missing density whose minimum equals its maximum (all present values
    equal).  Movers and shakers: any group with fewer than two non-missing
    densities. *)
Theorem degenerate_group_gets_zero keys density i k :
  keys !! i = Some k ->
  let present := dropna (group_values keys density k) in
  (present <> [] -> all_equal present ->
   norm_review_density_bs keys density !! i = Some (Fin 0)) /\
  ((length present < 2)%nat ->
   norm_review_density_ms keys density !! i = Some (Fin 0)).
Proof.
  intros Hi present. split.
  - intros Hne Heq. rewrite (norm_review_density_bs_row _ _ _ _ Hi).
    f_equal. by apply norm_value_bs_equal.
  - intros Hlt. rewrite (norm_review_density_ms_row _ _ _ _ Hi).
    f_equal. unfold norm_value_ms. fold present.
    by rewrite (proj2 (Nat.ltb_lt _ _) Hlt).
Qed.

(** A group of three rows with the densities 2, missing, 2 (best sellers)
    and a group of two rows with the densities 2, missing (movers and
    shakers): the row whose density is missing holds 0.0. *)
Lemma degenerate_group_gets_zero_witness :
  let keys := [Some (U "Toys"); Some (U "Toys"); Some (U "Toys")] in
  let density := [Some 2; None; Some 2] in
  density !! 1%nat = Some None /\
  norm_review_density_bs keys density !! 1%nat = Some (Fin 0) /\
  norm_review_density_ms (take 2 keys) (take 2 density) !! 1%nat = Some (Fin 0).
Proof.
  intros keys density. split; [reflexivity|]. split.
  - apply (degenerate_group_gets_zero keys density 1 (Some (U "Toys")));
      [reflexivity | discriminate |].
    intros x y Hx Hy. vm_compute in Hx, Hy.
    destruct Hx as [<-|[<-|[]]], Hy as [<-|[<-|[]]]; reflexivity.
  - apply (degenerate_group_gets_zero (take 2 keys) (take 2 density) 1
             (Some (U "Toys"))); [reflexivity|].
    vm_compute. lia.
Defined.

(** C1 as stated fails in both scripts.  Best sellers: a group without any
    non-missing density (fewer than two) is skipped, and its rows stay
    missing instead of 0.0.  Movers and shakers: in a group of two equal
    densities the divisor is zero, and the rows, whose density is present,
    are missing. *)
Lemma norm_review_density_counterexample :
  (let keys := [Some (U "Toys")] in
   let density := [@None Q] in
   (length (dropna (group_values keys density (Some (U "Toys")))) < 2)%nat /\
   norm_review_density_bs keys density !! 0%nat = Some Nan) /\
  (let keys := [Some (U "Toys"); Some (U "Toys")] in
   let density := [Some 2; Some 2] in
   dropna (group_values keys density (Some (U "Toys"))) = [2; 2] /\
   density !! 0%nat = Some (Some 2) /\
   norm_review_density_ms keys density !! 0%nat = Some Nan /\
   qmax_list 2 [2] - qmin_list 2 [2] == 0).
Proof.
  split; [split; [vm_compute; lia | reflexivity]|].
  split; [reflexivity|]. split; [reflexivity|]. split; reflexivity.
Qed.

(** C1, amended.  Best sellers: the rows of a group without any non-missing
    density stay missing; the rows of a group with at least one non-missing
    density, all equal, hold 0.0; a row whose own density is present always
    holds a number (no division by zero is made).  Movers and shakers: the
    rows of a group with fewer than two non-missing densities hold 0.0.  In
    both: in a group whose present densities are not all equal, a row with
    the density [v] holds [(v - min) / (max - min)] with [max - min] not
    zero, and a row with a missing density is missing in best sellers; every
    value that is not missing lies in [0, 1]. *)
Theorem norm_review_density_by_design keys density i k :
  keys !! i = Some k ->
  let present := dropna (group_values keys density k) in
  let x := nth i density None in
  let bs := norm_review_density_bs keys density !! i in
  let ms := norm_review_density_ms keys density !! i in
  (present = [] -> bs = Some Nan) /\
  (present <> [] -> all_equal present -> bs = Some (Fin 0)) /\
  (forall v, x = Some v -> exists q, bs = Some (Fin q) /\ 0 <= q <= 1) /\
  (~ all_equal present -> x = None -> bs = Some Nan) /\
  ((length present < 2)%nat -> ms = Some (Fin 0)) /\
  (~ all_equal present -> forall v, x = Some v ->
   exists mn mx,
     In mn present /\ In mx present /\
     (forall y, In y present -> mn <= y <= mx) /\
     ~ mx - mn == 0 /\ 0 <= (v - mn) / (mx - mn) <= 1 /\
     bs = Some (Fin ((v - mn) / (mx - mn))) /\
     ms = Some (Fin ((v - mn) / (mx - mn)))) /\
  (forall r, bs = Some r \/ ms = Some r ->
   r = Nan \/ exists q, r = Fin q /\ 0 <= q <= 1).
Proof.
  intros Hi present x bs ms.
  assert (Hbs : bs = Some (norm_value_bs present x Nan))
    by apply (norm_review_density_bs_row _ _ _ _ Hi).
  assert (Hms : ms = Some (norm_value_ms present x Nan))
    by apply (norm_review_density_ms_row _ _ _ _ Hi).
  assert (Hin : forall v, x = Some v -> In v present).
  { intros v Hv. apply (present_in_group keys density i k v Hi).
    by apply nth_Some_lookup. }
  rewrite Hbs, Hms. clearbody present x. clear Hbs Hms bs ms.
  repeat apply conj.
  - by intros ->.
  - intros Hne Heq. f_equal. by apply norm_value_bs_equal.
  - intros v ->.
    destruct (norm_value_bs_range present (Some v) _ Hin eq_refl)
      as [Hn|(q & Hq & Hr)].
    + exfalso. destruct present as [|v0 vs]; [by apply (Hin v)|].
      unfold norm_value_bs in Hn.
      destruct (Qeq_bool _ _) eqn:E; [done|].
      assert (Hsp : ~ all_equal (v0 :: vs)).
      { rewrite all_equal_min_max. intros H. apply Qeq_bool_iff in H. congruence. }
      destruct (norm_value_spread (v0 :: vs) v (Hin v eq_refl) Hsp)
        as (mn & mx & _ & _ & _ & _ & _ & Hv & _).
      specialize (Hv Nan). unfold norm_value_bs in Hv. rewrite E in Hv.
      congruence.
    + exists q. by rewrite Hq.
  - intros Hsp ->. f_equal. by apply norm_value_bs_missing.
  - intros Hlt. f_equal. unfold norm_value_ms.
    by rewrite (proj2 (Nat.ltb_lt _ _) Hlt).
  - intros Hsp v ->.
    destruct (norm_value_spread present v (Hin v eq_refl) Hsp)
      as (mn & mx & H1 & H2 & H3 & H4 & H5 & H6 & H7).
    exists mn, mx. rewrite H6, H7. done.
  - intros r [[= <-]|[= <-]].
    + by apply (norm_value_bs_range present x).
    + by apply (norm_value_ms_range present x).
Qed.

(** Three rows of one group with the densities 1, 3 and missing. *)
Lemma norm_review_density_by_design_witness :
  let keys := [Some (U "Toys"); Some (U "Toys"); Some (U "Toys")] in
  let density := [Some 1; Some 3; None] in
  exists q, norm_review_density_bs keys density !! 1%nat = Some (Fin q)
            /\ 0 <= q <= 1.
Proof.
  intros keys density.
  exact (proj1 (proj2 (proj2
    (norm_review_density_by_design keys density 1 (Some (U "Toys")) eq_refl)))
    3 eq_refl).
Defined.
(** ** Price segments *)

(** The sorted values of [quantile] are the values, in increasing order. *)
Lemma insert_sorted_perm (x : Q) (l : list Q) :
  Permutation (insert_sorted x l) (x :: l).
Proof.
  induction l as [|y l IH]; simpl; [reflexivity|].
  destruct (Qle_bool x y); [reflexivity|].
  rewrite IH. apply perm_swap.
Qed.

Lemma sort_values_perm (l : list Q) : Permutation (sort_values l) l.
Proof.
  induction l as [|x l IH]; simpl; [reflexivity|].
  rewrite insert_sorted_perm. by constructor.
Qed.

Lemma insert_sorted_sorted (x : Q) (l : list Q) :
  Sorted Qle l -> Sorted Qle (insert_sorted x l).
Proof.
  induction l as [|y l IH]; simpl; intros Hs.
  - repeat constructor.
  - destruct (Qle_bool x y) eqn:E.
    + apply Qle_bool_iff in E. constructor; [exact Hs | by constructor].
    + assert (Hyx : y <= x).
      { apply Qlt_le_weak, Qnot_le_lt. intros H. apply Qle_bool_iff in H. congruence. }
      inversion Hs as [|? ? Hs' Hhd]; subst. constructor; [by apply IH|].
      destruct l as [|z l]; simpl; [by constructor|].
      destruct (Qle_bool x z); constructor; [done|]. by inversion Hhd.
Qed.

Lemma sort_values_sorted (l : list Q) : Sorted Qle (sort_values l).
Proof.
  induction l as [|x l IH]; simpl; [constructor|]. by apply insert_sorted_sorted.
Qed.

Lemma loc_length {A} (d : A) idx col : length (loc d idx col) = length idx.
Proof. unfold loc. apply length_map. Qed.

Lemma segment_group_lookup ql qh keys price col k i ki :
  keys !! i = Some ki ->
  segment_group ql qh keys price col k !! i =
  if bool_decide (ki = k)
  then (fun _ => segment_value ql qh (group_values keys price k) (nth i price None))
         <$> col !! i
  else col !! i.
Proof.
  intros Hi. unfold segment_group, segment_value, seg, group_values.
  assert (Hin : bool_decide (i ∈ group_index keys k) = bool_decide (ki = k)).
  { apply bool_decide_ext. rewrite group_index_spec, Hi. naive_solver. }
  destruct (forallb _ _).
  - by rewrite loc_length, repeat_as_map, set_loc_map, Hin.
  - by rewrite loc_as_map, set_loc_map, Hin.
Qed.

Lemma segment_group_length ql qh keys price col k :
  length (segment_group ql qh keys price col k) = length col.
Proof. unfold segment_group. apply set_loc_length. Qed.

Lemma price_segment_row keys price i k :
  keys !! i = Some k ->
  price_segment_by_category keys price !! i =
  Some (segment_value (1 # 4) (3 # 4) (group_values keys price k) (nth i price None)).
Proof.
  intros Hi. unfold price_segment_by_category, price_segment_over.
  rewrite (groupwise_lookup keys _
             (fun k i _ => segment_value (1 # 4) (3 # 4) (group_values keys price k)
                             (nth i price None))
             (segment_group_length _ _ keys price)
             (segment_group_lookup _ _ keys price)
             _ _ i k (group_keys_NoDup keys) Hi).
  rewrite bool_decide_eq_true_2.
  - rewrite lookup_repeat_lt; [done|]. by apply lookup_lt_Some in Hi.
  - apply group_keys_spec, list_elem_of_lookup. eauto.
Qed.

Lemma all_missing_dropna {A} (l : list (option A)) :
  forallb is_missing l = true <-> dropna l = [].
Proof.
  unfold dropna. induction l as [|[a|] l IH]; simpl; [done| |exact IH].
  split; discriminate.
Qed.

(** Values in ascending order are fixed by the values, rank by rank. *)

Lemma filter_length_perm {A} (f : A -> bool) (l l' : list A) :
  Permutation l l' -> length (List.filter f l) = length (List.filter f l').
Proof.
  induction 1 as [|x l l' _ IH|x y l|l l' l'' _ IH1 _ IH2]; simpl.
  - done.
  - destruct (f x); simpl; by rewrite IH.
  - by destruct (f x), (f y).
  - by rewrite IH1.
Qed.

Lemma filter_none {A} (f : A -> bool) (l : list A) :
  (forall x, In x l -> f x = false) -> List.filter f l = [].
Proof.
  induction l as [|a l IH]; intros H; [done|]. simpl.
  rewrite (H a) by (by left). apply IH. intros x Hx. apply H. by right.
Qed.

Lemma Qle_bool_false (a b : Q) : b < a -> Qle_bool a b = false.
Proof.
  intros H. destruct (Qle_bool a b) eqn:E; [|done].
  apply Qle_bool_iff in E. exfalso. by apply (Qlt_not_le b a).
Qed.

Lemma rank_count_ge (s : list Q) :
  StronglySorted Qle s -> forall i, (i < length s)%nat ->
  (S i <= length (List.filter (fun y => Qle_bool y (nth i s 0%Q)) s))%nat.
Proof.
  induction 1 as [|a t Ht IH Ha]; intros i Hi; simpl in Hi; [lia|].
  destruct i as [|j]; simpl.
  - rewrite (proj2 (Qle_bool_iff a a) (Qle_refl a)). simpl. lia.
  - assert (Hx : a <= nth j t 0).
    { rewrite List.Forall_forall in Ha. apply Ha, nth_In. lia. }
    rewrite (proj2 (Qle_bool_iff _ _) Hx). simpl.
    specialize (IH j ltac:(lia)). lia.
Qed.

Lemma rank_count_le (s : list Q) :
  StronglySorted Qle s -> forall i x, (i < length s)%nat -> x < nth i s 0 ->
  (length (List.filter (fun y => Qle_bool y x) s) <= i)%nat.
Proof.
  induction 1 as [|a t Ht IH Ha]; intros i x Hi Hx; simpl in Hi; [lia|].
  destruct i as [|j]; simpl in Hx |- *.
  - rewrite (Qle_bool_false a x Hx). rewrite filter_none; [done|].
    intros y Hy. apply Qle_bool_false.
    rewrite List.Forall_forall in Ha. specialize (Ha y Hy). lra.
  - specialize (IH j x ltac:(lia) Hx). destruct (Qle_bool a x); simpl; lia.
Qed.

Lemma sorted_rank_le (s s' : list Q) (i : nat) :
  Sorted Qle s -> Sorted Qle s' -> Permutation s s' -> (i < length s)%nat ->
  nth i s 0 <= nth i s' 0.
Proof.
  intros Hs Hs' Hp Hi.
  apply Sorted_StronglySorted in Hs, Hs'; try (intros x y z; apply Qle_trans).
  destruct (Qlt_le_dec (nth i s' 0) (nth i s 0)) as [Hlt|Hle]; [|done].
  exfalso.
  pose proof (rank_count_ge s' Hs' i) as H1.
  pose proof (rank_count_le s Hs i (nth i s' 0) Hi Hlt) as H2.
  rewrite <- (filter_length_perm _ s s' Hp) in H1.
  rewrite <- (Permutation_length Hp) in H1. specialize (H1 Hi). lia.
Qed.

Lemma sorted_rank (s s' : list Q) (i : nat) :
  Sorted Qle s -> Sorted Qle s' -> Permutation s s' ->
  nth i s 0 == nth i s' 0.
Proof.
  intros Hs Hs' Hp. pose proof (Permutation_length Hp) as Hl.
  destruct (Nat.lt_ge_cases i (length s)) as [Hi|Hi].
  - apply Qle_antisym.
    + by apply sorted_rank_le.
    + apply sorted_rank_le; [done | done | by symmetry | lia].
  - rewrite !nth_overflow by lia. reflexivity.
Qed.

(** [quantile] is the percentile of the specification. *)
Lemma quantile_percentile (q : Q) (series : list (option Q)) (sorted : list Q) :
  0 <= q <= 1 -> Sorted Qle sorted -> Permutation sorted (dropna series) ->
  quantile q series == percentile q sorted.
Proof.
  intros Hq Hs Hp. unfold quantile, percentile.
  set (s0 := sort_values (dropna series)).
  assert (Hp0 : Permutation s0 sorted)
    by (unfold s0; rewrite sort_values_perm; by symmetry).
  pose proof (sort_values_sorted (dropna series)) as Hs0. fold s0 in Hs0.
  rewrite (Permutation_length Hp0).
  pose proof (fun i => sorted_rank s0 sorted i Hs0 Hs Hp0) as Hrank.
  set (n := length sorted).
  set (h := q * inject_Z (Z.of_nat (n - 1))).
  set (g := h - inject_Z (Qfloor h)).
  rewrite !Hrank.
  destruct (Nat.eq_dec n 0%nat) as [Hn|Hn].
  - destruct sorted; [|done].
    rewrite !(nth_overflow []) by (simpl; lia). ring.
  - destruct Hq as [Hq0 Hq1].
    set (m := inject_Z (Z.of_nat (n - 1))) in *.
    assert (Hm : 0 <= m)
      by (unfold m; change 0 with (inject_Z 0); rewrite <- Zle_Qle; lia).
    assert (Hh0 : 0 <= h) by (by apply Qmult_le_0_compat).
    assert (Hhm : h <= m).
    { unfold h. rewrite <- (Qmult_1_l m) at 2. by apply Qmult_le_compat_r. }
    assert (Hf0 : (0 <= Qfloor h)%Z)
      by (change 0%Z with (Qfloor 0); by apply Qfloor_resp_le).
    pose proof (Qfloor_le h) as F1. pose proof (Qlt_floor h) as F2.
    pose proof (Qle_ceiling h) as C1. pose proof (Qceiling_lt h) as C2.
    destruct (Qlt_le_dec (inject_Z (Qfloor h)) h) as [Hlt|Hge].
    + assert (Hc : Qceiling h = (Qfloor h + 1)%Z).
      { assert (H1 : (Qfloor h < Qceiling h)%Z) by (rewrite Zlt_Qlt; lra).
        assert (H2 : (Qceiling h - 1 < Qfloor h + 1)%Z) by (rewrite Zlt_Qlt; lra).
        lia. }
      assert (Hlo : (Qfloor h < Z.of_nat (n - 1))%Z) by (rewrite Zlt_Qlt; fold m; lra).
      rewrite Hc.
      replace (Nat.min (Z.to_nat (Qfloor h) + 1) (n - 1))
        with (Z.to_nat (Qfloor h + 1)) by lia.
      ring.
    + assert (Hg : g == 0) by (unfold g; lra).
      rewrite Hg. ring.
Qed.

Lemma Qle_bool_comp (v a b : Q) : a == b -> Qle_bool v a = Qle_bool v b.
Proof.
  intros E. destruct (Qle_bool v b) eqn:Eb.
  - apply Qle_bool_iff. apply Qle_bool_iff in Eb. by rewrite E.
  - destruct (Qle_bool v a) eqn:Ea; [|done].
    apply Qle_bool_iff in Ea. rewrite E in Ea. apply Qle_bool_iff in Ea. congruence.
Qed.

Lemma segment_value_spec (grp : list (option Q)) (x : option Q) (sorted : list Q) :
  Sorted Qle sorted -> Permutation sorted (dropna grp) ->
  (forall v, x = Some v -> In v (dropna grp)) ->
  segment_value (1 # 4) (3 # 4) grp x = price_segment_spec x sorted.
Proof.
  intros Hs Hp Hx. unfold segment_value, price_segment_spec.
  destruct (forallb is_missing grp) eqn:E.
  - apply all_missing_dropna in E. rewrite E in Hp.
    apply Permutation_nil_r in Hp. subst sorted. by destruct x.
  - destruct x as [v|]; [|done]. simpl.
    destruct sorted as [|s0 ss].
    + apply Permutation_nil in Hp. specialize (Hx v eq_refl).
      rewrite Hp in Hx. destruct Hx.
    + rewrite (Qle_bool_comp v _ _ (quantile_percentile (1 # 4) grp _
                 ltac:(split; lra) Hs Hp)).
      by rewrite (Qle_bool_comp v _ _ (quantile_percentile (3 # 4) grp _
                    ltac:(split; lra) Hs Hp)).
Qed.

(** C2.  The price segment of every row is the one the specification
    describes, with the percentiles taken by linear interpolation on the
    prices of the row's group in ascending order, whatever the order of the
    rows; it is unknown exactly when the row has no price or its group has
    no price at all. *)
Theorem price_segment_by_category_correct keys price i k (sorted : list Q) :
  keys !! i = Some k ->
  let x := nth i price None in
  let grp := group_values keys price k in
  Sorted Qle sorted -> Permutation sorted (dropna grp) ->
  let s := price_segment_by_category keys price !! i in
  let p25 := percentile (1 # 4) sorted in
  let p75 := percentile (3 # 4) sorted in
  s = Some (price_segment_spec x sorted) /\
  (s = Some Unknown <-> x = None \/ dropna grp = []) /\
  (forall v, x = Some v ->
     (s = Some Low <-> v <= p25) /\
     (s = Some Mid <-> ~ v <= p25 /\ v <= p75) /\
     (s = Some High <-> ~ v <= p25 /\ ~ v <= p75)).
Proof.
  intros Hi x grp Hsorted Hperm s p25 p75.
  assert (Hin : forall v, x = Some v -> In v (dropna grp)).
  { intros v Hv. apply (present_in_group keys price i k v Hi).
    by apply nth_Some_lookup. }
  assert (Hs : s = Some (price_segment_spec x sorted)).
  { unfold s. rewrite (price_segment_row _ _ _ _ Hi). f_equal.
    by apply segment_value_spec. }
  split; [exact Hs|]. rewrite Hs. clear Hs. unfold price_segment_spec.
  fold p25 p75.
  assert (Hne : forall v, x = Some v -> sorted <> []).
  { intros v Hv ->. apply Permutation_nil in Hperm.
    specialize (Hin v Hv). rewrite Hperm in Hin. destruct Hin. }
  split.
  - destruct x as [v|]; [|by split; auto].
    specialize (Hne v eq_refl). destruct sorted as [|s0 ss]; [done|].
    split.
    + intros [= H]. by repeat destruct (Qle_bool _ _).
    + intros [?|E]; [done|]. rewrite E in Hperm.
      by apply Permutation_nil_r in Hperm.
  - intros v ->. specialize (Hne v eq_refl).
    destruct sorted as [|s0 ss]; [done|].
    destruct (Qle_bool v p25) eqn:E1;
      [apply Qle_bool_iff in E1|
       assert (~ v <= p25) by (rewrite <- Qle_bool_iff; congruence)];
    (destruct (Qle_bool v p75) eqn:E2;
      [apply Qle_bool_iff in E2|
       assert (~ v <= p75) by (rewrite <- Qle_bool_iff; congruence)]);
    repeat split; intros; try done; try tauto; try (exfalso; tauto).
Qed.

(** Five rows of one group, not in the order of their prices, one of them
    without a price: the prices in ascending order are 1, 2, 3, 4 and the
    percentiles are 1.75 and 3.25. *)
Lemma price_segment_by_category_correct_witness :
  let keys := repeat (Some (U "Toys")) 5 in
  let price := [Some 4; Some 1; None; Some 3; Some 2] in
  percentile (1 # 4) [1; 2; 3; 4] == 1.75 /\
  percentile (3 # 4) [1; 2; 3; 4] == 3.25 /\
  price_segment_by_category keys price = [High; Low; Unknown; Mid; Mid] /\
  price_segment_by_category keys price !! 3%nat =
  Some (price_segment_spec (Some 3) [1; 2; 3; 4]).
Proof.
  intros keys price. split; [reflexivity|]. split; [reflexivity|].
  split; [reflexivity|].
  refine (proj1 (price_segment_by_category_correct keys price 3
                   (Some (U "Toys")) [1; 2; 3; 4] eq_refl _ _)).
  - repeat constructor; discriminate.
  - vm_compute.
    apply (perm_trans (l' := [1; 4; 3; 2])).
    + constructor. apply (perm_trans (l' := [2; 4; 3])).
      * constructor. apply perm_swap.
      * apply (perm_trans (l' := [4; 2; 3])); [apply perm_swap|].
        constructor. apply perm_swap.
    + apply perm_swap.
Defined.
(** ** Rank delta (movers and shakers) *)

Lemma Qltb_lt (a b : Q) : Qltb a b = true <-> a < b.
Proof.
  unfold Qltb. rewrite negb_true_iff. split.
  - intros H. apply Qnot_le_lt. intros Hle. apply Qle_bool_iff in Hle. congruence.
  - intros H. destruct (Qle_bool b a) eqn:E; [|done].
    apply Qle_bool_iff in E. exfalso. by apply (Qlt_not_le a b).
Qed.

Lemma direction_cases (x : Q) :
  (direction (Some x) = Some (U "up") <-> 0 < x) /\
  (direction (Some x) = Some (U "down") <-> x < 0) /\
  (direction (Some x) = Some (U "no_change") <-> x == 0).
Proof.
  unfold direction.
  destruct (Qltb 0 x) eqn:E1; [apply Qltb_lt in E1|];
    [|destruct (Qltb x 0) eqn:E2; [apply Qltb_lt in E2|]].
  - repeat split; try done.
    + intros H. exfalso. apply (Qlt_irrefl 0). by eapply Qlt_trans.
    + intros H. rewrite H in E1. by apply Qlt_irrefl in E1.
  - repeat split; try done.
    + intros H. apply Qltb_lt in H. congruence.
    + intros H. rewrite H in E2. by apply Qlt_irrefl in E2.
  - assert (H1 : ~ 0 < x) by (rewrite <- Qltb_lt; congruence).
    assert (H2 : ~ x < 0) by (rewrite <- Qltb_lt; congruence).
    repeat split; try done.
    intros _. apply Qle_antisym; by apply Qnot_lt_le.
Qed.

(** C4.  On every row of movers and shakers: the rank change is
    [sales_rank_was - sales_rank_now] when both are present and missing
    otherwise; its absolute value is taken with missing carried over; the
    direction is up exactly when the change is positive, down exactly when
    it is negative, no_change exactly when it is zero, and missing exactly
    when the change is missing. *)
Theorem rank_delta_correct (was now : list (option Q)) (i : nat) (w n : option Q) :
  was !! i = Some w -> now !! i = Some n ->
  let change := zip_with sales_rank_change was now in
  exists c,
    change !! i = Some c /\
    List.map sales_rank_change_abs change !! i = Some (sales_rank_change_abs c) /\
    List.map direction change !! i = Some (direction c) /\
    (forall a b, w = Some a -> n = Some b -> c = Some (a - b)) /\
    (w = None \/ n = None -> c = None) /\
    (forall x, c = Some x -> sales_rank_change_abs c = Some (Qabs x)) /\
    (c = None -> sales_rank_change_abs c = None) /\
    (direction c = Some (U "up") <-> exists x, c = Some x /\ 0 < x) /\
    (direction c = Some (U "down") <-> exists x, c = Some x /\ x < 0) /\
    (direction c = Some (U "no_change") <-> exists x, c = Some x /\ x == 0) /\
    (direction c = None <-> c = None).
Proof.
  intros Hw Hn change. exists (sales_rank_change w n).
  assert (Hc : change !! i = Some (sales_rank_change w n)).
  { unfold change. rewrite lookup_zip_with, Hw. simpl. by rewrite Hn. }
  split; [exact Hc|].
  split; [by rewrite (list_lookup_fmap sales_rank_change_abs), Hc|].
  split; [by rewrite (list_lookup_fmap direction), Hc|].
  split; [by intros a b -> ->|].
  split; [intros [->| ->]; [done | by destruct w]|].
  split; [by intros x ->|]. split; [by intros ->|].
  destruct (sales_rank_change w n) as [x|].
  - destruct (direction_cases x) as (Hu & Hd & Hz).
    repeat split.
    + intros H. exists x. split; [done | by apply Hu].
    + intros (y & [= <-] & Hy). by apply Hu.
    + intros H. exists x. split; [done | by apply Hd].
    + intros (y & [= <-] & Hy). by apply Hd.
    + intros H. exists x. split; [done | by apply Hz].
    + intros (y & [= <-] & Hy). by apply Hz.
    + unfold direction. by repeat destruct (Qltb _ _).
    + done.
  - repeat split; try done; by intros (y & ? & _).
Qed.

(** A row whose rank went from 22 to 10: the change is 12, up. *)
Lemma rank_delta_correct_witness :
  exists c,
    zip_with sales_rank_change [Some 22; None] [Some 10; Some 3] !! 0%nat = Some c /\
    c = Some (22 - 10) /\ direction c = Some (U "up").
Proof.
  destruct (rank_delta_correct [Some 22; None] [Some 10; Some 3] 0
              (Some 22) (Some 10) eq_refl eq_refl)
    as (c & Hc & _ & _ & Hv & _).
  exists c. split; [exact Hc|].
  pose proof (Hv 22 10 eq_refl eq_refl) as E. split; [exact E|].
  rewrite E. reflexivity.
Defined.
(** ** Identifier extractor *)

Lemma starts_with_spec (p s : pystr) :
  starts_with p s = true <-> exists r, s = p ++ r.
Proof.
  revert s. induction p as [|a p IH]; intros s; simpl.
  - split; eauto.
  - destruct s as [|b s]; [split; [done | by intros [r ?]]|].
    rewrite andb_true_iff, N.eqb_eq, IH. split.
    + intros [-> [r ->]]. eauto.
    + intros [r [= -> ->]]. eauto.
Qed.

Lemma match_id_at_spec (marker s id : pystr) :
  match_id_at marker s = Some id <->
  valid_asin id /\ exists post, s = marker ++ id ++ post.
Proof.
  unfold match_id_at, valid_asin. split.
  - destruct (starts_with marker s) eqn:E; [|done].
    apply starts_with_spec in E as [r ->].
    rewrite drop_app_length.
    destruct (_ && _) eqn:E2; [|done]. intros [= <-].
    apply andb_true_iff in E2 as [E2 E3]. apply Nat.eqb_eq in E2.
    repeat split; [done..|].
    exists (drop 10 r). by rewrite take_drop.
  - intros [[Hl Hc] [post ->]].
    rewrite (proj2 (starts_with_spec _ _)) by eauto.
    rewrite drop_app_length.
    rewrite take_app_length' by done.
    by rewrite Hl, Hc.
Qed.

Lemma all_ids_spec (marker s id : pystr) :
  In id (all_ids marker s) <-> valid_asin id /\ embeds marker s id.
Proof.
  split.
  - induction s as [|c s IH]; simpl; rewrite in_app_iff.
    + intros [H|[]]. destruct (match_id_at marker []) eqn:E; [|done].
      destruct H as [<-|[]]. apply match_id_at_spec in E as [Hv [post E]].
      split; [done|]. by exists [], post.
    + intros [H|H].
      * destruct (match_id_at marker (c :: s)) eqn:E; [|done].
        destruct H as [<-|[]]. apply match_id_at_spec in E as [Hv [post E]].
        split; [done|]. by exists [], post.
      * destruct (IH H) as [Hv (pre & post & ->)].
        split; [done|]. by exists (c :: pre), post.
  - intros [Hv (pre & post & ->)].
    induction pre as [|c pre IH]; simpl.
    + assert (E : match_id_at marker (marker ++ id ++ post) = Some id)
        by (apply match_id_at_spec; eauto).
      destruct (marker ++ id ++ post); simpl; rewrite E; by left.
    + apply in_app_iff. by right.
Qed.

Lemma search_id_head (marker s : pystr) :
  search_id marker s = head (all_ids marker s).
Proof.
  induction s as [|c s IH]; simpl.
  - by destruct (match_id_at marker []).
  - destruct (match_id_at marker (c :: s)); [done|]. exact IH.
Qed.

Lemma search_id_found (marker s id : pystr) :
  valid_asin id -> embeds marker s id ->
  (forall id', valid_asin id' -> embeds marker s id' -> id' = id) ->
  search_id marker s = Some id.
Proof.
  intros Hv He Hu. rewrite search_id_head.
  assert (Hin : In id (all_ids marker s)) by (by apply all_ids_spec).
  destruct (all_ids marker s) as [|id' l] eqn:E; [done|]. simpl. f_equal.
  apply Hu; apply (all_ids_spec marker s id'); rewrite E; by left.
Qed.

Lemma search_id_none (marker s : pystr) :
  (forall id, valid_asin id -> ~ embeds marker s id) ->
  search_id marker s = None.
Proof.
  intros Hn. rewrite search_id_head.
  destruct (all_ids marker s) as [|id' l] eqn:E; [done|].
  destruct (Hn id'); apply (all_ids_spec marker s id'); rewrite E; by left.
Qed.

Lemma search_id_sound (marker s id : pystr) :
  search_id marker s = Some id -> valid_asin id /\ embeds marker s id.
Proof.
  rewrite search_id_head. intros H. apply all_ids_spec.
  destruct (all_ids marker s); [done|]. injection H as ->. by left.
Qed.

Lemma extract_asin_same (link : cell) :
  extract_asin_ms link = extract_asin_bs link.
Proof.
  by destruct link.
Qed.

(** C5.  A link that embeds a valid identifier after [/dp/] yields a valid
    identifier that it embeds after [/dp/] (the leftmost), hence that very
    identifier when it is the one the link embeds; a link without any such
    segment that embeds one valid identifier after [/gp/product/] yields
    that one; whatever the extractor returns is ten characters long,
    capitals and digits only, and is embedded in the link after one of the
    two markers.  The two scripts agree. *)
Theorem extract_asin_correct :
  (forall link id,
     valid_asin id -> embeds pat_dp link id ->
     exists id',
       extract_asin_bs (Str link) = Some id' /\
       extract_asin_ms (Str link) = Some id' /\
       valid_asin id' /\ embeds pat_dp link id') /\
  (forall link id,
     valid_asin id -> embeds pat_dp link id ->
     (forall id', valid_asin id' -> embeds pat_dp link id' -> id' = id) ->
     extract_asin_bs (Str link) = Some id /\ extract_asin_ms (Str link) = Some id) /\
  (forall link id,
     valid_asin id -> embeds pat_gp link id ->
     (forall id', valid_asin id' -> ~ embeds pat_dp link id') ->
     (forall id', valid_asin id' -> embeds pat_gp link id' -> id' = id) ->
     extract_asin_bs (Str link) = Some id /\ extract_asin_ms (Str link) = Some id) /\
  (forall link r,
     extract_asin_bs link = Some r \/ extract_asin_ms link = Some r ->
     length r = 10%nat /\ Forall (fun c => is_upper c = true \/ is_digit c = true) r /\
     exists s, link = Str s /\ (embeds pat_dp s r \/ embeds pat_gp s r)).
Proof.
  repeat apply conj.
  - intros link id Hv He. simpl.
    destruct (search_id pat_dp link) as [id'|] eqn:E.
    + exists id'. apply search_id_sound in E. tauto.
    + rewrite search_id_head in E.
      assert (Hin : In id (all_ids pat_dp link)) by (by apply all_ids_spec).
      by destruct (all_ids pat_dp link).
  - intros link id Hv He Hu. split; simpl;
      by rewrite (search_id_found _ _ _ Hv He Hu).
  - intros link id Hv He Hn Hu. split; simpl;
      by rewrite (search_id_none _ _ Hn), (search_id_found _ _ _ Hv He Hu).
  - intros link r H.
    assert (H' : extract_asin_bs link = Some r)
      by (destruct H as [H|H]; [done | by rewrite <- extract_asin_same]).
    clear H. destruct link as [s| | | |]; try done. simpl in H'.
    assert (Hs : (valid_asin r /\ embeds pat_dp s r) \/
                 (valid_asin r /\ embeds pat_gp s r)).
    { destruct (search_id pat_dp s) eqn:E1.
      - injection H' as ->. left. by apply search_id_sound.
      - destruct (search_id pat_gp s) eqn:E2; [|done].
        injection H' as ->. right. by apply search_id_sound. }
    assert (Hv : valid_asin r) by tauto. destruct Hv as [Hl Hc].
    split; [done|]. split.
    + apply Forall_forall. intros c Hc'.
      rewrite forallb_forall in Hc. apply list_elem_of_In in Hc'.
      specialize (Hc c Hc'). unfold is_asin_char in Hc.
      by apply orb_true_iff in Hc.
    + exists s. split; [done | tauto].
Qed.

(** The link of the round-trip scenario, and a link of the second form. *)
Lemma extract_asin_correct_witness :
  extract_asin_bs (Str (U "https://www.amazon.com/Widget/dp/B000000001/ref=zg_bs"))
  = Some (U "B000000001") /\
  extract_asin_ms (Str (U "https://www.amazon.com/gp/product/B00ABCDE12?th=1"))
  = Some (U "B00ABCDE12").
Proof.
  split.
  - refine (proj1 (proj1 (proj2 extract_asin_correct) _ (U "B000000001") _ _ _)).
    + split; reflexivity.
    + by exists (U "https://www.amazon.com/Widget"), (U "/ref=zg_bs").
    + intros id' Hv He.
      assert (H : In id' (all_ids pat_dp
                (U "https://www.amazon.com/Widget/dp/B000000001/ref=zg_bs")))
        by (by apply all_ids_spec).
      vm_compute in H. destruct H as [<-|[]]. reflexivity.
  - refine (proj2 (proj1 (proj2 (proj2 extract_asin_correct))
                     _ (U "B00ABCDE12") _ _ _ _)).
    + split; reflexivity.
    + by exists (U "https://www.amazon.com"), (U "?th=1").
    + intros id' Hv He.
      assert (H : In id' (all_ids pat_dp
                (U "https://www.amazon.com/gp/product/B00ABCDE12?th=1")))
        by (by apply all_ids_spec).
      vm_compute in H. destruct H.
    + intros id' Hv He.
      assert (H : In id' (all_ids pat_gp
                (U "https://www.amazon.com/gp/product/B00ABCDE12?th=1")))
        by (by apply all_ids_spec).
      vm_compute in H. destruct H as [<-|[]]. reflexivity.
Defined.
(** ** Stripping whitespace *)

Lemma lstrip_spec (s : pystr) :
  exists ws, s = ws ++ lstrip s /\ forallb is_space ws = true.
Proof.
  induction s as [|c s (ws & E & Hw)]; simpl; [by exists []|].
  destruct (is_space c) eqn:Ec.
  - exists (c :: ws). simpl. rewrite Ec, Hw. split; [congruence | done].
  - by exists [].
Qed.

Lemma strip_spec (s : pystr) :
  exists ws1 ws2,
    s = ws1 ++ strip s ++ ws2 /\
    forallb is_space ws1 = true /\ forallb is_space ws2 = true.
Proof.
  unfold strip, rstrip.
  destruct (lstrip_spec s) as (ws1 & E1 & H1).
  destruct (lstrip_spec (rev (lstrip s))) as (ws2 & E2 & H2).
  exists ws1, (rev ws2). split; [|split; [done|]].
  - rewrite <- rev_app_distr, <- E2, rev_involutive. exact E1.
  - rewrite forallb_forall in *. intros x Hx. apply H2. by apply in_rev.
Qed.

Lemma strip_keeps (s : pystr) (x : char) :
  In x s -> is_space x = false -> In x (strip s).
Proof.
  intros Hx Hs. destruct (strip_spec s) as (ws1 & ws2 & E & H1 & H2).
  rewrite E in Hx. rewrite forallb_forall in H1, H2.
  apply in_app_or in Hx as [Hx|Hx]; [apply H1 in Hx; congruence|].
  apply in_app_or in Hx as [Hx|Hx]; [done | apply H2 in Hx; congruence].
Qed.

Lemma strip_subset (s : pystr) (x : char) : In x (strip s) -> In x s.
Proof.
  intros Hx. destruct (strip_spec s) as (ws1 & ws2 & E & _).
  rewrite E. apply in_or_app. right. apply in_or_app. by left.
Qed.

Lemma lstrip_fixed (s : pystr) :
  (forall c, head s = Some c -> is_space c = false) -> lstrip s = s.
Proof.
  destruct s as [|c s]; [done|]. intros H. simpl. by rewrite (H c).
Qed.

(** A string without whitespace is left as it is. *)
Lemma strip_fixed (s : pystr) :
  forallb (fun c => negb (is_space c)) s = true -> strip s = s.
Proof.
  intros H. rewrite forallb_forall in H. unfold strip, rstrip.
  rewrite (lstrip_fixed s).
  - rewrite lstrip_fixed; [apply rev_involutive|].
    intros c Hc. apply negb_true_iff, H, in_rev.
    destruct (rev s); [done|]. injection Hc as ->. by left.
  - intros c Hc. apply negb_true_iff, H.
    destruct s; [done|]. injection Hc as ->. by left.
Qed.

Lemma strip_blank (s : pystr) :
  strip s = [] <-> forallb is_space s = true.
Proof.
  split.
  - intros E. destruct (strip_spec s) as (ws1 & ws2 & Es & H1 & H2).
    rewrite Es, E. simpl. by rewrite forallb_app, H1, H2.
  - intros H. destruct (strip s) as [|c t] eqn:E; [done|].
    rewrite forallb_forall in H.
    assert (Hc : In c (strip s)) by (rewrite E; by left).
    pose proof (H c (strip_subset _ _ Hc)) as Hsp.
    exfalso. unfold strip, rstrip in E.
    assert (Hl : lstrip s = []).
    { clear -H. induction s as [|a s IH]; [done|]. simpl.
      rewrite (H a) by (by left). apply IH. intros x Hx. apply H. by right. }
    by rewrite Hl in E.
Qed.

Lemma digit_not_space (c : char) : is_digit c = true -> is_space c = false.
Proof.
  unfold is_digit, is_space, in_range. intros H.
  apply andb_true_iff in H as [H1 H2]. apply N.leb_le in H1, H2.
  rewrite !orb_false_iff, !andb_false_iff, !N.eqb_neq, !N.leb_gt. lia.
Qed.

(** ** Integer parser *)

Lemma int_digits_of_digits (d : pystr) (acc : Z) (b : bool) :
  forallb is_digit d = true -> (d <> [] \/ b = true) ->
  int_digits acc b d =
  Some (fold_left (fun a c => (a * 10 + digit_val c)%Z) d acc).
Proof.
  revert acc b. induction d as [|c d IH]; intros acc b Hd Hne; simpl.
  - destruct Hne as [? | ->]; done.
  - simpl in Hd. apply andb_true_iff in Hd as [Hc Hd]. rewrite Hc.
    apply IH; auto.
Qed.

Lemma int_digits_rejects (l : pystr) (x : char) (acc : Z) (b : bool) :
  In x l -> is_digit x = false -> x <> 95%N -> int_digits acc b l = None.
Proof.
  intros Hx Hd Hu. revert acc b.
  induction l as [|c l IH]; intros acc b; [done|]. simpl.
  destruct Hx as [->|Hx].
  - rewrite Hd. by rewrite (proj2 (N.eqb_neq _ _) Hu).
  - destruct (is_digit c); [by apply IH|].
    destruct (_ && _); [by apply IH | done].
Qed.

Lemma py_int_of_digits (d : pystr) :
  d <> [] -> forallb is_digit d = true -> py_int d = Some (dec_value d).
Proof.
  intros Hne Hd. unfold py_int.
  rewrite strip_fixed.
  - destruct d as [|c t]; [done|].
    assert (Hc : is_digit c = true) by (simpl in Hd; apply andb_true_iff in Hd; tauto).
    assert ((c =? 45) = false /\ (c =? 43) = false) as [E1 E2].
    { unfold is_digit, in_range in Hc. apply andb_true_iff in Hc as [H1 _].
      apply N.leb_le in H1. split; apply N.eqb_neq; lia. }
    rewrite E1, E2.
    by apply int_digits_of_digits; auto.
  - rewrite forallb_forall in *. intros c Hc.
    by rewrite (digit_not_space c (Hd c Hc)).
Qed.

Lemma py_int_rejects (s : pystr) (x : char) :
  In x s -> is_space x = false -> is_digit x = false ->
  x <> 95%N -> x <> 45%N -> x <> 43%N -> py_int s = None.
Proof.
  intros Hx Hs Hd Hu Hm Hp. unfold py_int.
  pose proof (strip_keeps s x Hx Hs) as Hin.
  destruct (strip s) as [|c t]; [done|].
  destruct (c =? 45) eqn:E1; [apply N.eqb_eq in E1|].
  { destruct Hin as [->|Hin]; [done|].
    by rewrite (int_digits_rejects t x _ _ Hin Hd Hu). }
  destruct (c =? 43) eqn:E2; [apply N.eqb_eq in E2|].
  { destruct Hin as [->|Hin]; [done|].
    by rewrite (int_digits_rejects t x _ _ Hin Hd Hu). }
  by apply (int_digits_rejects (c :: t) x).
Qed.

Lemma filter_digits_forall (s : pystr) :
  forallb is_digit (List.filter is_digit s) = true.
Proof.
  apply forallb_forall. intros c Hc. by apply filter_In in Hc as [_ ?].
Qed.

Lemma str_eqb_nil (s : pystr) : str_eqb s [] = true <-> s = [].
Proof. unfold str_eqb. apply bool_decide_eq_true. Qed.

Lemma parse_int_ms_spec (s : pystr) : parse_int_ms (Str s) = parse_int_spec s.
Proof.
  unfold parse_int_ms, parse_int_spec.
  destruct (str_eqb (strip s) []) eqn:E.
  - apply str_eqb_nil, strip_blank in E.
    assert (Hf : List.filter is_digit s = []).
    { rewrite forallb_forall in E.
      induction s as [|c s IH]; [done|]. simpl.
      destruct (is_digit c) eqn:Ec.
      - apply digit_not_space in Ec. rewrite (E c) in Ec by (by left). done.
      - apply IH. intros x Hx. apply E. by right. }
    by rewrite Hf.
  - destruct (List.filter is_digit s) as [|c d] eqn:Ef; [done|].
    rewrite <- Ef. apply py_int_of_digits; [by rewrite Ef|].
    apply filter_digits_forall.
Qed.
Lemma fold_digits_nonneg (d : pystr) (acc : Z) :
  (0 <= acc)%Z ->
  (0 <= fold_left (fun a c => a * 10 + digit_val c) d acc)%Z.
Proof.
  revert acc. induction d as [|c d IH]; intros acc Ha; simpl; [done|].
  apply IH. unfold digit_val. lia.
Qed.

Lemma dec_value_nonneg (d : pystr) : (0 <= dec_value d)%Z.
Proof. by apply fold_digits_nonneg. Qed.

Lemma remove_commas_keeps (s : pystr) (x : char) :
  In x s -> x <> 44%N -> In x (remove_commas s).
Proof.
  intros Hx Hc. apply filter_In. split; [done|].
  by apply negb_true_iff, N.eqb_neq.
Qed.

(** C8 as stated fails in the best-sellers script, whose integer parser
    removes the commas and the surrounding whitespace only: a count followed
    by a word is missing, not 12, and a sign is kept. *)
Lemma parse_int_counterexample :
  parse_int_spec (U "12 reviews") = Some 12%Z /\
  parse_int_bs (U "12 reviews") = None /\
  parse_int_spec (U "-5") = Some 5%Z /\
  parse_int_bs (U "-5") = Some (-5)%Z.
Proof. repeat split; reflexivity. Qed.

(** C8, amended.  Movers and shakers: every character that is not a digit
    is stripped and the rest is parsed, missing when no digit is left (so
    the result is never negative); an input that is not a string is
    missing.  Best sellers: the commas and the surrounding whitespace are
    removed; when what is left is a run of digits, it parses to that number;
    the empty string, and any input that holds an ASCII character other
    than a digit, a comma, whitespace, a sign or an underscore, is
    missing. *)
Theorem parse_int_by_design :
  (forall s, parse_int_ms (Str s) = parse_int_spec s) /\
  (forall s z, parse_int_ms (Str s) = Some z -> (0 <= z)%Z) /\
  (forall v, (forall s, v <> Str s) -> parse_int_ms v = None) /\
  (forall s,
     let r := strip (remove_commas s) in
     r <> [] -> forallb is_digit r = true ->
     parse_int_bs s = Some (dec_value r)) /\
  parse_int_bs [] = None /\
  (forall s x,
     In x s -> (x < 128)%N -> is_digit x = false -> is_space x = false ->
     x <> 44%N -> x <> 95%N -> x <> 45%N -> x <> 43%N ->
     parse_int_bs s = None).
Proof.
  repeat apply conj.
  - apply parse_int_ms_spec.
  - intros s z. rewrite parse_int_ms_spec. unfold parse_int_spec.
    destruct (List.filter is_digit s); [done|]. intros [= <-].
    apply dec_value_nonneg.
  - intros v Hv. destruct v; try done. by destruct (Hv s).
  - intros s r Hne Hd. unfold parse_int_bs.
    destruct (str_eqb s []) eqn:E.
    + apply str_eqb_nil in E. subst s. by destruct Hne.
    + by apply py_int_of_digits.
  - reflexivity.
  - intros s x Hx _ Hd Hs Hc Hu Hm Hp. unfold parse_int_bs.
    destruct (str_eqb s []); [done|].
    apply (py_int_rejects _ x); try done.
    apply strip_keeps; [|done]. by apply remove_commas_keeps.
Qed.

(** A review count as the listing shows it. *)
Lemma parse_int_by_design_witness :
  parse_int_bs (U " 1,234 ") = Some 1234%Z /\
  parse_int_bs (U "1,234 ratings") = None /\
  parse_int_ms (Str (U "1,234 ratings")) = Some 1234%Z.
Proof.
  destruct parse_int_by_design as (Hms & _ & _ & Hbs & _ & Hrej).
  split; [|split].
  - exact (Hbs (U " 1,234 ") ltac:(discriminate) eq_refl).
  - apply (Hrej (U "1,234 ratings") 114%N); try reflexivity; try discriminate.
    vm_compute. tauto.
  - exact (Hms (U "1,234 ratings")).
Defined.
(** ** Category decomposer *)

(** Boolean tests on code points as arithmetic facts. *)
Ltac bool_to_prop :=
  repeat match goal with
  | H : _ && _ = true |- _ => apply andb_true_iff in H; destruct H
  | H : _ || _ = true |- _ => apply orb_true_iff in H; destruct H
  | H : _ && _ = false |- _ => apply andb_false_iff in H; destruct H
  | H : _ || _ = false |- _ => apply orb_false_iff in H; destruct H
  | H : negb _ = true |- _ => apply negb_true_iff in H
  | H : negb _ = false |- _ => apply negb_false_iff in H
  | H : (_ <=? _) = true |- _ => apply N.leb_le in H
  | H : (_ <=? _) = false |- _ => apply N.leb_gt in H
  | H : (_ =? _) = true |- _ => apply N.eqb_eq in H
  | H : (_ =? _) = false |- _ => apply N.eqb_neq in H
  end.

Ltac split_ifs :=
  repeat match goal with
  | |- context [if ?b then _ else _] => destruct b eqn:?
  end.

Lemma lower_char_space (c : char) : is_space c = true -> lower_char c = c.
Proof.
  intros H. unfold lower_char, is_upper, is_space, in_range in *.
  split_ifs; bool_to_prop; lia.
Qed.

Lemma space_not_i (c : char) : is_space c = true -> (ifold c =? 105) = false.
Proof.
  intros H. apply N.eqb_neq. unfold ifold. rewrite (lower_char_space c H).
  unfold is_space, in_range in H.
  split_ifs; bool_to_prop; lia.
Qed.

Lemma search_in_blank (s : pystr) :
  forallb is_space s = true -> search_in s = None.
Proof.
  induction s as [|c s IH]; [done|]. simpl. intros H.
  apply andb_true_iff in H as [Hc Hs].
  rewrite (space_not_i c Hc). simpl.
  destruct s as [|b [|w t]]; by apply IH.
Qed.

(** C7 as stated fails in the best-sellers script, which tests the type of
    the input only: on a blank string [category_full] is the empty string,
    not missing. *)
Lemma parse_category_levels_counterexample :
  forallb is_space (U "  ") = true /\
  category_full (parse_category_levels_bs (Str (U "  "))) = Some [] /\
  category_full (parse_category_levels_bs (Str [])) = Some [].
Proof. repeat split; reflexivity. Qed.

(** C7, amended.  An input that is not a string yields the three fields
    missing in both scripts; a blank string (empty or whitespace only)
    yields the three fields missing in movers and shakers, and in best
    sellers the two levels missing with [category_full] the empty string. *)
Theorem parse_category_levels_by_design :
  (forall v, (forall s, v <> Str s) ->
     parse_category_levels_bs v = no_levels /\
     parse_category_levels_ms v = no_levels) /\
  (forall s, forallb is_space s = true ->
     parse_category_levels_ms (Str s) = no_levels /\
     parse_category_levels_bs (Str s) =
       {| category_full := Some []; cat_level_1 := None; cat_level_2 := None |}).
Proof.
  split.
  - intros v Hv. destruct v; try done. by destruct (Hv s).
  - intros s Hs. pose proof (proj2 (strip_blank s) Hs) as E. split.
    + unfold parse_category_levels_ms. by rewrite E.
    + unfold parse_category_levels_bs.
      by rewrite (search_in_blank s Hs), E.
Qed.

(** A missing value, and a cell of two spaces. *)
Lemma parse_category_levels_by_design_witness :
  parse_category_levels_bs NaN = no_levels /\
  parse_category_levels_ms (Str (U "  ")) = no_levels.
Proof.
  split.
  - exact (proj1 (proj1 parse_category_levels_by_design NaN ltac:(discriminate))).
  - exact (proj1 (proj2 parse_category_levels_by_design (U "  ") eq_refl)).
Defined.
(** ** Price parser *)

Lemma price_char_not_space (c : char) :
  is_price_char c = true -> is_space c = false.
Proof.
  intros H. unfold is_price_char, is_digit, is_space, in_range in *.
  bool_to_prop;
    rewrite !orb_false_iff, !andb_false_iff, !N.eqb_neq, !N.leb_gt; lia.
Qed.

Lemma keep_price_chars_app (a b : pystr) :
  keep_price_chars (a ++ b) = keep_price_chars a ++ keep_price_chars b.
Proof. apply List.filter_app. Qed.

Lemma keep_price_chars_blank (ws : pystr) :
  forallb is_space ws = true -> keep_price_chars ws = [].
Proof.
  intros H. rewrite forallb_forall in H.
  induction ws as [|c ws IH]; [done|]. unfold keep_price_chars. simpl.
  destruct (is_price_char c) eqn:E.
  - apply price_char_not_space in E. rewrite (H c) in E by (by left). done.
  - apply IH. intros x Hx. apply H. by right.
Qed.

Lemma space_not_paren (c : char) :
  is_space c = true -> (c =? 40) = false /\ (c =? 41) = false.
Proof.
  intros H. unfold is_space, in_range in H.
  split; apply N.eqb_neq; bool_to_prop; lia.
Qed.

(** Whitespace after the text is copied: it closes no parenthesis. *)
Lemma strip_parens_from_blank (ws : pystr) (p : option pystr) :
  forallb is_space ws = true ->
  strip_parens_from p ws = default [] p ++ ws.
Proof.
  revert p. induction ws as [|c ws IH]; intros p H; simpl.
  - by rewrite app_nil_r.
  - apply andb_true_iff in H as [Hc Hw].
    destruct (space_not_paren c Hc) as [E1 E2].
    destruct p as [p|]; simpl.
    + rewrite E2. destruct (c =? 10).
      * by rewrite IH.
      * rewrite IH by done. simpl. by rewrite <- app_assoc.
    + rewrite E1. by rewrite IH.
Qed.

Lemma strip_parens_from_app_blank (m ws : pystr) (p : option pystr) :
  forallb is_space ws = true ->
  strip_parens_from p (m ++ ws) = strip_parens_from p m ++ ws.
Proof.
  intros H. revert p. induction m as [|c m IH]; intros p; simpl.
  - by apply strip_parens_from_blank.
  - destruct p as [p|].
    + destruct (c =? 41); [apply IH|].
      destruct (c =? 10); [|apply IH].
      rewrite IH. by rewrite <- app_assoc.
    + destruct (c =? 40); [apply IH|]. by rewrite IH.
Qed.

Lemma strip_parens_blank_app (ws m : pystr) :
  forallb is_space ws = true ->
  strip_parens (ws ++ m) = ws ++ strip_parens m.
Proof.
  intros H. unfold strip_parens.
  induction ws as [|c ws IH]; [done|]. simpl.
  apply andb_true_iff in H as [Hc Hw].
  destruct (space_not_paren c Hc) as [E1 _]. rewrite E1. by rewrite IH.
Qed.

(** The cleaned text does not depend on the whitespace around the input. *)
Lemma keep_strip_parens_strip (s : pystr) :
  keep_price_chars (strip_parens (strip s)) = keep_price_chars (strip_parens s).
Proof.
  destruct (strip_spec s) as (ws1 & ws2 & E & H1 & H2).
  rewrite E at 2. rewrite strip_parens_blank_app by done.
  unfold strip_parens at 2. rewrite strip_parens_from_app_blank by done.
  rewrite !keep_price_chars_app.
  rewrite (keep_price_chars_blank ws1), (keep_price_chars_blank ws2) by done.
  by rewrite app_nil_r.
Qed.

Lemma lower_char_fixes (c : char) :
  (c < 65)%N -> lower_char c = c.
Proof.
  intros H. unfold lower_char, is_upper, in_range.
  split_ifs; bool_to_prop; lia.
Qed.

Lemma lower_char_cases (c : char) :
  lower_char c = c \/ (65 <= lower_char c /\ 65 <= c)%N.
Proof.
  unfold lower_char, is_upper, in_range. split_ifs; bool_to_prop; lia.
Qed.

Lemma lower_char_low (c k : char) :
  (k < 65)%N -> (lower_char c =? k) = (c =? k).
Proof.
  intros H. destruct (lower_char_cases c) as [->|[H1 H2]]; [done|].
  rewrite (proj2 (N.eqb_neq _ _)) by lia.
  by rewrite (proj2 (N.eqb_neq _ _)) by lia.
Qed.

Lemma price_char_low (c : char) : is_price_char c = true -> (c < 65)%N.
Proof.
  intros H. unfold is_price_char, is_digit, in_range in H. bool_to_prop; lia.
Qed.

Lemma lower_char_price (c : char) :
  is_price_char (lower_char c) = is_price_char c.
Proof.
  unfold is_price_char, is_digit, in_range.
  destruct (lower_char_cases c) as [->|[H1 H2]]; [done|].
  repeat match goal with
  | |- context [?a <=? ?b] => destruct (N.leb_spec a b)
  | |- context [?a =? ?b] => destruct (N.eqb_spec a b)
  end; simpl; try done; lia.
Qed.

Lemma strip_parens_from_lower (s : pystr) (p : option pystr) :
  strip_parens_from (lower <$> p) (lower s) = lower (strip_parens_from p s).
Proof.
  revert p. induction s as [|c s IH]; intros p; simpl.
  - by destruct p.
  - rewrite !lower_char_low by lia. destruct p as [p|]; simpl.
    + destruct (c =? 41); [apply (IH None)|].
      destruct (c =? 10).
      * unfold lower. rewrite List.map_app. simpl. f_equal. f_equal.
        apply (IH None).
      * rewrite <- (IH (Some (p ++ [c]))). simpl. unfold lower.
        by rewrite List.map_app.
    + destruct (c =? 40); [apply (IH (Some [c]))|].
      unfold lower at 2. simpl. f_equal. apply (IH None).
Qed.

Lemma keep_price_chars_lower (s : pystr) :
  keep_price_chars (lower s) = keep_price_chars s.
Proof.
  induction s as [|c s IH]; [done|]. unfold keep_price_chars in *. simpl.
  rewrite lower_char_price. destruct (is_price_char c) eqn:E.
  - rewrite lower_char_fixes by (by apply price_char_low). by rewrite IH.
  - exact IH.
Qed.

Lemma ifold_price_char (b : char) : is_price_char b = true -> ifold b = b.
Proof.
  intros H. apply price_char_low in H. unfold ifold.
  rewrite lower_char_fixes by done.
  split_ifs; bool_to_prop; lia.
Qed.

Lemma noise_words_no_price (w : pystr) (a : char) :
  In w noise_words -> In a w -> is_price_char (ifold a) = false.
Proof.
  intros Hw Ha.
  assert (H : forallb (forallb (fun a => negb (is_price_char (ifold a))))
                noise_words = true) by reflexivity.
  rewrite forallb_forall in H. specialize (H w Hw).
  rewrite forallb_forall in H. by apply negb_true_iff, H.
Qed.

Lemma istarts_with_no_price (w s : pystr) :
  (forall a, In a w -> is_price_char (ifold a) = false) ->
  istarts_with w s = true ->
  forallb (fun c => negb (is_price_char c)) (take (length w) s) = true.
Proof.
  revert s. induction w as [|a w IH]; intros s Hw H; [done|].
  destruct s as [|b s]; [done|]. simpl in *.
  apply andb_true_iff in H as [Hab Hs]. apply N.eqb_eq in Hab.
  rewrite IH; [|intros; apply Hw; by right|done].
  rewrite andb_true_r. apply negb_true_iff.
  destruct (is_price_char b) eqn:E; [|done].
  rewrite <- (ifold_price_char b E), <- Hab in E.
  rewrite (Hw a) in E by (by left). done.
Qed.

(** The noise words hold no character of a price, so removing them does not
    change the cleaned text. *)
Lemma remove_words_from_keep (s : pystr) (k : nat) :
  forallb (fun c => negb (is_price_char c)) (take k s) = true ->
  keep_price_chars (remove_words_from noise_words k s) = keep_price_chars s.
Proof.
  revert k. induction s as [|c s IH]; intros k H; [by destruct k|].
  assert (Hskip : forall j,
    forallb (fun c => negb (is_price_char c)) (take (S j) (c :: s)) = true ->
    keep_price_chars (remove_words_from noise_words j s) = keep_price_chars (c :: s)).
  { intros j Hj. simpl in Hj. apply andb_true_iff in Hj as [Hc Hj].
    apply negb_true_iff in Hc. unfold keep_price_chars at 2. simpl.
    rewrite Hc. by apply IH. }
  destruct k as [|k]; [|by apply Hskip].
  simpl. unfold match_word_at.
  destruct (List.find _ noise_words) as [w|] eqn:Ef; simpl.
  - apply find_some in Ef as [Hw Hs].
    destruct (length w) as [|j] eqn:El.
    + unfold keep_price_chars in *. simpl. by rewrite (IH 0%nat).
    + apply Hskip. rewrite <- El. apply istarts_with_no_price; [|done].
      intros a Ha. by apply (noise_words_no_price w).
  - unfold keep_price_chars in *. simpl. by rewrite (IH 0%nat).
Qed.

(** The cleaned text of movers and shakers is the cleaned text of the
    specification. *)
Lemma cleaned_ms (p : pystr) :
  keep_price_chars (remove_words noise_words (strip_parens (strip (lower p)))) =
  keep_price_chars (strip_parens p).
Proof.
  unfold remove_words. rewrite remove_words_from_keep by (by destruct (strip_parens _)).
  rewrite keep_strip_parens_strip. unfold strip_parens.
  pose proof (strip_parens_from_lower p None) as H. simpl in H. rewrite H.
  apply keep_price_chars_lower.
Qed.

Lemma parse_price_ms_spec (p : pystr) :
  parse_price_ms (Str p) = parse_price_spec p.
Proof.
  unfold parse_price_ms, parse_price_spec.
  destruct (str_eqb (strip p) []) eqn:E.
  - apply str_eqb_nil, strip_blank in E.
    unfold strip_parens. rewrite (strip_parens_from_blank p None E). simpl.
    by rewrite keep_price_chars_blank.
  - by rewrite cleaned_ms.
Qed.
Lemma remove_commas_id (x : pystr) :
  contains (U ",") x = false -> remove_commas x = x.
Proof.
  change (U ",") with [44%N].
  induction x as [|c x IH]; [done|]. cbn [contains starts_with].
  intros H. apply orb_false_iff in H as [H1 H2].
  rewrite andb_true_r, N.eqb_sym in H1.
  unfold remove_commas in *. cbn [List.filter]. rewrite H1. cbn [negb].
  f_equal. by apply IH.
Qed.

Lemma strip_keep_price_chars (x : pystr) :
  strip (keep_price_chars x) = keep_price_chars x.
Proof.
  apply strip_fixed, forallb_forall. intros c Hc.
  apply filter_In in Hc as [_ Hc]. by rewrite (price_char_not_space c Hc).
Qed.

(** Best sellers: past the guard, the whole cleaned text is converted. *)
Lemma parse_price_bs_cleaned (p : pystr) :
  parse_price_bs p =
  if price_guard_bs p then None
  else py_float (remove_commas (keep_price_chars (strip_parens p))).
Proof.
  unfold parse_price_bs, price_guard_bs.
  destruct (_ || _); [done|]. rewrite strip_keep_price_chars.
  destruct (contains (U ",") _) eqn:E1; simpl.
  - by destruct (contains (U ".") _).
  - by rewrite remove_commas_id.
Qed.

Lemma strip_parens_from_subset (s : pystr) (p : option pystr) (x : char) :
  In x (strip_parens_from p s) -> In x (default [] p ++ s).
Proof.
  revert p. induction s as [|c s IH]; intros p; simpl.
  - by rewrite app_nil_r.
  - destruct p as [p|]; simpl.
    + destruct (c =? 41).
      * intros H. apply IH in H. simpl in H.
        apply in_or_app. right. by right.
      * destruct (c =? 10).
        -- rewrite !in_app_iff. simpl. intros [H|[H|H]]; auto.
           apply IH in H. auto.
        -- intros H. apply IH in H. simpl in H.
           rewrite <- app_assoc in H. exact H.
    + destruct (c =? 40).
      * intros H. by apply IH in H.
      * intros [H|H]; [by left|]. right. by apply IH in H.
Qed.

Lemma digit_price_char (c : char) : is_digit c = true -> is_price_char c = true.
Proof. intros H. unfold is_price_char. by rewrite H. Qed.

Lemma guard_no_digit (p : pystr) (x : char) :
  price_guard_bs p = true -> In x p -> is_digit x = false.
Proof.
  unfold price_guard_bs. intros H Hx.
  apply orb_true_iff in H as [H|H].
  - apply str_eqb_nil in H. by subst p.
  - apply bool_decide_eq_true in H.
    destruct (is_digit x) eqn:E; [|done]. exfalso.
    assert (Hl : In x (lower p)).
    { rewrite <- (lower_char_fixes x).
      - unfold lower. by apply in_map.
      - by apply price_char_low, digit_price_char. }
    assert (Hd : forall w, w ∈ [U "nan"; U "n/a"; U "none"] ->
                 forallb (fun c => negb (is_digit c)) w = true).
    { intros w Hw. apply list_elem_of_In in Hw.
      repeat (destruct Hw as [<-|Hw]; [reflexivity|]). destruct Hw. }
    specialize (Hd _ H). rewrite forallb_forall in Hd.
    specialize (Hd x Hl). by rewrite E in Hd.
Qed.

(** The scanner on a run of digits. *)
Lemma findall_int_run (d acc r : pystr) :
  forallb is_digit d = true ->
  findall_numbers_from (InInt acc) (d ++ r) =
  findall_numbers_from (InInt (acc ++ d)) r.
Proof.
  revert acc. induction d as [|c d IH]; intros acc H; simpl.
  - by rewrite app_nil_r.
  - simpl in H. apply andb_true_iff in H as [Hc Hd]. rewrite Hc.
    rewrite IH by done. by rewrite <- app_assoc.
Qed.

Lemma findall_frac_run (d f acc r : pystr) :
  forallb is_digit f = true ->
  findall_numbers_from (InFrac d acc) (f ++ r) =
  findall_numbers_from (InFrac d (acc ++ f)) r.
Proof.
  revert acc. induction f as [|c f IH]; intros acc H; simpl.
  - by rewrite app_nil_r.
  - simpl in H. apply andb_true_iff in H as [Hc Hf]. rewrite Hc.
    rewrite IH by done. by rewrite <- app_assoc.
Qed.

(** A text that is one number is its own and only token. *)
Lemma findall_single (d f : pystr) :
  d <> [] -> forallb is_digit d = true -> forallb is_digit f = true ->
  findall_numbers (token_text (d, f)) = [(d, f)].
Proof.
  intros Hne Hd Hf. destruct d as [|c d]; [done|].
  simpl in Hd. apply andb_true_iff in Hd as [Hc Hd].
  unfold findall_numbers, token_text.
  destruct f as [|c2 f].
  - cbn [findall_numbers_from]. rewrite Hc.
    pose proof (findall_int_run d [c] [] Hd) as H.
    rewrite app_nil_r in H. by rewrite H.
  - simpl in Hf. apply andb_true_iff in Hf as [Hc2 Hf].
    change ((c :: d) ++ 46%N :: c2 :: f) with (c :: (d ++ 46%N :: c2 :: f)).
    cbn [findall_numbers_from]. rewrite Hc.
    rewrite findall_int_run by done.
    cbn [findall_numbers_from]. change (is_digit 46%N) with false.
    change (46 =? 46)%N with true. cbn iota. rewrite Hc2.
    pose proof (findall_frac_run ([c] ++ d) f [c2] [] Hf) as H.
    rewrite app_nil_r in H. by rewrite H.
Qed.
(** C3 as stated fails in the best-sellers script, which converts the whole
    cleaned text instead of its last numeric token: a price range is
    missing there, while the specification (and movers and shakers) give
    its upper end. *)
Lemma parse_price_counterexample :
  parse_price_spec (U "$5.99 - $10.99") = Some 10.99 /\
  parse_price_ms (Str (U "$5.99 - $10.99")) = Some 10.99 /\
  parse_price_bs (U "$5.99 - $10.99") = None.
Proof. repeat split; reflexivity. Qed.

(** C3, amended.  Movers and shakers: the parser is the one of the
    specification (parentheticals stripped, commas removed, last numeric
    token converted, missing without a token), and missing on an input that
    is not a string.  Best sellers: past its guard (the empty string and the
    words nan, n/a, none are missing) the parser converts the whole cleaned
    text; it agrees with the specification when that text is one numeric
    token.  Both parse the two prices of the specification. *)
Theorem parse_price_by_design :
  (forall p, parse_price_ms (Str p) = parse_price_spec p) /\
  (forall v, (forall s, v <> Str s) -> parse_price_ms v = None) /\
  (forall p,
     parse_price_bs p =
     if price_guard_bs p then None
     else py_float (remove_commas (keep_price_chars (strip_parens p)))) /\
  (forall p d f,
     remove_commas (keep_price_chars (strip_parens p)) = token_text (d, f) ->
     d <> [] -> forallb is_digit d = true -> forallb is_digit f = true ->
     parse_price_bs p = parse_price_spec p) /\
  parse_price_bs (U "$1,234.56") = Some 1234.56 /\
  parse_price_ms (Str (U "$1,234.56")) = Some 1234.56 /\
  parse_price_bs (U "$9.00 (converted)") = Some 9.00 /\
  parse_price_ms (Str (U "$9.00 (converted)")) = Some 9.00.
Proof.
  repeat apply conj; try reflexivity.
  - apply parse_price_ms_spec.
  - intros v Hv. destruct v; try done. by destruct (Hv s).
  - apply parse_price_bs_cleaned.
  - intros p d f E Hne Hd Hf.
    rewrite parse_price_bs_cleaned. unfold parse_price_spec. rewrite E.
    rewrite (findall_single d f Hne Hd Hf). simpl.
    destruct (price_guard_bs p) eqn:G; [|done]. exfalso.
    destruct d as [|c d]; [done|].
    simpl in Hd. apply andb_true_iff in Hd as [Hc _].
    assert (Hin : In c p).
    { assert (H : In c (remove_commas (keep_price_chars (strip_parens p)))).
      { rewrite E. unfold token_text. destruct f; [by left|].
        apply in_or_app. left. by left. }
      apply filter_In in H as [H _].
      apply filter_In in H as [H _].
      by apply (strip_parens_from_subset p None) in H. }
    rewrite (guard_no_digit p c G Hin) in Hc. done.
Qed.

(** A price with a thousands separator, one numeric token. *)
Lemma parse_price_by_design_witness :
  parse_price_bs (U "USD 2,499.00 (approx)") = parse_price_spec (U "USD 2,499.00 (approx)").
Proof.
  refine (proj1 (proj2 (proj2 (proj2 parse_price_by_design)))
            _ (U "2499") (U "00") _ _ _ _); [reflexivity | discriminate | reflexivity..].
Defined.
(** ** Column mapping *)

Lemma build_colmap_from (canonical : pystr -> option pystr)
    (columns : list pystr) (m : gmap pystr pystr) (c : pystr) :
  fold_left
    (fun colmap c =>
       match canonical (lower c) with
       | Some k => <[c := k]> colmap
       | None => colmap
       end) columns m !! c =
  match (if bool_decide (c ∈ columns) then canonical (lower c) else None) with
  | Some k => Some k
  | None => m !! c
  end.
Proof.
  revert m. induction columns as [|a columns IH]; intros m; simpl; [done|].
  rewrite IH. destruct (decide (c = a)) as [->|Hne].
  - rewrite (bool_decide_eq_true_2 (a ∈ a :: columns)) by set_solver.
    destruct (canonical (lower a)) as [k|] eqn:E.
    + rewrite lookup_insert_eq. by destruct (bool_decide _).
    + by destruct (bool_decide _).
  - assert (Hb : bool_decide (c ∈ a :: columns) = bool_decide (c ∈ columns))
      by (apply bool_decide_ext; set_solver).
    rewrite Hb. destruct (bool_decide _); [destruct (canonical (lower c)); [done|]|];
      destruct (canonical (lower a)); by rewrite ?lookup_insert_ne.
Qed.

(** The dictionary is keyed by the header: every header of the frame is
    looked up to the canonical name of its own rule. *)
Lemma build_colmap_lookup canonical columns c :
  c ∈ columns -> build_colmap canonical columns !! c = canonical (lower c).
Proof.
  intros H. unfold build_colmap. rewrite build_colmap_from.
  rewrite bool_decide_eq_true_2 by done. by destruct (canonical (lower c)).
Qed.

Lemma map_columns_spec canonical (df : frame) :
  map_columns canonical df =
  List.map (fun lc => (canonical_label canonical lc.1, lc.2)) df.
Proof.
  unfold map_columns, rename, strip_labels, canonical_label.
  rewrite List.map_map. apply map_ext_in. intros [h col] Hin. simpl.
  rewrite build_colmap_lookup; [done|].
  unfold labels. rewrite List.map_map. simpl.
  apply list_elem_of_In, in_map_iff. by exists (h, col).
Qed.

Lemma columns_named_app k (a b : frame) :
  columns_named k (a ++ b) = columns_named k a ++ columns_named k b.
Proof. unfold columns_named. by rewrite List.filter_app, List.map_app. Qed.

Lemma columns_named_same k (cs : list column) :
  columns_named k (List.map (pair k) cs) = cs.
Proof.
  unfold columns_named. induction cs as [|c cs IH]; [done|]. simpl.
  unfold str_eqb at 1. rewrite bool_decide_eq_true_2 by done. simpl.
  by f_equal.
Qed.

Lemma columns_named_other k k' (cs : list column) :
  k' <> k -> columns_named k (List.map (pair k') cs) = [].
Proof.
  intros Hne. unfold columns_named. induction cs as [|c cs IH]; [done|]. simpl.
  unfold str_eqb at 1. by rewrite bool_decide_eq_false_2 by done.
Qed.

(** The projection keeps every column that carries a label of the list. *)
Lemma project_columns_named keep (df out : frame) k :
  NoDup keep -> k ∈ keep -> project keep df = Done out ->
  columns_named k out = columns_named k df.
Proof.
  intros Hnd. revert out. induction Hnd as [|k' keep Hk' Hnd IH]; intros out Hk.
  - by apply elem_of_nil in Hk.
  - cbn [project]. destruct (columns_named k' df) as [|c cs] eqn:E; [done|].
    destruct (project keep df) as [out'| |] eqn:Ep; try done. cbn [bind].
    intros [= <-].
    change (columns_named k (List.map (pair k') (c :: cs) ++ out') =
            columns_named k df).
    rewrite columns_named_app.
    destruct (decide (k = k')) as [->|Hne].
    + rewrite columns_named_same, E.
      assert (Hout : columns_named k' out' = []).
      { clear -Hk' Ep. revert out' Ep.
        induction keep as [|a keep IH]; intros out' Ep; cbn [project] in Ep.
        - by injection Ep as <-.
        - destruct (columns_named a df) as [|c cs] eqn:E; [done|].
          destruct (project keep df) as [o| |] eqn:Eo; try done.
          cbn [bind] in Ep. injection Ep as <-.
          change (columns_named k' (List.map (pair a) (c :: cs) ++ o) = []).
          rewrite columns_named_app, columns_named_other by set_solver.
          apply IH; [set_solver | done]. }
      by rewrite Hout, app_nil_r.
    + rewrite columns_named_other by done. simpl.
      apply IH; [set_solver | done].
Qed.
(** C9 as stated fails: the dictionary is keyed by the header, so nothing is
    overwritten; the two columns are both renamed to [title] and both reach
    the output, the earlier one first. *)
Lemma column_mapping_counterexample :
  canonical_bs (lower (U "Title")) = Some (U "title") /\
  canonical_bs (lower (U "Subtitle")) = Some (U "title") /\
  exists out,
    transform_bs two_titles = Done out /\
    columns_named (U "title") out =
      [[Str (U "Widget"); Str (U "Gadget")]; [Str (U "Deluxe"); Str (U "Mini")]] /\
    columns_named (U "title") out <> [[Str (U "Deluxe"); Str (U "Mini")]].
Proof.
  split; [reflexivity|]. split; [reflexivity|].
  eexists. split; [vm_compute; reflexivity|]. split; [reflexivity | discriminate].
Qed.

Lemma lookup_map_Some {A B} (f : A -> B) (l : list A) (i : nat) (x : A) :
  l !! i = Some x -> List.map f l !! i = Some (f x).
Proof.
  revert i. induction l as [|a l IH]; intros [|i] H; try done.
  - by injection H as ->.
  - by apply IH.
Qed.

(** C9, amended.  The renaming gives every column the canonical name of the
    rule its own header matches and keeps every column, in order: two
    headers that match the same rule yield two columns with the same label,
    the earlier one first, and neither overwrites the other; the final
    projection keeps all the columns that carry a kept label. *)
Theorem column_mapping_by_design canonical (df : frame) :
  map_columns canonical df =
    List.map (fun lc => (canonical_label canonical lc.1, lc.2)) df /\
  (forall i j h1 c1 h2 c2 k,
     df !! i = Some (h1, c1) -> df !! j = Some (h2, c2) ->
     canonical (lower (strip h1)) = Some k ->
     canonical (lower (strip h2)) = Some k ->
     map_columns canonical df !! i = Some (k, c1) /\
     map_columns canonical df !! j = Some (k, c2)) /\
  (forall keep out k,
     NoDup keep -> k ∈ keep -> project keep df = Done out ->
     columns_named k out = columns_named k df).
Proof.
  split; [apply map_columns_spec|]. split.
  - intros i j h1 c1 h2 c2 k Hi Hj E1 E2. rewrite map_columns_spec.
    split; (etrans; [eapply lookup_map_Some; eassumption|]);
      unfold canonical_label; simpl; by rewrite ?E1, ?E2.
  - intros keep out k. apply project_columns_named.
Qed.

(** The two title headers of [two_titles]. *)
Lemma column_mapping_by_design_witness :
  map_columns canonical_bs two_titles !! 2%nat =
    Some (U "title", [Str (U "Widget"); Str (U "Gadget")]) /\
  map_columns canonical_bs two_titles !! 3%nat =
    Some (U "title", [Str (U "Deluxe"); Str (U "Mini")]).
Proof.
  exact (proj1 (proj2 (column_mapping_by_design canonical_bs two_titles))
           2%nat 3%nat (U "Title") _ (U "Subtitle") _ (U "title")
           eq_refl eq_refl eq_refl eq_refl).
Defined.

(** ** Frames *)

Lemma bind_Done {A B} (m : outcome A) (f : A -> outcome B) (b : B) :
  bind m f = Done b -> exists a, m = Done a /\ f a = Done b.
Proof. destruct m; try done. simpl. eauto. Qed.

Lemma columns_named_labels (k : pystr) (df : frame) :
  columns_named k df <> [] <-> k ∈ labels df.
Proof.
  unfold columns_named, labels. induction df as [|[l c] df IH]; simpl.
  - split; [done | by intros ?%elem_of_nil].
  - unfold str_eqb at 1. rewrite elem_of_cons. case_bool_decide; simpl.
    + split; [by left | done].
    + rewrite IH. naive_solver.
Qed.

Lemma columns_named_absent (k : pystr) (df : frame) :
  k ∉ labels df -> columns_named k df = [].
Proof.
  intros H. destruct (columns_named k df) eqn:E; [done|].
  destruct H. apply columns_named_labels. by rewrite E.
Qed.

Lemma select_Done cs otherwise o :
  select cs otherwise = Done o -> cs <> [] \/ otherwise = Done o.
Proof. destruct cs; [by right | by left]. Qed.

Lemma getitem_Done k df o : getitem k df = Done o -> k ∈ labels df.
Proof.
  unfold getitem. intros H. apply select_Done in H as [H|H]; [|done].
  by apply columns_named_labels.
Qed.

Lemma labels_replace_column k c df :
  labels (replace_column k c df) = labels df.
Proof.
  unfold labels. induction df as [|[l c'] df IH]; [done|]. simpl.
  destruct (str_eqb l k); simpl; [done | by rewrite IH].
Qed.

Lemma labels_app (a b : frame) : labels (a ++ b) = labels a ++ labels b.
Proof. apply List.map_app. Qed.

(** An assignment adds at most its own label. *)
Lemma setitem_labels k c df df' :
  setitem k c df = Done df' ->
  labels df' = labels df \/ labels df' = labels df ++ [k].
Proof.
  unfold setitem. destruct (columns_named k df) as [|c0 [|c1 cs]]; try done.
  - intros [= <-]. right. by rewrite labels_app.
  - intros [= <-]. left. apply labels_replace_column.
Qed.

Lemma grows_trans a b df1 df2 df3 :
  grows a df1 df2 -> grows b df2 df3 -> grows (a ++ b) df1 df3.
Proof.
  intros H1 H2 x Hx. destruct (H2 x Hx) as [H|H]; [|set_solver].
  destruct (H1 x H) as [?|?]; set_solver.
Qed.

Lemma setitem_grows k c df df' :
  setitem k c df = Done df' -> grows [k] df df'.
Proof.
  intros H x Hx. apply setitem_labels in H as [E|E]; rewrite E in Hx; set_solver.
Qed.

Lemma assign_applied_getitem dst f src df df' :
  assign_applied dst f (getitem src df) df = Done df' ->
  src ∈ labels df /\ grows [dst] df df'.
Proof.
  unfold assign_applied. intros H.
  apply bind_Done in H as (o & Ho & H). apply bind_Done in H as (c & Hc & H).
  split; [by apply getitem_Done in Ho | by apply setitem_grows in H].
Qed.

Lemma read_column_Done {A} (conv : cell -> option A) k df l :
  read_column conv k df = Done l -> k ∈ labels df.
Proof.
  unfold read_column. intros H. apply bind_Done in H as (o & Ho & _).
  by apply getitem_Done in Ho.
Qed.

Lemma assign_const_grows k v df df' :
  assign_const k v df = Done df' -> grows [k] df df'.
Proof. apply setitem_grows. Qed.

Lemma concat_levels_grows df cats :
  grows [U "category_full"; U "cat_level_1"; U "cat_level_2"] df
    (concat_levels df cats).
Proof.
  intros x Hx. unfold concat_levels in Hx. rewrite labels_app in Hx.
  apply elem_of_app in Hx as [?|?]; [by left | by right].
Qed.

Lemma project_Done keep df out k :
  project keep df = Done out -> k ∈ keep -> k ∈ labels df.
Proof.
  revert out. induction keep as [|a keep IH]; intros out H Hk.
  - by apply elem_of_nil in Hk.
  - cbn [project] in H. destruct (columns_named a df) as [|c cs] eqn:E; [done|].
    apply bind_Done in H as (o & Ho & _).
    apply elem_of_cons in Hk as [->|Hk]; [|by eapply IH].
    apply columns_named_labels. by rewrite E.
Qed.
Lemma with_rank_change_Done df df' :
  with_rank_change df = Done df' ->
  U "sales_rank_was" ∈ labels df /\ U "sales_rank_now" ∈ labels df /\
  grows [U "sales_rank_change"; U "sales_rank_change_abs"; U "move_direction"]
    df df'.
Proof.
  unfold with_rank_change. intros H.
  apply bind_Done in H as (was & Hw & H). apply bind_Done in H as (now & Hn & H).
  apply bind_Done in H as (d1 & H1 & H). apply bind_Done in H as (d2 & H2 & H).
  apply read_column_Done in Hw, Hn.
  apply setitem_grows in H1, H2, H.
  split; [done|]. split; [done|].
  apply (grows_trans [_] [_; _] _ _ _ H1), (grows_trans [_] [_] _ _ _ H2), H.
Qed.

Lemma with_review_density_Done df df' :
  with_review_density df = Done df' ->
  U "review_count" ∈ labels df /\ U "rank" ∈ labels df /\
  grows [U "review_density"] df df'.
Proof.
  unfold with_review_density. intros H.
  apply bind_Done in H as (rc & Hc & H). apply bind_Done in H as (rk & Hk & H).
  apply read_column_Done in Hc, Hk. by apply setitem_grows in H.
Qed.

Lemma with_norm_review_density_Done norm df df' :
  with_norm_review_density norm df = Done df' ->
  grows [U "norm_review_density"] df df'.
Proof.
  unfold with_norm_review_density. intros H.
  apply bind_Done in H as (d1 & H1 & H). apply bind_Done in H as (ks & _ & H).
  apply bind_Done in H as (ds & _ & H).
  apply assign_const_grows in H1. apply setitem_grows in H.
  intros x Hx. destruct (H x Hx) as [Hx'|?]; [|by right]. by apply H1.
Qed.

Lemma with_price_segment_Done df df' :
  with_price_segment df = Done df' -> grows [U "price_segment"] df df'.
Proof.
  unfold with_price_segment. intros H.
  apply bind_Done in H as (d1 & H1 & H). apply bind_Done in H as (ks & _ & H).
  apply bind_Done in H as (ds & _ & H).
  apply assign_const_grows in H1. apply setitem_grows in H.
  intros x Hx. destruct (H x Hx) as [Hx'|?]; [|by right]. by apply H1.
Qed.

(** A label that is in the frame but not among the added ones was there
    before. *)
Ltac was_there G S :=
  let Hbad := fresh "Hbad" in
  destruct (G _ S) as [?|Hbad];
  [assumption
  |exfalso; apply list_elem_of_In in Hbad; vm_compute in Hbad;
   intuition discriminate].

Lemma transform_ms_requires df out :
  transform_ms df = Done out ->
  Forall (fun k => k ∈ labels (map_columns canonical_ms df)) required_ms.
Proof.
  unfold transform_ms. set (df0 := map_columns canonical_ms df).
  destruct (nrows df0 =? 0)%nat; [done|]. intros H.
  apply bind_Done in H as (df1 & H1 & H).
  apply assign_applied_getitem in H1 as [S1 G1].
  apply bind_Done in H as (df2 & H2 & H).
  apply assign_applied_getitem in H2 as [S2 G2].
  pose proof (grows_trans _ _ _ _ _ G1 G2) as G12.
  apply bind_Done in H as (df3 & H3 & H).
  apply assign_applied_getitem in H3 as [S3 G3].
  pose proof (grows_trans _ _ _ _ _ G12 G3) as G13.
  apply bind_Done in H as (df4 & H4 & H).
  apply assign_applied_getitem in H4 as [S4 G4].
  pose proof (grows_trans _ _ _ _ _ G13 G4) as G14.
  apply bind_Done in H as (df5 & H5 & H).
  apply assign_applied_getitem in H5 as [S5 G5].
  pose proof (grows_trans _ _ _ _ _ G14 G5) as G15.
  apply bind_Done in H as (df6 & H6 & H).
  apply assign_applied_getitem in H6 as [S6 G6].
  pose proof (grows_trans _ _ _ _ _ G15 G6) as G16.
  apply bind_Done in H as (df7 & H7 & H).
  apply assign_applied_getitem in H7 as [S7 G7].
  pose proof (grows_trans _ _ _ _ _ G16 G7) as G17.
  apply bind_Done in H as (df8 & H8 & H).
  apply assign_applied_getitem in H8 as [S8 G8].
  pose proof (grows_trans _ _ _ _ _ G17 G8) as G18.
  apply bind_Done in H as (o & Ho & H). apply getitem_Done in Ho.
  apply bind_Done in H as (cats & _ & H).
  pose proof (grows_trans _ _ _ _ _ G18 (concat_levels_grows df8 cats)) as G19.
  apply bind_Done in H as (df10 & H10 & H).
  apply with_rank_change_Done in H10 as (_ & _ & G10).
  pose proof (grows_trans _ _ _ _ _ G19 G10) as G110.
  apply bind_Done in H as (df11 & H11 & H).
  apply with_review_density_Done in H11 as (_ & _ & G11).
  pose proof (grows_trans _ _ _ _ _ G110 G11) as G111.
  apply bind_Done in H as (df12 & H12 & H).
  apply with_norm_review_density_Done in H12.
  pose proof (grows_trans _ _ _ _ _ G111 H12) as G112.
  apply bind_Done in H as (df13 & H13 & H).
  apply with_price_segment_Done in H13.
  pose proof (grows_trans _ _ _ _ _ G112 H13) as G113.
  apply bind_Done in H as (df14 & H14 & H).
  apply assign_const_grows in H14.
  pose proof (grows_trans _ _ _ _ _ G113 H14) as G114.
  assert (Hpage : U "page" ∈ labels df14)
    by (apply (project_Done _ _ _ _ H); apply list_elem_of_In; vm_compute; tauto).
  assert (Htitle : U "title" ∈ labels df14)
    by (apply (project_Done _ _ _ _ H); apply list_elem_of_In; vm_compute; tauto).
  unfold required_ms. repeat constructor.
  - exact S1.
  - was_there G1 S2.
  - was_there G12 S3.
  - was_there G13 S4.
  - was_there G14 S5.
  - was_there G15 S6.
  - was_there G16 S7.
  - was_there G17 S8.
  - was_there G18 Ho.
  - was_there G114 Hpage.
  - was_there G114 Htitle.
Qed.
Lemma rows_nrows n df : rows n df -> df <> [] -> nrows df = n.
Proof. intros H Hne. destruct df as [|[l c] df]; [done|]. by inversion H. Qed.

Lemma labels_nonempty k (df : frame) : k ∈ labels df -> df <> [].
Proof. intros H ->. by apply elem_of_nil in H. Qed.

Lemma columns_named_unique df k :
  NoDup (labels df) -> k ∈ labels df ->
  exists c, columns_named k df = [c] /\ In (k, c) df.
Proof.
  unfold columns_named, labels.
  induction df as [|[l c] df IH]; simpl; intros Hnd Hk.
  - by apply elem_of_nil in Hk.
  - apply NoDup_cons in Hnd as [Hl Hnd]. unfold str_eqb at 1.
    case_bool_decide as E; simpl.
    + subst l. exists c. split; [|by left]. f_equal.
      apply (columns_named_absent k df Hl).
    + apply elem_of_cons in Hk as [?|Hk]; [done|].
      destruct (IH Hnd Hk) as (c' & E' & Hin). exists c'. split; [done | by right].
Qed.

Lemma columns_named_replace_other k k' c df :
  k' <> k -> columns_named k' (replace_column k c df) = columns_named k' df.
Proof.
  intros Hne. unfold columns_named.
  induction df as [|[l c'] df IH]; [done|]. simpl.
  destruct (str_eqb l k) eqn:E; simpl.
  - apply bool_decide_eq_true in E. subst l.
    unfold str_eqb. by rewrite bool_decide_eq_false_2 by done.
  - destruct (str_eqb l k'); simpl; by rewrite IH.
Qed.

Lemma columns_named_replace_same k c df :
  NoDup (labels df) -> k ∈ labels df ->
  columns_named k (replace_column k c df) = [c].
Proof.
  unfold labels. induction df as [|[l c'] df IH]; simpl; intros Hnd Hk.
  - by apply elem_of_nil in Hk.
  - apply NoDup_cons in Hnd as [Hl Hnd].
    destruct (str_eqb l k) eqn:E.
    + apply bool_decide_eq_true in E. subst l.
      unfold columns_named. simpl. unfold str_eqb at 1.
      rewrite bool_decide_eq_true_2 by done. simpl. f_equal.
      apply (columns_named_absent k df Hl).
    + apply bool_decide_eq_false in E.
      apply elem_of_cons in Hk as [?|Hk]; [done|].
      unfold columns_named. simpl. unfold str_eqb at 1.
      rewrite bool_decide_eq_false_2 by done. by apply IH.
Qed.

Lemma rows_replace n k c df :
  rows n df -> length c = n -> rows n (replace_column k c df).
Proof.
  intros H Hc. induction H as [|[l c'] df Hl H IH]; [constructor|]. simpl.
  destruct (str_eqb l k); constructor; done.
Qed.

(** An assignment into a frame without repeated labels. *)
Lemma setitem_simple n k c df :
  NoDup (labels df) -> rows n df -> length c = n ->
  exists df',
    setitem k c df = Done df' /\ NoDup (labels df') /\ rows n df' /\
    columns_named k df' = [c] /\
    (forall k', k' <> k -> columns_named k' df' = columns_named k' df) /\
    (forall x, x ∈ labels df' <-> x ∈ labels df \/ x = k).
Proof.
  intros Hnd Hr Hc. unfold setitem.
  destruct (decide (k ∈ labels df)) as [Hk|Hk].
  - destruct (columns_named_unique df k Hnd Hk) as (c0 & -> & _).
    exists (replace_column k c df). rewrite labels_replace_column.
    repeat split; try done.
    + by apply rows_replace.
    + by apply columns_named_replace_same.
    + intros. by apply columns_named_replace_other.
    + by left.
    + by intros [?| ->].
  - rewrite (columns_named_absent k df Hk).
    exists (df ++ [(k, c)]). rewrite labels_app. simpl.
    repeat split.
    + apply NoDup_app. repeat split; [done | | apply NoDup_singleton].
      intros x Hx ->%list_elem_of_singleton. done.
    + apply Forall_app. split; [done|]. by constructor.
    + rewrite columns_named_app, (columns_named_absent k df Hk). simpl.
      unfold columns_named. simpl. unfold str_eqb.
      by rewrite bool_decide_eq_true_2.
    + intros k' Hne. rewrite columns_named_app.
      unfold columns_named at 2. simpl. unfold str_eqb.
      rewrite bool_decide_eq_false_2 by done. apply app_nil_r.
    + intros Hx. apply elem_of_app in Hx as [?|?%list_elem_of_singleton]; auto.
    + intros [?| ->]; apply elem_of_app; [by left|]. right. by apply list_elem_of_singleton.
Qed.

Lemma all_some_map {A B} (conv : cell -> option A) (mk : B -> cell)
    (val : B -> A) (l : list B) :
  (forall x, conv (mk x) = Some (val x)) ->
  all_some (List.map conv (List.map mk l)) = Done (List.map val l).
Proof.
  intros H. induction l as [|x l IH]; [done|]. simpl. by rewrite H, IH.
Qed.

Lemma read_column_simple {A B} (conv : cell -> option A) (mk : B -> cell)
    (val : B -> A) k df (l : list B) :
  (forall x, conv (mk x) = Some (val x)) ->
  columns_named k df = [List.map mk l] ->
  read_column conv k df = Done (List.map val l).
Proof.
  intros H E. unfold read_column, getitem. rewrite E. simpl.
  by apply all_some_map.
Qed.

Lemma norm_review_density_bs_length keys density :
  length (norm_review_density_bs keys density) = length keys.
Proof.
  unfold norm_review_density_bs, norm_review_density_over_bs.
  rewrite (groupwise_length _ (norm_group_bs_length keys density)).
  apply repeat_length.
Qed.

Lemma price_segment_by_category_length keys price :
  length (price_segment_by_category keys price) = length keys.
Proof.
  unfold price_segment_by_category, price_segment_over.
  rewrite (groupwise_length _ (segment_group_length _ _ keys price)).
  apply repeat_length.
Qed.
Lemma setitem_assigned n k c df :
  NoDup (labels df) -> rows n df -> length c = n ->
  exists df', setitem k c df = Done df' /\ assigned n k c df df'.
Proof.
  intros Hnd Hr Hc.
  destruct (setitem_simple n k c df Hnd Hr Hc) as (df' & H & ?).
  by exists df'.
Qed.

Lemma map_cells_str (f : cell -> option cell) (g : pystr -> cell) (l : list pystr) :
  (forall s, f (Str s) = Some (g s)) ->
  map_cells f (List.map Str l) = Done (List.map g l).
Proof. intros H. induction l as [|s l IH]; [done|]. simpl. by rewrite H, IH. Qed.

(** A parsing step of best sellers on a column of strings. *)
Lemma parse_step_bs n dst f g src d df (l : list pystr) :
  NoDup (labels df) -> rows n df ->
  columns_named src df = [List.map Str l] -> length l = n ->
  (forall s, f (Str s) = Some (g s)) ->
  exists df',
    assign_applied dst f (get src d df) df = Done df' /\
    assigned n dst (List.map g l) df df'.
Proof.
  intros Hnd Hr Hs Hl Hf. unfold assign_applied, get. rewrite Hs. simpl.
  rewrite (map_cells_str f g l Hf). simpl.
  apply setitem_assigned; [done..|]. by rewrite length_map.
Qed.

Lemma assigned_nonempty n dst c df df' : assigned n dst c df df' -> df' <> [].
Proof.
  intros (_ & _ & _ & _ & Hl). apply (labels_nonempty dst), Hl. by right.
Qed.

Lemma cell_num_num_cell (x : option Q) : cell_num (num_cell x) = Some x.
Proof. by destruct x. Qed.

Lemma cell_key_text_cell (x : option pystr) : cell_key (text_cell x) = Some x.
Proof. by destruct x. Qed.

(** The three columns of the category levels, added to a frame that does
    not have their labels. *)
Lemma concat_levels_simple n df (cats : list levels) :
  NoDup (labels df) -> rows n df -> length cats = n ->
  U "category_full" ∉ labels df -> U "cat_level_1" ∉ labels df ->
  U "cat_level_2" ∉ labels df ->
  let df' := concat_levels df cats in
  NoDup (labels df') /\ rows n df' /\
  columns_named (U "cat_level_1") df' =
    [List.map (fun l => text_cell (cat_level_1 l)) cats] /\
  (forall k', k' <> U "category_full" -> k' <> U "cat_level_1" ->
     k' <> U "cat_level_2" -> columns_named k' df' = columns_named k' df) /\
  (forall x, x ∈ labels df' <->
     x ∈ labels df \/ x ∈ [U "category_full"; U "cat_level_1"; U "cat_level_2"]).
Proof.
  intros Hnd Hr Hc H1 H2 H3 df'. unfold df', concat_levels.
  rewrite labels_app. repeat split.
  - apply NoDup_app. repeat split; [done| |].
    + intros x Hx Hx'. apply list_elem_of_In in Hx'.
      simpl in Hx'. destruct Hx' as [<-|[<-|[<-|[]]]]; done.
    + apply NoDup_ListNoDup. repeat constructor; simpl;
        intros H; vm_compute in H; intuition discriminate.
  - apply Forall_app. split; [done|].
    repeat constructor; simpl; by rewrite length_map.
  - rewrite columns_named_app, (columns_named_absent _ df H2). reflexivity.
  - intros k' N1 N2 N3. rewrite columns_named_app.
    unfold columns_named at 2. simpl. unfold str_eqb.
    rewrite !bool_decide_eq_false_2 by done. apply app_nil_r.
  - intros Hx. by apply elem_of_app in Hx.
  - intros Hx. by apply elem_of_app.
Qed.

(** The final projection of best sellers never fails: it keeps the labels
    that the frame has. *)
Lemma project_present n keep df :
  NoDup (labels df) -> rows n df ->
  exists out,
    project (List.filter (has_label df) keep) df = Done out /\
    rows n out /\ labels out = List.filter (has_label df) keep.
Proof.
  intros Hnd Hr. induction keep as [|k keep (out & E & Ho & Hl)]; simpl.
  - exists []. repeat split. constructor.
  - destruct (has_label df k) eqn:Ek; [|by exists out].
    apply bool_decide_eq_true in Ek.
    destruct (columns_named_unique df k Hnd Ek) as (c & Ec & Hin).
    cbn [project]. rewrite Ec, E. simpl. eexists. split; [done|]. split.
    + constructor; [|done]. unfold rows in Hr. rewrite Forall_forall in Hr.
      by apply (Hr (k, c)), list_elem_of_In.
    + simpl. by rewrite Hl.
Qed.
Lemma read_frame_columns canonical table n :
  Forall (fun hc : string * list string => length hc.2 = n) table ->
  let df0 := map_columns canonical (read_frame table) in
  rows n df0 /\
  forall k c, In (k, c) df0 -> exists l, c = List.map Str l /\ length l = n.
Proof.
  intros Hwf df0. unfold df0. rewrite map_columns_spec. unfold read_frame.
  rewrite List.map_map. simpl. split.
  - unfold rows. rewrite Forall_map. simpl.
    eapply Forall_impl; [exact Hwf|]. intros [h c] Hc. simpl in *.
    by rewrite length_map.
  - intros k c Hin. apply in_map_iff in Hin as ([h c0] & [= _ <-] & Hin).
    exists (List.map U c0). simpl. rewrite List.map_map, length_map. split; [done|].
    rewrite Forall_forall in Hwf. by apply (Hwf (h, c0)), list_elem_of_In.
Qed.

Ltac neq := let H := fresh in intros H; vm_compute in H; discriminate H.

Ltac parse_step n l Hnd Hr Hsrc Hl df' E A :=
  match goal with
  | |- context [assign_applied ?dst ?f (get ?src ?d ?df) ?df] =>
      destruct (parse_step_bs n dst f _ src d df l Hnd Hr Hsrc Hl
                  (fun s => eq_refl)) as (df' & E & A);
      rewrite E; cbn [bind]
  end.

Lemma raw_column (df0 : frame) (n : nat) (k : pystr) :
  NoDup (labels df0) ->
  (forall k c, In (k, c) df0 -> exists l, c = List.map Str l /\ length l = n) ->
  k ∈ labels df0 ->
  exists l, columns_named k df0 = [List.map Str l] /\ length l = n.
Proof.
  intros Nd Hraw Hk.
  destruct (columns_named_unique df0 k Nd Hk) as (c & Ec & Hin).
  destruct (Hraw k c Hin) as (l & -> & Hl). by exists l.
Qed.

Ltac assign_step n c Hnd Hr Hlen df' E A :=
  match goal with
  | |- context [setitem ?k c ?df] =>
      destruct (setitem_assigned n k c df Hnd Hr Hlen) as (df' & E & A);
      rewrite E; cbn [bind]
  end.

Lemma transform_bs_completes (table : list (string * list string)) (n : nat) :
  (0 < n)%nat ->
  Forall (fun hc => length hc.2 = n) table ->
  let df0 := map_columns canonical_bs (read_frame table) in
  NoDup (labels df0) ->
  Forall (fun k => k ∈ labels df0) parsed_bs ->
  Forall (fun k => k ∉ labels df0) level_labels ->
  exists out,
    transform_bs (read_frame table) = Done out /\
    rows n out /\
    (forall k, k ∈ labels out <->
       k ∈ keep_cols_bs /\ (k ∈ labels df0 \/ k ∈ derived_bs)).
Proof.
  intros Hn Hwf df0 Nd0 Hreq Hlev.
  destruct (read_frame_columns canonical_bs table n Hwf) as [R0 Hraw].
  fold df0 in R0, Hraw.
  unfold parsed_bs in Hreq. unfold level_labels in Hlev.
  apply Forall_cons in Hreq as [Krank Hreq]. apply Forall_cons in Hreq as [Klink Hreq].
  apply Forall_cons in Hreq as [Kprice Hreq]. apply Forall_cons in Hreq as [Krating Hreq].
  apply Forall_cons in Hreq as [Kreview Hreq]. apply Forall_cons in Hreq as [Kcat _].
  apply Forall_cons in Hlev as [V1 Hlev]. apply Forall_cons in Hlev as [V2 Hlev].
  apply Forall_cons in Hlev as [V3 _].
  destruct (raw_column df0 n _ Nd0 Hraw Krank) as (lrank & Crank & Lrank).
  destruct (raw_column df0 n _ Nd0 Hraw Klink) as (llink & Clink & Llink).
  destruct (raw_column df0 n _ Nd0 Hraw Kprice) as (lprice & Cprice & Lprice).
  destruct (raw_column df0 n _ Nd0 Hraw Krating) as (lrating & Crating & Lrating).
  destruct (raw_column df0 n _ Nd0 Hraw Kreview) as (lreview & Creview & Lreview).
  destruct (raw_column df0 n _ Nd0 Hraw Kcat) as (lcat & Ccat & Lcat).
  unfold transform_bs. fold df0.
  rewrite (rows_nrows n df0 R0 (labels_nonempty _ _ Krank)).
  destruct (Nat.eqb_spec n 0) as [->|_]; [lia|].
  (* the five parsed columns *)
  parse_step n lrank Nd0 R0 Crank Lrank df1 E1 A1.
  destruct A1 as (Nd1 & R1 & D1 & O1 & L1).
  assert (S2 : columns_named (U "link") df1 = [List.map Str llink])
    by (rewrite O1 by neq; exact Clink).
  parse_step n llink Nd1 R1 S2 Llink df2 E2 A2.
  destruct A2 as (Nd2 & R2 & D2 & O2 & L2).
  assert (S3 : columns_named (U "price_raw") df2 = [List.map Str lprice])
    by (rewrite O2, O1 by neq; exact Cprice).
  parse_step n lprice Nd2 R2 S3 Lprice df3 E3 A3.
  destruct A3 as (Nd3 & R3 & D3 & O3 & L3).
  assert (S4 : columns_named (U "rating_raw") df3 = [List.map Str lrating])
    by (rewrite O3, O2, O1 by neq; exact Crating).
  parse_step n lrating Nd3 R3 S4 Lrating df4 E4 A4.
  destruct A4 as (Nd4 & R4 & D4 & O4 & L4).
  assert (S5 : columns_named (U "review_count_raw") df4 = [List.map Str lreview])
    by (rewrite O4, O3, O2, O1 by neq; exact Creview).
  parse_step n lreview Nd4 R4 S5 Lreview df5 E5 A5.
  destruct A5 as (Nd5 & R5 & D5 & O5 & L5).
  (* the category levels *)
  assert (S6 : columns_named (U "category") df5 = [List.map Str lcat])
    by (rewrite O5, O4, O3, O2, O1 by neq; exact Ccat).
  unfold get at 1. rewrite S6. cbn [select bind levels_of].
  set (cats := List.map parse_category_levels_bs (List.map Str lcat)).
  assert (Lcats : length cats = n) by (unfold cats; by rewrite !length_map).
  assert (NL : forall x, x ∉ labels df0 ->
                 x <> U "rank" -> x <> U "asin" -> x <> U "price_norm" ->
                 x <> U "rating" -> x <> U "review_count" -> x ∉ labels df5).
  { intros x Hx N1 N2 N3 N4 N5 H5.
    apply L5 in H5 as [H5|?]; [|done]. apply L4 in H5 as [H5|?]; [|done].
    apply L3 in H5 as [H5|?]; [|done]. apply L2 in H5 as [H5|?]; [|done].
    by apply L1 in H5 as [H5|?]. }
  destruct (concat_levels_simple n df5 cats Nd5 R5 Lcats)
    as (Nd6 & R6 & D6 & O6 & L6); [apply NL; (done || neq)..|].
  set (df6 := concat_levels df5 cats) in *.
  (* the date *)
  assert (K6 : U "cat_level_1" ∈ labels df6) by (apply L6; right; set_solver).
  unfold assign_const at 1.
  rewrite (rows_nrows n df6 R6 (labels_nonempty _ _ K6)).
  assign_step n (repeat (Str SCRAPED_AT) n) Nd6 R6
    (repeat_length (Str SCRAPED_AT) n) df7 E7 A7.
  destruct A7 as (Nd7 & R7 & D7 & O7 & L7).
  (* the review density *)
  unfold with_review_density.
  rewrite (read_column_simple cell_num
             (fun s => int_cell (parse_int_bs s))
             (fun s => inject_Z <$> parse_int_bs s) (U "review_count") df7 lreview)
    by (first [intros x; apply cell_num_num_cell
              |rewrite O7 by neq; rewrite O6 by neq; exact D5]).
  cbn [bind].
  rewrite (read_column_simple cell_num
             (fun s => int_cell (parse_int_bs s))
             (fun s => inject_Z <$> parse_int_bs s) (U "rank") df7 lrank)
    by (first [intros x; apply cell_num_num_cell
              |rewrite O7 by neq; rewrite O6 by neq;
               rewrite O5, O4, O3, O2 by neq; exact D1]).
  cbn [bind].
  set (density := zip_with review_density _ _).
  assert (Ldens : length density = n)
    by (unfold density; rewrite length_zip_with, !length_map; lia).
  assign_step n (List.map num_cell density) Nd7 R7
    (eq_trans (length_map num_cell density) Ldens) df8 E8 A8.
  destruct A8 as (Nd8 & R8 & D8 & O8 & L8).
  (* the normalised review density *)
  unfold with_norm_review_density, assign_const.
  rewrite (rows_nrows n df8 R8 (labels_nonempty (U "review_density") _
             (proj2 (L8 _) (or_intror eq_refl)))).
  assign_step n (repeat NaN n) Nd8 R8 (repeat_length NaN n) df9 E9 A9.
  destruct A9 as (Nd9 & R9 & D9 & O9 & L9).
  rewrite (read_column_simple cell_key
             (fun l => text_cell (cat_level_1 l)) cat_level_1
             (U "cat_level_1") df9 cats)
    by (first [intros x; apply cell_key_text_cell
              |rewrite O9, O8, O7 by neq; exact D6]).
  cbn [bind].
  rewrite (read_column_simple cell_num num_cell id (U "review_density") df9 density)
    by (first [intros x; apply cell_num_num_cell
              |rewrite O9 by neq; exact D8]).
  cbn [bind]. rewrite List.map_id.
  match goal with
  | |- context [setitem _ ?c df9] => set (norm := c)
  end.
  assert (Lnorm : length norm = n)
    by (unfold norm;
        by rewrite length_map, norm_review_density_bs_length, length_map).
  assign_step n norm Nd9 R9 Lnorm df10 E10 A10.
  destruct A10 as (Nd10 & R10 & D10 & O10 & L10).
  (* the price segment *)
  unfold with_price_segment, assign_const.
  rewrite (rows_nrows n df10 R10 (labels_nonempty (U "norm_review_density") _
             (proj2 (L10 _) (or_intror eq_refl)))).
  assign_step n (repeat (Str (U "unknown")) n) Nd10 R10
    (repeat_length (Str (U "unknown")) n) df11 E11 A11.
  destruct A11 as (Nd11 & R11 & D11 & O11 & L11).
  rewrite (read_column_simple cell_key
             (fun l => text_cell (cat_level_1 l)) cat_level_1
             (U "cat_level_1") df11 cats)
    by (first [intros x; apply cell_key_text_cell
              |rewrite O11, O10, O9, O8, O7 by neq; exact D6]).
  cbn [bind].
  rewrite (read_column_simple cell_num
             (fun s => num_cell (parse_price_bs s)) parse_price_bs
             (U "price_norm") df11 lprice)
    by (first [intros x; apply cell_num_num_cell
              |rewrite O11, O10, O9, O8, O7 by neq; rewrite O6 by neq;
               rewrite O5, O4 by neq; exact D3]).
  cbn [bind].
  match goal with
  | |- context [setitem _ ?c df11] => set (segs := c)
  end.
  assert (Lsegs : length segs = n)
    by (unfold segs;
        by rewrite length_map, price_segment_by_category_length, length_map).
  assign_step n segs Nd11 R11 Lsegs df12 E12 A12.
  destruct A12 as (Nd12 & R12 & D12 & O12 & L12).
  (* the projection *)
  destruct (project_present n keep_cols_bs df12 Nd12 R12) as (out & Eo & Ro & Lo).
  exists out. split; [exact Eo|]. split; [exact Ro|].
  intros k. rewrite Lo.
  rewrite list_elem_of_In, filter_In, <- list_elem_of_In.
  unfold has_label. rewrite bool_decide_eq_true.
  rewrite L12, L11, L10, L9, L8, L7, L6, L5, L4, L3, L2, L1.
  unfold derived_bs. rewrite !elem_of_cons, elem_of_nil. tauto.
Qed.
(** ** Absent columns *)

(** The slip of best sellers: the default of [df.get] for an absent column
    is a string (or [None]), which has no [apply]. *)
Lemma best_sellers_default_has_no_apply :
  transform_bs (read_frame table_no_price) = Raised AttributeError.
Proof. vm_compute. reflexivity. Qed.

(** C6 as stated fails in movers and shakers, which indexes every column
    directly: without a price column the transform raises a [KeyError]
    instead of treating the price as missing, and without a [page] column
    the final projection raises instead of leaving the column out. *)
Lemma absent_column_counterexample :
  transform_ms (read_frame table_ms_no_price) = Raised (KeyError (U "price_raw")) /\
  transform_ms (read_frame table_ms_no_page) = Raised (KeyError (U "page")).
Proof. split; vm_compute; reflexivity. Qed.

(** C6, amended.  Movers and shakers completes only when every canonical
    column it indexes is present.  Best sellers: the final projection keeps
    the labels that the frame has and never fails; on a table as read by
    [read_input] (at least one row, headers that map to distinct labels,
    none of them a category-level label) that has the columns the script
    parses, the transform completes with as many rows as the input, whether
    or not the other columns ([page], [title]) are present: the output has
    them exactly when the input has. *)
Theorem absent_column_by_design :
  (forall df out,
     transform_ms df = Done out ->
     Forall (fun k => k ∈ labels (map_columns canonical_ms df)) required_ms) /\
  (forall n keep df,
     NoDup (labels df) -> rows n df ->
     exists out,
       project (List.filter (has_label df) keep) df = Done out /\
       rows n out /\ labels out = List.filter (has_label df) keep) /\
  (forall (table : list (string * list string)) (n : nat),
     (0 < n)%nat ->
     Forall (fun hc => length hc.2 = n) table ->
     let df0 := map_columns canonical_bs (read_frame table) in
     NoDup (labels df0) ->
     Forall (fun k => k ∈ labels df0) parsed_bs ->
     Forall (fun k => k ∉ labels df0) level_labels ->
     exists out,
       transform_bs (read_frame table) = Done out /\
       rows n out /\
       (forall k, k ∈ labels out <->
          k ∈ keep_cols_bs /\ (k ∈ labels df0 \/ k ∈ derived_bs))).
Proof.
  split; [exact transform_ms_requires|].
  split; [exact project_present | exact transform_bs_completes].
Qed.

(** The table with a price column and without a [page] column. *)
Lemma absent_column_by_design_witness :
  exists out,
    transform_bs (read_frame table_with_price) = Done out /\
    rows 2 out /\ U "page" ∉ labels out /\ U "title" ∈ labels out.
Proof.
  destruct (proj2 (proj2 absent_column_by_design) table_with_price 2%nat)
    as (out & E & R & L).
  - lia.
  - repeat constructor.
  - apply (proj1 (bool_decide_eq_true _)). vm_compute. reflexivity.
  - apply (proj1 (bool_decide_eq_true _)). vm_compute. reflexivity.
  - apply (proj1 (bool_decide_eq_true _)). vm_compute. reflexivity.
  - exists out. split; [exact E|]. split; [exact R|]. split.
    + intros H. apply L in H as [_ [H|H]];
        apply list_elem_of_In in H; vm_compute in H; intuition discriminate.
    + apply L. split; [|left]; apply list_elem_of_In; vm_compute; tauto.
Defined.

(** * Further properties of the statistics engine *)

(** ** Groups do not interact *)

Lemma group_values_ext {A} keys (d d' : list (option A)) k :
  (forall j, keys !! j = Some k -> nth j d None = nth j d' None) ->
  group_values keys d k = group_values keys d' k.
Proof.
  intros H. unfold group_values, loc. apply map_ext_in. intros j Hj.
  apply H. by apply group_index_spec, list_elem_of_In.
Qed.

(** X1.  The normalised review density and the price segment of a row depend
    on the rows of its own group only: changing the densities (the prices)
    of the rows of the other groups leaves them as they are. *)
Theorem groups_do_not_interact keys (d d' : list (option Q)) i k :
  keys !! i = Some k ->
  (forall j, keys !! j = Some k -> nth j d None = nth j d' None) ->
  norm_review_density_bs keys d !! i = norm_review_density_bs keys d' !! i /\
  norm_review_density_ms keys d !! i = norm_review_density_ms keys d' !! i /\
  price_segment_by_category keys d !! i = price_segment_by_category keys d' !! i.
Proof.
  intros Hi H.
  rewrite !(norm_review_density_bs_row _ _ _ _ Hi),
          !(norm_review_density_ms_row _ _ _ _ Hi),
          !(price_segment_row _ _ _ _ Hi).
  by rewrite (group_values_ext keys d d' k H), (H i Hi).
Qed.

(** Two groups; the values of the second group are changed. *)
Lemma groups_do_not_interact_witness :
  let keys := [Some (U "Toys"); Some (U "Books"); Some (U "Toys"); Some (U "Books")] in
  norm_review_density_bs keys [Some 1; Some 5; Some 3; Some 9] !! 0%nat =
  norm_review_density_bs keys [Some 1; None; Some 3; Some 2] !! 0%nat.
Proof.
  intros keys.
  refine (proj1 (groups_do_not_interact keys _ _ 0 (Some (U "Toys")) eq_refl _)).
  intros [|[|[|[|j]]]] Hj; try reflexivity; discriminate Hj.
Defined.

(** ** The scale of the normalised review density *)

Lemma norm_value_formula (v0 : Q) (vs : list Q) (v : Q) (old : fval) :
  ~ all_equal (v0 :: vs) ->
  let mn := qmin_list v0 vs in
  let mx := qmax_list v0 vs in
  mn < mx /\
  norm_value_bs (v0 :: vs) (Some v) old = Fin ((v - mn) / (mx - mn)) /\
  norm_value_ms (v0 :: vs) (Some v) old = Fin ((v - mn) / (mx - mn)).
Proof.
  intros Hne mn mx.
  assert (Hmm : ~ mn == mx) by (intros H; apply Hne, all_equal_min_max, H).
  assert (Hlt : mn < mx).
  { destruct (Qlt_le_dec mn mx) as [?|Hge]; [done|].
    destruct Hmm. apply Qle_antisym; [|done].
    eapply Qle_trans; [apply qmin_list_le | apply qmax_list_ge]. }
  assert (Hd : ~ mx - mn == 0).
  { intros E. apply Hmm. symmetry. apply Qplus_inj_r with (z := - mn).
    rewrite Qplus_opp_r. exact E. }
  split; [done|]. split.
  - unfold norm_value_bs. fold mn mx.
    rewrite (Qeq_bool_false _ _ Hmm). by apply fdiv_defined.
  - unfold norm_value_ms. fold mn mx.
    destruct vs as [|v1 vs'].
    + exfalso. apply Hne. intros x y [<-|[]] [<-|[]]. reflexivity.
    + simpl. by apply fdiv_defined.
Qed.

Lemma scaled_le (mn mx v w : Q) :
  mn < mx -> v <= w -> (v - mn) / (mx - mn) <= (w - mn) / (mx - mn).
Proof.
  intros Hlt Hvw.
  assert (Hpos : 0 < mx - mn) by (unfold Qminus; by rewrite <- Qlt_minus_iff).
  unfold Qdiv. apply Qmult_le_compat_r.
  - unfold Qminus. by apply Qplus_le_l.
  - apply Qlt_le_weak, Qinv_lt_0_compat, Hpos.
Qed.

(** X2.  In a group whose present review densities are not all equal, both
    scripts put the rows on one scale: the row with the lowest density gets
    0, the row with the highest gets 1, and a row with a density that is not
    lower than another row's gets a value that is not lower. *)
Theorem norm_review_density_scale keys density i j k v w :
  keys !! i = Some k -> keys !! j = Some k ->
  nth i density None = Some v -> nth j density None = Some w ->
  let present := dropna (group_values keys density k) in
  ~ all_equal present ->
  exists qi qj,
    norm_review_density_bs keys density !! i = Some (Fin qi) /\
    norm_review_density_ms keys density !! i = Some (Fin qi) /\
    norm_review_density_bs keys density !! j = Some (Fin qj) /\
    norm_review_density_ms keys density !! j = Some (Fin qj) /\
    (v <= w -> qi <= qj) /\
    ((forall y, In y present -> v <= y) -> qi == 0) /\
    ((forall y, In y present -> y <= w) -> qj == 1).
Proof.
  intros Hi Hj Hv Hw present Hne.
  rewrite (norm_review_density_bs_row _ _ _ _ Hi),
          (norm_review_density_ms_row _ _ _ _ Hi),
          (norm_review_density_bs_row _ _ _ _ Hj),
          (norm_review_density_ms_row _ _ _ _ Hj), Hv, Hw.
  fold present.
  assert (Hvin : In v present)
    by (apply (present_in_group keys density i k v Hi); by apply nth_Some_lookup).
  assert (Hwin : In w present)
    by (apply (present_in_group keys density j k w Hj); by apply nth_Some_lookup).
  clearbody present. destruct present as [|v0 vs]; [done|].
  destruct (norm_value_formula v0 vs v Nan Hne) as (Hlt & Ebs & Ems).
  destruct (norm_value_formula v0 vs w Nan Hne) as (_ & Ebs' & Ems').
  rewrite Ebs, Ems, Ebs', Ems'.
  set (mn := qmin_list v0 vs) in *. set (mx := qmax_list v0 vs) in *.
  assert (Hpos : 0 < mx - mn) by (unfold Qminus; by rewrite <- Qlt_minus_iff).
  assert (Hnz : ~ mx - mn == 0)
    by (intros E; rewrite E in Hpos; by apply Qlt_irrefl in Hpos).
  eexists _, _. repeat split; try reflexivity.
  - by apply scaled_le.
  - intros Hmin.
    assert (E : v == mn).
    { apply Qle_antisym; [apply Hmin, qmin_list_in|].
      by apply between_min_max. }
    rewrite E. unfold Qminus. rewrite Qplus_opp_r. unfold Qdiv. apply Qmult_0_l.
  - intros Hmax.
    assert (E : w == mx).
    { apply Qle_antisym; [by apply between_min_max | apply Hmax, qmax_list_in]. }
    rewrite E. unfold Qdiv. by apply Qmult_inv_r.
Qed.

(** Three rows of one group with the densities 1, 3 and 2. *)
Lemma norm_review_density_scale_witness :
  let keys := repeat (Some (U "Toys")) 3 in
  let density := [Some 1; Some 3; Some 2] in
  exists qi qj,
    norm_review_density_bs keys density !! 0%nat = Some (Fin qi) /\
    norm_review_density_ms keys density !! 1%nat = Some (Fin qj) /\
    qi == 0 /\ qj == 1.
Proof.
  intros keys density.
  destruct (norm_review_density_scale keys density 0 1 (Some (U "Toys")) 1 3
              eq_refl eq_refl eq_refl eq_refl)
    as (qi & qj & H1 & _ & _ & H4 & _ & H0 & H1').
  - intros H. specialize (H 1 3). vm_compute in H.
    assert (E : 1%Z = 3%Z) by (apply H; tauto). discriminate E.
  - exists qi, qj. split; [exact H1|]. split; [exact H4|]. split.
    + apply H0. intros y Hy. vm_compute in Hy.
      destruct Hy as [<-|[<-|[<-|[]]]]; discriminate.
    + apply H1'. intros y Hy. vm_compute in Hy.
      destruct Hy as [<-|[<-|[<-|[]]]]; discriminate.
Defined.

(** ** Percentiles and price segments *)

Lemma sorted_nth (s : list Q) :
  Sorted Qle s -> forall i j, (i <= j < length s)%nat -> nth i s 0 <= nth j s 0.
Proof.
  intros Hs. apply Sorted_StronglySorted in Hs; [|intros x y z; apply Qle_trans].
  induction Hs as [|x l Hl IH Hx]; intros i j [Hij Hj]; simpl in *; [lia|].
  destruct i, j; try lia.
  - apply Qle_refl.
  - rewrite List.Forall_forall in Hx. apply Hx, nth_In. lia.
  - apply IH. lia.
Qed.

Lemma quantile_position (q : Q) (n : nat) :
  0 <= q <= 1 -> (0 < n)%nat ->
  let h := q * inject_Z (Z.of_nat (n - 1)) in
  (0 <= Qfloor h)%Z /\ (Z.to_nat (Qfloor h) <= n - 1)%nat /\
  0 <= h - inject_Z (Qfloor h) /\ h - inject_Z (Qfloor h) < 1.
Proof.
  intros [Hq0 Hq1] Hn h.
  set (m := inject_Z (Z.of_nat (n - 1))) in *.
  assert (Hm : 0 <= m) by (unfold m; change 0 with (inject_Z 0); rewrite <- Zle_Qle; lia).
  assert (Hh0 : 0 <= h) by (by apply Qmult_le_0_compat).
  assert (Hhm : h <= m).
  { unfold h. rewrite <- (Qmult_1_l m) at 2. by apply Qmult_le_compat_r. }
  assert (Hf0 : (0 <= Qfloor h)%Z).
  { change 0%Z with (Qfloor 0). by apply Qfloor_resp_le. }
  assert (Hfm : (Qfloor h <= Z.of_nat (n - 1))%Z).
  { rewrite <- (Qfloor_Z (Z.of_nat (n - 1))). by apply Qfloor_resp_le. }
  split; [exact Hf0|]. split; [lia|].
  pose proof (Qfloor_le h) as H1. pose proof (Qlt_floor h) as H2.
  rewrite inject_Z_plus in H2. change (inject_Z 1) with 1 in H2.
  split; lra.
Qed.

(** The two neighbours that [quantile] joins are values of the series, the
    second is not smaller than the first, and the weight is in [0, 1). *)
Lemma quantile_shape (q : Q) (series : list (option Q)) :
  0 <= q <= 1 -> dropna series <> [] ->
  exists a b g,
    quantile q series = a + (b - a) * g /\
    In a (dropna series) /\ In b (dropna series) /\ a <= b /\ 0 <= g /\ g < 1.
Proof.
  intros Hq Hne. unfold quantile.
  set (s := sort_values (dropna series)).
  assert (Hlen : (0 < length s)%nat).
  { unfold s. rewrite (Permutation_length (sort_values_perm _)).
    destruct (dropna series); [done | simpl; lia]. }
  destruct (quantile_position q (length s) Hq Hlen) as (Hf0 & Hlo & Hg0 & Hg1).
  set (h := q * inject_Z (Z.of_nat (length s - 1))) in *.
  eexists _, _, _. split; [reflexivity|].
  assert (Hin : forall i, (i < length s)%nat -> In (nth i s 0) (dropna series)).
  { intros i Hi. apply (Permutation_in _ (sort_values_perm _)). by apply nth_In. }
  split; [apply Hin; lia|]. split; [apply Hin; lia|]. split; [|done].
  apply sorted_nth; [apply sort_values_sorted | lia].
Qed.

Lemma quantile_between (q : Q) (series : list (option Q)) (lo hi : Q) :
  0 <= q <= 1 -> dropna series <> [] ->
  (forall y, In y (dropna series) -> lo <= y <= hi) ->
  lo <= quantile q series <= hi.
Proof.
  intros Hq Hne Hb.
  destruct (quantile_shape q series Hq Hne) as (a & b & g & -> & Ha & Hb' & Hab & Hg0 & Hg1).
  destruct (Hb a Ha), (Hb b Hb'). split; nra.
Qed.

(** X3.  A percentile of the prices of a group lies between the lowest and
    the highest price of the group, and a higher percentile is never below a
    lower one; so the 25th percentile, the limit of the segment Low, is never
    above the 75th, the limit of Mid. *)
Theorem quantile_monotone (q1 q2 : Q) (series : list (option Q)) :
  0 <= q1 -> q1 <= q2 -> q2 <= 1 ->
  quantile q1 series <= quantile q2 series /\
  forall v vs, dropna series = v :: vs ->
    qmin_list v vs <= quantile q1 series /\ quantile q2 series <= qmax_list v vs.
Proof.
  intros H0 H12 H1. split.
  - unfold quantile.
    set (s := sort_values (dropna series)).
    destruct (Nat.eq_dec (length s) 0%nat) as [E|Hlen].
    + destruct s; [|done]. simpl. destruct (Z.to_nat _), (Z.to_nat _); simpl; lra.
    + assert (Hq1 : 0 <= q1 <= 1) by (split; lra).
      assert (Hq2 : 0 <= q2 <= 1) by (split; lra).
      destruct (quantile_position q1 (length s) Hq1 ltac:(lia)) as (Hf1 & Hlo1 & Hg1 & Hg1').
      destruct (quantile_position q2 (length s) Hq2 ltac:(lia)) as (Hf2 & Hlo2 & Hg2 & Hg2').
      set (m := inject_Z (Z.of_nat (length s - 1))) in *.
      assert (Hm : 0 <= m)
        by (unfold m; change 0 with (inject_Z 0); rewrite <- Zle_Qle; lia).
      assert (Hh : q1 * m <= q2 * m) by (by apply Qmult_le_compat_r).
      set (h1 := q1 * m) in *. set (h2 := q2 * m) in *.
      assert (Hf : (Qfloor h1 <= Qfloor h2)%Z) by (by apply Qfloor_resp_le).
      pose proof (sort_values_sorted (dropna series)) as Hs. fold s in Hs.
      pose proof (sorted_nth s Hs) as Hnth.
      set (lo1 := Z.to_nat (Qfloor h1)) in *. set (lo2 := Z.to_nat (Qfloor h2)) in *.
      assert (Ha1 : nth lo1 s 0 <= nth (Nat.min (lo1 + 1) (length s - 1)) s 0)
        by (apply Hnth; lia).
      assert (Ha2 : nth lo2 s 0 <= nth (Nat.min (lo2 + 1) (length s - 1)) s 0)
        by (apply Hnth; lia).
      destruct (Z.eq_dec (Qfloor h1) (Qfloor h2)) as [E|Hneq].
      * assert (El : lo1 = lo2) by (unfold lo1, lo2; by rewrite E).
        rewrite <- El in *. rewrite <- E.
        set (a := nth lo1 s 0) in *. set (b := nth _ s 0) in *.
        set (f := inject_Z (Qfloor h1)) in *. nra.
      * assert (Hlt : (lo1 + 1 <= lo2)%nat) by (unfold lo1, lo2; lia).
        assert (Hmid : nth (Nat.min (lo1 + 1) (length s - 1)) s 0 <= nth lo2 s 0)
          by (apply Hnth; lia).
        set (a1 := nth lo1 s 0) in *. set (b1 := nth (Nat.min (lo1 + 1) _) s 0) in *.
        set (a2 := nth lo2 s 0) in *. set (b2 := nth (Nat.min (lo2 + 1) _) s 0) in *.
        set (g1 := h1 - inject_Z (Qfloor h1)) in *.
        set (g2 := h2 - inject_Z (Qfloor h2)) in *.
        nra.
  - intros v vs E.
    assert (Hne : dropna series <> []) by (by rewrite E).
    assert (Hb : forall y, In y (dropna series) -> qmin_list v vs <= y <= qmax_list v vs)
      by (intros y; rewrite E; apply between_min_max).
    split.
    + apply (quantile_between q1 series _ _ ltac:(split; lra) Hne Hb).
    + apply (quantile_between q2 series _ _ ltac:(split; lra) Hne Hb).
Qed.

Lemma quantile_monotone_witness :
  quantile (1 # 4) [Some 4; None; Some 1; Some 3; Some 2] <=
  quantile (3 # 4) [Some 4; None; Some 1; Some 3; Some 2].
Proof.
  refine (proj1 (quantile_monotone (1 # 4) (3 # 4) _ _ _ _)); by vm_compute.
Defined.

Lemma classify_level (q1 q2 v w : Q) :
  v <= w ->
  (1 <= segment_level (classify q1 q2 (Some v)) <=
   segment_level (classify q1 q2 (Some w)))%nat.
Proof.
  intros Hvw. unfold classify.
  destruct (Qle_bool w q1) eqn:W1.
  - apply Qle_bool_iff in W1.
    assert (V1 : Qle_bool v q1 = true) by (apply Qle_bool_iff; lra).
    rewrite V1. simpl. lia.
  - destruct (Qle_bool w q2) eqn:W2.
    + apply Qle_bool_iff in W2.
      assert (V2 : Qle_bool v q2 = true) by (apply Qle_bool_iff; lra).
      rewrite V2. destruct (Qle_bool v q1); simpl; lia.
    + repeat destruct (Qle_bool v _); simpl; lia.
Qed.

Lemma segment_value_priced ql qh (grp : list (option Q)) (v : Q) :
  In v (dropna grp) ->
  segment_value ql qh grp (Some v) = classify (quantile ql grp) (quantile qh grp) (Some v).
Proof.
  intros Hin. unfold segment_value.
  destruct (forallb is_missing grp) eqn:E; [|done].
  apply all_missing_dropna in E. rewrite E in Hin. destruct Hin.
Qed.

(** X4.  Within a group the price segments follow the prices: of two rows
    with a price, the row whose price is not higher never gets the higher
    segment, and neither of them is unknown. *)
Theorem price_segment_follows_price keys price i j k v w :
  keys !! i = Some k -> keys !! j = Some k ->
  nth i price None = Some v -> nth j price None = Some w ->
  v <= w ->
  exists si sj,
    price_segment_by_category keys price !! i = Some si /\
    price_segment_by_category keys price !! j = Some sj /\
    (1 <= segment_level si <= segment_level sj)%nat.
Proof.
  intros Hi Hj Hv Hw Hvw.
  rewrite (price_segment_row _ _ _ _ Hi), (price_segment_row _ _ _ _ Hj), Hv, Hw.
  rewrite (segment_value_priced _ _ _ v), (segment_value_priced _ _ _ w);
    [| apply (present_in_group keys price j k w Hj); by apply nth_Some_lookup
     | apply (present_in_group keys price i k v Hi); by apply nth_Some_lookup].
  eexists _, _. split; [reflexivity|]. split; [reflexivity|].
  by apply classify_level.
Qed.

Lemma price_segment_follows_price_witness :
  let keys := repeat (Some (U "Toys")) 4 in
  let price := [Some 4; Some 1; None; Some 2] in
  exists si sj,
    price_segment_by_category keys price !! 3%nat = Some si /\
    price_segment_by_category keys price !! 0%nat = Some sj /\
    (1 <= segment_level si <= segment_level sj)%nat.
Proof.
  intros keys price.
  apply (price_segment_follows_price keys price 3 0 (Some (U "Toys")) 2 4);
    by vm_compute.
Defined.

(** X5.  The row with the lowest price of its group is always in the segment
    Low; in particular every priced row of a group with one single price is
    Low, and the segment High needs a price above the lowest of the group. *)
Theorem cheapest_row_is_low keys price i k v :
  keys !! i = Some k -> nth i price None = Some v ->
  (forall y, In y (dropna (group_values keys price k)) -> v <= y) ->
  price_segment_by_category keys price !! i = Some Low.
Proof.
  intros Hi Hv Hmin.
  assert (Hin : In v (dropna (group_values keys price k)))
    by (eapply present_in_group; [eassumption | by apply nth_Some_lookup]).
  rewrite (price_segment_row _ _ _ _ Hi), Hv, (segment_value_priced _ _ _ _ Hin).
  set (grp := group_values keys price k) in *.
  destruct (dropna grp) as [|v0 vs] eqn:E; [done|].
  destruct (quantile_between (1 # 4) grp v (qmax_list v0 vs)) as [Hlow _].
  { split; lra. }
  { by rewrite E. }
  { intros y Hy. rewrite E in Hy. split; [by apply Hmin | by apply between_min_max]. }
  unfold classify.
  assert (Hq : Qle_bool v (quantile (1 # 4) grp) = true) by (apply Qle_bool_iff; lra).
  by rewrite Hq.
Qed.

Lemma cheapest_row_is_low_witness :
  price_segment_by_category (repeat (Some (U "Toys")) 4)
    [Some 4; Some 1; None; Some 2] !! 1%nat = Some Low.
Proof.
  apply (cheapest_row_is_low _ _ 1 (Some (U "Toys")) 1); [reflexivity..|].
  intros y Hy. vm_compute in Hy. destruct Hy as [<-|[<-|[<-|[]]]]; discriminate.
Defined.

(** * Further properties of the parsers *)

(** ** Numeric tokens *)

Lemma digit_not_hyphen (c : char) : is_digit c = true -> (c =? 45)%N = false.
Proof. intros H. destruct (N.eqb_spec c 45) as [->|]; [discriminate H | done]. Qed.

Lemma digit_not_point (c : char) : is_digit c = true -> (c =? 46)%N = false.
Proof. intros H. destruct (N.eqb_spec c 46) as [->|]; [discriminate H | done]. Qed.

Lemma span_digits_run (d r : pystr) :
  forallb is_digit d = true ->
  (forall c, head r = Some c -> is_digit c = false) ->
  span_digits (d ++ r) = (d, r).
Proof.
  intros Hd Hr. induction d as [|c d IH]; simpl.
  - destruct r as [|c r]; [done|]. simpl. by rewrite (Hr c eq_refl).
  - simpl in Hd. apply andb_true_iff in Hd as [Hc Hd]. by rewrite Hc, IH.
Qed.

(** [float] of the text of a numeric token is its decimal value. *)
Lemma py_float_token (d f : pystr) :
  d <> [] -> forallb is_digit d = true -> forallb is_digit f = true ->
  py_float (token_text (d, f)) = Some (decimal d f).
Proof.
  intros Hne Hd Hf. destruct d as [|c d]; [done|].
  pose proof Hd as Hd'. simpl in Hd'. apply andb_true_iff in Hd' as [Hc _].
  unfold py_float, token_text. destruct f as [|c2 f].
  - cbn beta iota. rewrite (digit_not_hyphen c Hc).
    pose proof (span_digits_run (c :: d) [] Hd) as E. rewrite app_nil_r in E.
    rewrite E by done. done.
  - change ((c :: d) ++ 46%N :: c2 :: f) with (c :: (d ++ 46%N :: c2 :: f)).
    cbn beta iota. rewrite (digit_not_hyphen c Hc).
    change (c :: (d ++ 46%N :: c2 :: f)) with ((c :: d) ++ 46%N :: c2 :: f).
    rewrite (span_digits_run (c :: d) (46%N :: c2 :: f) Hd)
      by (by intros ? [= <-]).
    change (46 =? 46)%N with true. rewrite Hf. done.
Qed.

Lemma py_float_signed (c : char) (t : pystr) :
  (c =? 45)%N = false ->
  py_float (45%N :: c :: t) = Qopp <$> py_float (c :: t).
Proof.
  intros Hc. unfold py_float. change (45 =? 45)%N with true. cbn beta iota.
  rewrite Hc. destruct (span_digits (c :: t)) as [ip r].
  destruct r as [|c0 fp].
  - by destruct (str_eqb ip []).
  - by destruct (_ && _).
Qed.

Lemma py_float_signed_token (d f : pystr) :
  d <> [] -> forallb is_digit d = true -> forallb is_digit f = true ->
  py_float (45%N :: token_text (d, f)) = Some (- decimal d f).
Proof.
  intros Hne Hd Hf. pose proof (py_float_token d f Hne Hd Hf) as H.
  destruct d as [|c d]; [done|].
  pose proof Hd as Hd'. simpl in Hd'. apply andb_true_iff in Hd' as [Hc _].
  unfold token_text in *. destruct f as [|c2 f].
  - by rewrite (py_float_signed c d (digit_not_hyphen c Hc)), H.
  - change ((c :: d) ++ 46%N :: c2 :: f) with (c :: (d ++ 46%N :: c2 :: f)) in *.
    by rewrite (py_float_signed c _ (digit_not_hyphen c Hc)), H.
Qed.

Lemma decimal_nonneg (ip fp : pystr) : 0 <= decimal ip fp.
Proof.
  unfold decimal, Qle. simpl. pose proof (dec_value_nonneg (ip ++ fp)). lia.
Qed.

Lemma digits_snoc (d : pystr) (c : char) :
  forallb is_digit d = true -> is_digit c = true ->
  forallb is_digit (d ++ [c]) = true.
Proof. intros Hd Hc. rewrite forallb_app, Hd. simpl. by rewrite Hc. Qed.

Lemma snoc_nonempty {A} (l : list A) (x : A) : l ++ [x] <> [].
Proof. by destruct l. Qed.

Lemma state_ok_step (st : tok_state) (c : char) :
  state_ok st -> is_digit c = true ->
  state_ok match st with
           | Idle => InInt [c]
           | InInt d => InInt (d ++ [c])
           | AfterDot d => InFrac d [c]
           | InFrac d f => InFrac d (f ++ [c])
           end.
Proof.
  intros Hst Hc. destruct st as [|d|d|d f]; unfold state_ok, token_ok in *; simpl in *.
  - by rewrite Hc.
  - destruct Hst as (Hne & Hd & _).
    repeat split; [apply snoc_nonempty | by apply digits_snoc].
  - destruct Hst as (Hne & Hd & _). repeat split; try done. by rewrite Hc.
  - destruct Hst as ((Hne & Hd & Hf) & Hf').
    repeat split; [done | done | by apply digits_snoc | apply snoc_nonempty].
Qed.

Lemma findall_numbers_ok (s : pystr) (st : tok_state) (tk : pystr * pystr) :
  state_ok st -> In tk (findall_numbers_from st s) -> token_ok tk.
Proof.
  revert st. induction s as [|c s IH]; intros st Hst Hin.
  - destruct st; simpl in *; [done|..]; destruct Hin as [<-|[]];
      first [exact Hst | exact (proj1 Hst)].
  - pose proof (state_ok_step st c Hst) as Hstep.
    destruct st as [|d|d|d f]; cbn [findall_numbers_from] in Hin;
      destruct (is_digit c) eqn:Ec;
      try (apply (IH _) in Hin; [done | by apply Hstep]).
    + by apply (IH Idle) in Hin.
    + destruct (c =? 46)%N.
      * by apply (IH (AfterDot d)) in Hin.
      * destruct Hin as [<-|Hin]; [exact Hst | by apply (IH Idle)].
    + destruct Hin as [<-|Hin]; [exact Hst | by apply (IH Idle)].
    + destruct Hin as [<-|Hin]; [exact (proj1 Hst) | by apply (IH Idle)].
Qed.

(** X6.  Movers and shakers never reads a negative price: what it returns
    is the value of a numeric token, and a minus sign is not part of a
    token. *)
Theorem parse_price_ms_never_negative (p : cell) (q : Q) :
  parse_price_ms p = Some q -> 0 <= q.
Proof.
  destruct p as [p| | | |]; try done. unfold parse_price_ms.
  destruct (str_eqb (strip p) []); [done|].
  destruct (last _) as [[d f]|] eqn:E; [|done].
  apply last_Some_elem_of, list_elem_of_In in E.
  apply (findall_numbers_ok _ Idle) in E as (Hne & Hd & Hf); [|done].
  simpl in Hne, Hd, Hf. rewrite (py_float_token d f Hne Hd Hf). intros [= <-].
  apply decimal_nonneg.
Qed.

Lemma parse_price_ms_never_negative_witness :
  0 <= 12.50 /\ parse_price_ms (Str (U "-12.50")) = Some 12.50.
Proof.
  split; [|reflexivity].
  apply (parse_price_ms_never_negative (Str (U "-12.50")) 12.50). reflexivity.
Defined.

(** ** Ratings *)

Lemma search_decimal_none (s : pystr) :
  (forall c, In c s -> is_digit c = false) -> search_decimal_from Idle s = None.
Proof.
  induction s as [|c s IH]; intros H; [done|]. simpl.
  rewrite (H c) by (by left). apply IH. intros x Hx. apply H. by right.
Qed.

Lemma search_decimal_ok (s : pystr) (st : tok_state) (d f : pystr) :
  state_ok st -> search_decimal_from st s = Some (d, f) ->
  token_ok (d, f) /\ f <> [] /\
  (In 46%N s \/ match st with AfterDot _ | InFrac _ _ => True | _ => False end).
Proof.
  revert st. induction s as [|c s IH]; intros st Hst H.
  - destruct st; try done. simpl in H. injection H as <- <-.
    destruct Hst as [Htk Hf]. split; [exact Htk|]. split; [exact Hf | by right].
  - pose proof (state_ok_step st c Hst) as Hstep.
    destruct st as [|d0|d0|d0 f0]; cbn [search_decimal_from] in H;
      destruct (is_digit c) eqn:Ec.
    + apply IH in H as (Htk & Hf & Hin); [|by apply Hstep].
      split; [exact Htk|]. split; [exact Hf|]. destruct Hin as [?|[]]. left. by right.
    + apply IH in H as (Htk & Hf & Hin); [|done].
      split; [exact Htk|]. split; [exact Hf|]. destruct Hin as [?|[]]. left. by right.
    + apply IH in H as (Htk & Hf & Hin); [|by apply Hstep].
      split; [exact Htk|]. split; [exact Hf|]. destruct Hin as [?|[]]. left. by right.
    + destruct (N.eqb_spec c 46) as [->|_].
      * apply IH in H as (Htk & Hf & _); [|exact Hst].
        split; [exact Htk|]. split; [exact Hf|]. left. by left.
      * apply IH in H as (Htk & Hf & Hin); [|done].
        split; [exact Htk|]. split; [exact Hf|]. destruct Hin as [?|[]]. left. by right.
    + apply IH in H as (Htk & Hf & _); [|by apply Hstep].
      split; [exact Htk|]. split; [exact Hf|]. by right.
    + apply IH in H as (Htk & Hf & Hin); [|done].
      split; [exact Htk|]. split; [exact Hf|]. by right.
    + apply IH in H as (Htk & Hf & _); [|by apply Hstep].
      split; [exact Htk|]. split; [exact Hf|]. by right.
    + injection H as <- <-. destruct Hst as [Htk Hf].
      split; [exact Htk|]. split; [exact Hf | by right].
Qed.

Lemma search_decimal_skip (pre s : pystr) :
  (forall c, In c pre -> is_digit c = false) ->
  search_decimal_from Idle (pre ++ s) = search_decimal_from Idle s.
Proof.
  induction pre as [|c pre IH]; intros H; [done|]. simpl.
  rewrite (H c) by (by left). apply IH. intros x Hx. apply H. by right.
Qed.

Lemma search_decimal_int_run (d acc r : pystr) :
  forallb is_digit d = true ->
  search_decimal_from (InInt acc) (d ++ r) = search_decimal_from (InInt (acc ++ d)) r.
Proof.
  revert acc. induction d as [|c d IH]; intros acc Hd; simpl.
  - by rewrite app_nil_r.
  - simpl in Hd. apply andb_true_iff in Hd as [Hc Hd].
    rewrite Hc, IH by done. by rewrite <- app_assoc.
Qed.

Lemma search_decimal_frac_run (d f acc r : pystr) :
  forallb is_digit f = true ->
  search_decimal_from (InFrac d acc) (f ++ r) =
  search_decimal_from (InFrac d (acc ++ f)) r.
Proof.
  revert acc. induction f as [|c f IH]; intros acc Hf; simpl.
  - by rewrite app_nil_r.
  - simpl in Hf. apply andb_true_iff in Hf as [Hc Hf].
    rewrite Hc, IH by done. by rewrite <- app_assoc.
Qed.

Lemma search_decimal_found (pre d f post : pystr) :
  (forall c, In c pre -> is_digit c = false) ->
  d <> [] -> forallb is_digit d = true ->
  f <> [] -> forallb is_digit f = true ->
  (forall c, head post = Some c -> is_digit c = false) ->
  search_decimal_from Idle (pre ++ d ++ 46%N :: f ++ post) = Some (d, f).
Proof.
  intros Hpre Hne Hd Hnf Hf Hpost. rewrite (search_decimal_skip pre _ Hpre).
  destruct d as [|c d]; [done|]. destruct f as [|c2 f]; [done|].
  simpl in Hd, Hf. apply andb_true_iff in Hd as [Hc Hd].
  apply andb_true_iff in Hf as [Hc2 Hf].
  change ((c :: d) ++ 46%N :: (c2 :: f) ++ post)
    with (c :: (d ++ 46%N :: c2 :: (f ++ post))).
  cbn [search_decimal_from]. rewrite Hc.
  rewrite (search_decimal_int_run d [c] _ Hd).
  cbn [search_decimal_from]. change (is_digit 46%N) with false.
  change (46 =? 46)%N with true. cbn iota. rewrite Hc2.
  rewrite (search_decimal_frac_run _ f [c2] post Hf).
  destruct post as [|x post]; [done|].
  cbn [search_decimal_from]. by rewrite (Hpost x eq_refl).
Qed.

(** X7.  The two rating parsers agree on every string.  What they return is
    never negative, and a text without a decimal point has no rating: the
    pattern asks for digits, a point and digits. *)
Theorem parse_rating_same (r : pystr) :
  parse_rating_ms (Str r) = parse_rating_bs r /\
  (forall q, parse_rating_bs r = Some q -> 0 <= q /\ In 46%N r) /\
  (~ In 46%N r -> parse_rating_bs r = None).
Proof.
  assert (Hq : forall q, parse_rating_bs r = Some q -> 0 <= q /\ In 46%N r).
  { intros q. unfold parse_rating_bs. destruct (str_eqb r []); [done|].
    destruct (search_decimal_from Idle r) as [[d f]|] eqn:E; [|done].
    apply search_decimal_ok in E as ((Hne & Hd & Hf) & _ & [Hin|[]]); [|done].
    simpl in Hne, Hd, Hf. rewrite (py_float_token d f Hne Hd Hf). intros [= <-].
    split; [apply decimal_nonneg | done]. }
  split; [|split; [exact Hq|]].
  - unfold parse_rating_ms, parse_rating_bs.
    destruct (str_eqb (strip r) []) eqn:E.
    + apply str_eqb_nil, strip_blank in E. rewrite forallb_forall in E.
      rewrite search_decimal_none; [by destruct (str_eqb r [])|].
      intros c Hc. destruct (is_digit c) eqn:Ec; [|done].
      apply digit_not_space in Ec. by rewrite (E c Hc) in Ec.
    + destruct (str_eqb r []) eqn:E2; [|done].
      apply str_eqb_nil in E2. by subst r.
  - intros Hno. destruct (parse_rating_bs r) as [q|] eqn:E; [|done].
    by destruct Hno, (Hq q eq_refl).
Qed.

Lemma parse_rating_same_witness :
  parse_rating_bs (U "5 out of 5 stars") = None.
Proof.
  apply (proj2 (proj2 (parse_rating_same (U "5 out of 5 stars")))).
  vm_compute. intuition discriminate.
Defined.

(** X8.  A rating text whose first digits are a decimal number (digits, a
    point, digits, then no further digit at once) is read as that number by
    both scripts, whatever text surrounds it. *)
Theorem parse_rating_reads_decimal (pre d f post : pystr) :
  (forall c, In c pre -> is_digit c = false) ->
  d <> [] -> forallb is_digit d = true ->
  f <> [] -> forallb is_digit f = true ->
  (forall c, head post = Some c -> is_digit c = false) ->
  let r := pre ++ d ++ 46%N :: f ++ post in
  parse_rating_bs r = Some (decimal d f) /\
  parse_rating_ms (Str r) = Some (decimal d f).
Proof.
  intros Hpre Hne Hd Hnf Hf Hpost r.
  assert (Hin : In 46%N r) by (unfold r; rewrite !in_app_iff; right; right; by left).
  assert (Hr : str_eqb r [] = false).
  { destruct (str_eqb r []) eqn:E; [|done]. apply str_eqb_nil in E.
    rewrite E in Hin. destruct Hin. }
  assert (Hs : str_eqb (strip r) [] = false).
  { destruct (str_eqb (strip r) []) eqn:E; [|done]. apply str_eqb_nil in E.
    assert (H : In 46%N (strip r)) by (by apply strip_keeps).
    rewrite E in H. destruct H. }
  unfold parse_rating_bs, parse_rating_ms. rewrite Hr, Hs. unfold r.
  rewrite (search_decimal_found pre d f post) by done.
  by rewrite (py_float_token d f Hne Hd Hf).
Qed.

Lemma parse_rating_reads_decimal_witness :
  parse_rating_bs (U "Rated 4.5 out of 5 stars") = Some 4.5 /\
  parse_rating_ms (Str (U "Rated 4.5 out of 5 stars")) = Some 4.5.
Proof.
  apply (parse_rating_reads_decimal (U "Rated ") (U "4") (U "5") (U " out of 5 stars"));
    try done.
  - intros c Hc. vm_compute in Hc.
    repeat (destruct Hc as [<-|Hc]; [reflexivity|]). destruct Hc.
  - by intros c [= <-].
Defined.

(** ** Floats of movers and shakers *)

Lemma span_digits_spec (s ip r : pystr) :
  span_digits s = (ip, r) -> s = ip ++ r /\ forallb is_digit ip = true.
Proof.
  revert ip r. induction s as [|c s IH]; intros ip r H; simpl in H.
  - by injection H as <- <-.
  - destruct (is_digit c) eqn:Ec.
    + destruct (span_digits s) as [d r'] eqn:E. injection H as <- <-.
      destruct (IH d r' eq_refl) as [-> Hd]. simpl. by rewrite Ec.
    + by injection H as <- <-.
Qed.

(** [float] accepts a hyphen in front only. *)
Lemma py_float_no_inner_hyphen (c : char) (t : pystr) (q : Q) :
  py_float (c :: t) = Some q -> ~ In 45%N t.
Proof.
  unfold py_float. intros H Hin.
  assert (Hbody : exists body,
            In 45%N body /\
            (let '(ip, r) := span_digits body in
             match r with
             | [] => if str_eqb ip [] then None else Some (decimal ip [])
             | c :: fp =>
                 if (c =? 46)%N && forallb is_digit fp && negb (str_eqb (ip ++ fp) [])
                 then Some (decimal ip fp) else None
             end) <> None).
  { destruct (c =? 45)%N.
    - exists t. split; [done|]. intros E. destruct (span_digits t).
      by rewrite E in H.
    - exists (c :: t). split; [by right|]. intros E. destruct (span_digits (c :: t)).
      by rewrite E in H. }
  destruct Hbody as (body & Hb & Hok).
  destruct (span_digits body) as [ip r] eqn:E.
  apply span_digits_spec in E as [-> Hip].
  assert (Hno : forall l, forallb is_digit l = true -> ~ In 45%N l).
  { intros l Hl Hl'. rewrite forallb_forall in Hl. by specialize (Hl _ Hl'). }
  apply in_app_or in Hb as [Hb|Hb]; [by apply (Hno ip)|].
  destruct r as [|c0 fp]; [done|].
  destruct (N.eqb_spec c0 46) as [->|]; [|done]. simpl in Hok.
  destruct (forallb is_digit fp) eqn:Efp; [|done].
  destruct Hb as [Hb|Hb]; [done | by apply (Hno fp)].
Qed.

(** X9.  [parse_float] keeps the digits, the points and the hyphens of a
    text and converts what is left: when that is a number with an optional
    hyphen in front, the text is read as that number, whatever else it
    holds (a percent sign, a plus sign, thousands separators, words); a
    hyphen after the first kept character makes the value missing. *)
Theorem parse_float_reads (s : pystr) :
  let kept := List.filter (fun c => is_digit c || (c =? 46)%N || (c =? 45)%N) s in
  (forall (neg : bool) d f,
     kept = (if neg then [45%N] else []) ++ token_text (d, f) ->
     d <> [] -> forallb is_digit d = true -> forallb is_digit f = true ->
     parse_float (Str s) = Some (if neg then - decimal d f else decimal d f)) /\
  (forall a b, kept = a ++ 45%N :: b -> a <> [] -> parse_float (Str s) = None).
Proof.
  intros kept. split.
  - intros neg d f E Hne Hd Hf.
    assert (Hs : str_eqb (strip s) [] = false).
    { destruct d as [|c d]; [done|]. simpl in Hd.
      apply andb_true_iff in Hd as [Hc _].
      assert (Hin : In c kept).
      { rewrite E. apply in_or_app. right. unfold token_text.
        destruct f; [by left | apply in_or_app; left; by left]. }
      apply filter_In in Hin as [Hin _].
      pose proof (strip_keeps s c Hin (digit_not_space c Hc)) as Hin'.
      destruct (str_eqb (strip s) []) eqn:Es; [|done].
      apply str_eqb_nil in Es. rewrite Es in Hin'. destruct Hin'. }
    unfold parse_float. rewrite Hs. fold kept. rewrite E.
    destruct neg; simpl app.
    + by apply py_float_signed_token.
    + by apply py_float_token.
  - intros a b E Ha. unfold parse_float.
    destruct (str_eqb (strip s) []); [done|]. fold kept. rewrite E.
    destruct a as [|c a]; [done|].
    destruct (py_float ((c :: a) ++ 45%N :: b)) as [q|] eqn:Eq; [|done].
    apply py_float_no_inner_hyphen in Eq. destruct Eq.
    apply in_or_app. right. by left.
Qed.

Lemma parse_float_reads_witness :
  parse_float (Str (U "+1,250%")) = Some 1250 /\
  parse_float (Str (U "#12-15")) = None.
Proof.
  destruct (parse_float_reads (U "+1,250%")) as [H _].
  destruct (parse_float_reads (U "#12-15")) as [_ H'].
  split.
  - exact (H false (U "1250") [] eq_refl ltac:(discriminate) eq_refl eq_refl).
  - exact (H' (U "12") (U "15") eq_refl ltac:(discriminate)).
Defined.

(** ** Review density *)

Lemma digit_val_zero (c : char) :
  is_digit c = true -> (0 <= digit_val c)%Z /\ (digit_val c = 0%Z <-> c = 48%N).
Proof.
  unfold is_digit, in_range, digit_val. intros H.
  apply andb_true_iff in H as [H1 H2]. apply N.leb_le in H1, H2. lia.
Qed.

Lemma fold_digits_pos (d : pystr) (acc : Z) :
  forallb is_digit d = true -> (0 <= acc)%Z ->
  (0 < fold_left (fun a c => a * 10 + digit_val c) d acc)%Z <->
  (0 < acc)%Z \/ exists c, In c d /\ c <> 48%N.
Proof.
  revert acc. induction d as [|c d IH]; intros acc Hd Hacc; simpl.
  - split; [by left|]. intros [?|(c & [] & _)]. done.
  - simpl in Hd. apply andb_true_iff in Hd as [Hc Hd].
    destruct (digit_val_zero c Hc) as [H0 Hz].
    rewrite IH by (done || lia). split.
    + intros [H|(x & Hx & Hne)]; [|right; exists x; by split; [right|]].
      destruct (decide (c = 48%N)) as [E|E].
      * left. apply Hz in E. lia.
      * right. exists c. by split; [left|].
    + intros [H|(x & [<-|Hx] & Hne)]; [left; lia| |right; by exists x].
      left. assert (digit_val c <> 0%Z) by (by rewrite Hz). lia.
Qed.

Lemma parse_int_ms_positive (s : pystr) :
  (exists z, parse_int_ms (Str s) = Some z /\ (0 < z)%Z) <->
  exists c, In c s /\ is_digit c = true /\ c <> 48%N.
Proof.
  rewrite parse_int_ms_spec. unfold parse_int_spec.
  pose proof (filter_digits_forall s) as Hd.
  pose proof (fold_digits_pos (List.filter is_digit s) 0 Hd ltac:(lia)) as Hp.
  fold (dec_value (List.filter is_digit s)) in Hp.
  assert (Hiff : (0 < dec_value (List.filter is_digit s))%Z <->
                 exists c, In c s /\ is_digit c = true /\ c <> 48%N).
  { rewrite Hp. split.
    - intros [?|(c & Hc & Hne)]; [lia|]. apply filter_In in Hc as [? ?]. by exists c.
    - intros (c & Hc & Hdc & Hne). right. exists c. split; [|done].
      by apply filter_In. }
  destruct (List.filter is_digit s) as [|c0 d0] eqn:E.
  - split; [by intros (z & ? & _)|]. rewrite <- Hiff. unfold dec_value. simpl. lia.
  - rewrite <- Hiff. split; [by intros (z & [= <-] & Hz)|]. intros Hz. by eexists.
Qed.

Lemma parse_int_ms_present (s : pystr) :
  is_Some (parse_int_ms (Str s)) <-> exists c, In c s /\ is_digit c = true.
Proof.
  rewrite parse_int_ms_spec. unfold parse_int_spec.
  destruct (List.filter is_digit s) as [|c0 d0] eqn:E.
  - split; [by intros [? ?]|]. intros (c & Hc & Hd).
    assert (H : In c (List.filter is_digit s)) by (by apply filter_In).
    rewrite E in H. destruct H.
  - split; [|by eexists]. intros _. exists c0.
    assert (H : In c0 (List.filter is_digit s)) by (rewrite E; by left).
    by apply filter_In in H.
Qed.

(** X10.  In movers and shakers the review density of a row is read off the
    text of its two cells: it is present exactly when the review count
    holds a digit and the rank holds a digit other than zero (so the rank is
    positive and no division by zero is made), and it is never negative,
    since the two counts are made of the digits of the cells. *)
Theorem review_density_ms_sign (a b : pystr) :
  let d := review_density (inject_Z <$> parse_int_ms (Str a))
             (inject_Z <$> parse_int_ms (Str b)) in
  (is_Some d <->
   (exists c, In c a /\ is_digit c = true) /\
   (exists c, In c b /\ is_digit c = true /\ c <> 48%N)) /\
  (forall q, d = Some q -> 0 <= q).
Proof.
  intros d. subst d.
  rewrite <- parse_int_ms_present, <- parse_int_ms_positive.
  assert (Hnn : forall z, parse_int_ms (Str a) = Some z -> (0 <= z)%Z).
  { intros z. rewrite parse_int_ms_spec. unfold parse_int_spec.
    destruct (List.filter is_digit a); [done|]. intros [= <-].
    apply dec_value_nonneg. }
  unfold review_density.
  destruct (parse_int_ms (Str a)) as [c|], (parse_int_ms (Str b)) as [r|]; simpl.
  - specialize (Hnn c eq_refl).
    destruct (Qltb 0 (inject_Z r)) eqn:E.
    + apply Qltb_lt in E. split.
      * split; [intros _|by eexists]. split; [by eexists|].
        exists r. split; [done|]. by rewrite Zlt_Qlt.
      * intros q [= <-]. apply Qle_shift_div_l; [done|]. rewrite Qmult_0_l.
        change 0 with (inject_Z 0). by rewrite <- Zle_Qle.
    + split; [|done]. split; [by intros [? ?]|].
      intros (_ & z & [= <-] & Hz). rewrite Zlt_Qlt in Hz.
      change (inject_Z 0) with 0 in Hz. apply Qltb_lt in Hz. congruence.
  - split; [|done]. split; [by intros [? ?]|]. by intros (_ & z & ? & _).
  - split; [|done]. split; [by intros [? ?]|]. by intros ([? ?] & _).
  - split; [|done]. split; [by intros [? ?]|]. by intros ([? ?] & _).
Qed.

(** A review count with a separator and a word, and a rank with a sign. *)
Lemma review_density_ms_sign_witness :
  is_Some (review_density (inject_Z <$> parse_int_ms (Str (U "1,234 ratings")))
             (inject_Z <$> parse_int_ms (Str (U "#2")))) /\
  0 <= 1234 # 2.
Proof.
  destruct (review_density_ms_sign (U "1,234 ratings") (U "#2")) as [H1 H2].
  split.
  - apply H1. split.
    + exists 49%N. split; [|reflexivity]. vm_compute. tauto.
    + exists 50%N. split; [|split; [reflexivity | discriminate]]. vm_compute. tauto.
  - apply H2. reflexivity.
Defined.

(** * Further properties of the frames *)

(** ** The renaming of the headers *)

Lemma lstrip_head (s : pystr) (c : char) :
  head (lstrip s) = Some c -> is_space c = false.
Proof.
  induction s as [|a s IH]; [done|]. simpl.
  destruct (is_space a) eqn:E; [exact IH|]. by intros [= <-].
Qed.

Lemma lstrip_idem (s : pystr) : lstrip (lstrip s) = lstrip s.
Proof. apply lstrip_fixed, lstrip_head. Qed.

Lemma rstrip_idem (s : pystr) : rstrip (rstrip s) = rstrip s.
Proof. unfold rstrip. by rewrite rev_involutive, lstrip_idem. Qed.

(** [rstrip] keeps a first character that is not whitespace. *)
Lemma rstrip_head (s : pystr) (c : char) :
  (forall x, head s = Some x -> is_space x = false) ->
  head (rstrip s) = Some c -> is_space c = false.
Proof.
  intros Hs Hc. unfold rstrip in Hc.
  destruct (lstrip_spec (rev s)) as (ws & E & Hws).
  assert (Es : s = rev (lstrip (rev s)) ++ rev ws).
  { rewrite <- rev_app_distr, <- E. by rewrite rev_involutive. }
  destruct (rev (lstrip (rev s))) as [|a p]; [done|].
  injection Hc as ->. apply Hs. by rewrite Es.
Qed.

Lemma strip_idem (s : pystr) : strip (strip s) = strip s.
Proof.
  unfold strip. rewrite (lstrip_fixed (rstrip (lstrip s))).
  - apply rstrip_idem.
  - intros c. apply rstrip_head. apply lstrip_head.
Qed.

Lemma canonical_bs_names (lc k : pystr) :
  canonical_bs lc = Some k -> In k canonical_names.
Proof.
  unfold canonical_bs. intros H.
  repeat match type of H with
         | (if ?b then _ else _) = _ => destruct b
         end;
    try discriminate H; injection H as <-; vm_compute; tauto.
Qed.

Lemma canonical_ms_names (lc k : pystr) :
  canonical_ms lc = Some k -> In k canonical_names.
Proof.
  unfold canonical_ms. intros H.
  repeat match type of H with
         | (if ?b then _ else _) = _ => destruct b
         end;
    try discriminate H; injection H as <-; vm_compute; tauto.
Qed.

Lemma canonical_names_fixed (k : pystr) :
  In k canonical_names ->
  strip k = k /\ lower k = k /\
  (forall lc, canonical_bs lc = Some k -> canonical_bs k = Some k) /\
  (forall lc, canonical_ms lc = Some k -> canonical_ms k = Some k).
Proof.
  intros Hk. unfold canonical_names in Hk. simpl in Hk.
  repeat (destruct Hk as [<-|Hk];
          [split; [reflexivity|]; split; [reflexivity|]; split;
           first [intros; reflexivity
                 |intros lc H; exfalso; revert H; unfold canonical_bs, canonical_ms;
                  repeat match goal with
                         | |- (if ?b then _ else _) = _ -> _ => destruct b
                         end; intros H; vm_compute in H; discriminate H]|]).
  destruct Hk.
Qed.

Lemma canonical_label_idem canonical (h : pystr) :
  (forall lc k, canonical lc = Some k ->
     strip k = k /\ lower k = k /\ canonical k = Some k) ->
  canonical_label canonical (canonical_label canonical h) =
  canonical_label canonical h.
Proof.
  intros Hfix. unfold canonical_label at 2 3.
  destruct (canonical (lower (strip h))) as [k|] eqn:E; simpl.
  - destruct (Hfix _ _ E) as (Hs & Hl & Hc).
    unfold canonical_label. by rewrite Hs, Hl, Hc.
  - unfold canonical_label. by rewrite strip_idem, E.
Qed.

(** X11.  The renaming of the headers can be repeated: applied to a table
    whose headers it has already renamed, each of the two mappings changes
    nothing, since every canonical name is trimmed, in lower case, and
    matched by its own rule first. *)
Theorem map_columns_idempotent (df : frame) :
  map_columns canonical_bs (map_columns canonical_bs df) = map_columns canonical_bs df /\
  map_columns canonical_ms (map_columns canonical_ms df) = map_columns canonical_ms df.
Proof.
  split; rewrite !map_columns_spec, List.map_map; apply map_ext; intros [h c];
    simpl; f_equal; apply canonical_label_idem; intros lc k Hk.
  - destruct (canonical_names_fixed k (canonical_bs_names lc k Hk)) as (? & ? & H & _).
    eauto.
  - destruct (canonical_names_fixed k (canonical_ms_names lc k Hk)) as (? & ? & _ & H).
    eauto.
Qed.

(** ** Category levels *)

Lemma delimiter_at_separator (c : char) (s : pystr) :
  In c separator_chars -> delimiter_at (c :: s) = Some 1%nat.
Proof.
  intros H. unfold delimiter_at.
  rewrite bool_decide_eq_true_2; [done|]. by apply list_elem_of_In.
Qed.

(** A piece of the split holds no separator character. *)
Lemma split_from_pieces (s cur : pystr) (skip : nat) (p : pystr) (c : char) :
  In p (split_from skip cur s) -> In c p -> In c separator_chars -> In c cur.
Proof.
  revert skip cur. induction s as [|x s IH]; intros skip cur Hp Hc Hsep.
  - simpl in Hp. by destruct Hp as [<-|[]].
  - cbn [split_from] in Hp. destruct skip as [|k]; [|by eapply IH].
    assert (Hx : delimiter_at (x :: s) <> Some 1%nat ->
                 In p (split_from 0 (cur ++ [x]) s) -> In c cur).
    { intros Hd Hp'. specialize (IH _ _ Hp' Hc Hsep).
      apply in_app_or in IH as [?|[<-|[]]]; [done|].
      by destruct Hd, (delimiter_at_separator x s Hsep). }
    destruct (delimiter_at (x :: s)) as [[|k]|] eqn:E; try (by apply Hx).
    destruct Hp as [<-|Hp]; [done|]. by destruct (IH _ _ Hp Hc Hsep).
Qed.

Lemma lookup_In {A} (l : list A) (i : nat) (x : A) : l !! i = Some x -> In x l.
Proof. intros H. by apply list_elem_of_In, (list_elem_of_lookup_2 l i). Qed.

Lemma second_then_first {A} (l : list A) :
  is_Some (l !! 1%nat) -> is_Some (l !! 0%nat).
Proof. destruct l; [by intros [? ?] | by eexists]. Qed.

Lemma level_of_piece (keep : pystr -> bool) (f l : pystr) (i : nat) :
  List.map strip (List.filter keep (split_levels f)) !! i = Some l ->
  exists p, l = strip p /\ keep p = true /\
            forall c, In c l -> ~ In c separator_chars.
Proof.
  intros H. apply lookup_In, in_map_iff in H as (p & <- & Hp).
  apply filter_In in Hp as [Hp Hk]. exists p. split; [done|]. split; [done|].
  intros c Hc Hsep. apply strip_subset in Hc.
  by destruct (split_from_pieces f [] 0 p c Hp Hc Hsep).
Qed.

(** X12.  The category levels are well formed in both scripts: a level is
    trimmed and holds no separator character, the second level is present
    only when the first is, and the full category is trimmed.  In best
    sellers a level is never the empty text. *)
Theorem category_levels_well_formed (x : cell) :
  let bs := parse_category_levels_bs x in
  let ms := parse_category_levels_ms x in
  (forall l, cat_level_1 bs = Some l \/ cat_level_2 bs = Some l ->
     l <> [] /\ strip l = l /\ forall c, In c l -> ~ In c separator_chars) /\
  (forall l, cat_level_1 ms = Some l \/ cat_level_2 ms = Some l ->
     strip l = l /\ forall c, In c l -> ~ In c separator_chars) /\
  (is_Some (cat_level_2 bs) -> is_Some (cat_level_1 bs)) /\
  (is_Some (cat_level_2 ms) -> is_Some (cat_level_1 ms)) /\
  (forall f, category_full bs = Some f \/ category_full ms = Some f -> strip f = f).
Proof.
  intros bs ms. subst bs ms.
  destruct x as [s| | | |];
    try (repeat apply conj; simpl;
         first [intros ? [?|?]; discriminate | intros [? ?]; discriminate]).
  unfold parse_category_levels_bs, parse_category_levels_ms.
  set (f := match search_in s with Some g => strip g | None => strip s end).
  assert (Hf : strip f = f) by (unfold f; destruct (search_in s); apply strip_idem).
  repeat apply conj.
  - intros l Hl. simpl in Hl.
    assert (H : exists i, List.map strip
                  (List.filter (fun p => nonempty p && nonempty (strip p))
                     (split_levels f)) !! i = Some l)
      by (destruct Hl; eauto).
    destruct H as [i H]. apply level_of_piece in H as (p & -> & Hk & Hc).
    apply andb_true_iff in Hk as [_ Hk]. split; [|split; [apply strip_idem | done]].
    intros E. unfold nonempty in Hk. rewrite E in Hk. done.
  - destruct (str_eqb (strip s) []); [by intros l [|]|].
    intros l Hl. simpl in Hl.
    assert (H : exists i, List.map strip
                  (List.filter nonempty (split_levels f)) !! i = Some l)
      by (destruct Hl; eauto).
    destruct H as [i H]. apply level_of_piece in H as (p & -> & _ & Hc).
    split; [apply strip_idem | done].
  - simpl. apply second_then_first.
  - destruct (str_eqb (strip s) []); simpl; [by intros [? ?]|].
    apply second_then_first.
  - intros g. simpl. destruct (str_eqb (strip s) []); simpl.
    + intros [[= <-]|]; done.
    + by intros [[= <-]|[= <-]].
Qed.

Lemma search_in_skip (pre s : pystr) :
  (forall c, In c pre -> ifold c <> 105%N) ->
  search_in (pre ++ s) = search_in s.
Proof.
  induction pre as [|c pre IH]; intros H; [done|].
  change ((c :: pre) ++ s) with (c :: (pre ++ s)). cbn [search_in].
  assert (E : match_in_at (c :: pre ++ s) = None).
  { unfold match_in_at. destruct (pre ++ s) as [|b [|w t]]; try done.
    destruct (N.eqb_spec (ifold c) 105) as [Hc|_]; [|done].
    by destruct (H c (or_introl eq_refl)). }
  rewrite E. apply IH. intros x Hx. apply H. by right.
Qed.

(** X13.  The full category is what follows the first [in] and its
    whitespace, up to the end of the line, trimmed; the pattern is not
    anchored to a word, so the letters may as well end a word, and what
    stands before them is dropped with them. *)
Theorem category_full_after_in (pre : pystr) (a b w : char) (t : pystr) :
  (forall c, In c pre -> ifold c <> 105%N) ->
  ifold a = 105%N -> ifold b = 110%N -> is_space w = true ->
  let s := pre ++ a :: b :: w :: t in
  let full := strip (until_newline (lstrip t)) in
  category_full (parse_category_levels_bs (Str s)) = Some full /\
  category_full (parse_category_levels_ms (Str s)) = Some full.
Proof.
  intros Hpre Ha Hb Hw s full.
  assert (E : search_in s = Some (until_newline (lstrip t))).
  { unfold s. rewrite (search_in_skip pre _ Hpre). cbn [search_in match_in_at].
    by rewrite Ha, Hb, Hw. }
  unfold parse_category_levels_bs, parse_category_levels_ms. rewrite E.
  split; [done|].
  destruct (str_eqb (strip s) []) eqn:Es; [|done]. exfalso.
  apply str_eqb_nil, strip_blank in Es. rewrite forallb_forall in Es.
  assert (Hin : In a s) by (unfold s; apply in_or_app; right; by left).
  specialize (Es a Hin).
  destruct (N.eqb_spec (ifold a) 105) as [_|]; [|done].
  pose proof (space_not_i a Es) as H. rewrite Ha in H. done.
Qed.

Lemma category_full_after_in_witness :
  category_full (parse_category_levels_bs (Str (U "Skin Care"))) = Some (U "Care") /\
  category_full (parse_category_levels_ms (Str (U "Skin Care"))) = Some (U "Care").
Proof.
  apply (category_full_after_in (U "Sk") 105%N 110%N 32%N (U "Care")); try done.
  intros c [<-|[<-|[]]]; discriminate.
Defined.

(** A best-sellers category with two levels. *)
Lemma category_levels_well_formed_witness :
  cat_level_2 (parse_category_levels_bs (Str (U "Best Sellers in Toys & Games"))) =
    Some (U "Games") /\
  U "Games" <> [] /\ strip (U "Games") = U "Games".
Proof.
  split; [reflexivity|].
  destruct (proj1 (category_levels_well_formed
                     (Str (U "Best Sellers in Toys & Games"))) (U "Games"))
    as (H1 & H2 & _); [by right | by split].
Defined.

Lemma no_separator_start (a rest : pystr) (x : char) :
  x <> 45%N -> x <> 38%N ->
  (forall c, head (a ++ rest) = Some c -> c <> 45%N /\ c <> 38%N) ->
  starts_with (U " - ") (x :: a ++ rest) = false /\
  starts_with (U " & ") (x :: a ++ rest) = false.
Proof.
  intros H1 H2 Hh. change (U " - ") with [32; 45; 32]%N.
  change (U " & ") with [32; 38; 32]%N. cbn [starts_with].
  destruct (a ++ rest) as [|y l]; [by rewrite !andb_false_r|].
  destruct (Hh y eq_refl) as [Hy1 Hy2].
  apply N.eqb_neq in Hy1, Hy2.
  rewrite (N.eqb_sym 45 y), (N.eqb_sym 38 y), Hy1, Hy2. simpl.
  by rewrite !andb_false_r.
Qed.

(** The split reads through a plain text. *)
Lemma split_plain (a rest cur : pystr) :
  plain_text a ->
  (forall c, head rest = Some c -> c <> 45%N /\ c <> 38%N) ->
  split_from 0 cur (a ++ rest) = split_from 0 (cur ++ a) rest.
Proof.
  revert cur. induction a as [|x a IH]; intros cur Ha Hrest.
  - by rewrite app_nil_r.
  - assert (Ha' : plain_text a) by (intros c Hc; apply Ha; by right).
    destruct (Ha x (or_introl eq_refl)) as (Hsep & H45 & H38).
    change ((x :: a) ++ rest) with (x :: (a ++ rest)). cbn [split_from].
    assert (E : delimiter_at (x :: a ++ rest) = None).
    { unfold delimiter_at.
      rewrite bool_decide_eq_false_2 by (by rewrite list_elem_of_In).
      destruct (no_separator_start a rest x H45 H38) as [-> ->]; [|done].
      intros c Hc. destruct a as [|y a]; [by apply Hrest|].
      injection Hc as <-. destruct (Ha' y (or_introl eq_refl)) as (_ & ? & ?). done. }
    rewrite E, IH by done. by rewrite <- app_assoc.
Qed.

Lemma split_separator (sep b cur : pystr) :
  In sep separators ->
  split_from 0 cur (sep ++ b) = cur :: split_from 0 [] b /\
  (forall c, head (sep ++ b) = Some c -> c <> 45%N /\ c <> 38%N).
Proof.
  intros H. unfold separators, separator_chars in H. simpl in H.
  repeat (destruct H as [<-|H];
          [split; [reflexivity | by intros c [= <-]]|]).
  destruct H.
Qed.

Lemma split_two (a sep b : pystr) :
  plain_text a -> plain_text b -> In sep separators ->
  split_levels (a ++ sep ++ b) = [a; b].
Proof.
  intros Ha Hb Hsep. unfold split_levels.
  destruct (split_separator sep b a Hsep) as [E Hh].
  rewrite (split_plain a (sep ++ b) [] Ha Hh). simpl. rewrite E.
  pose proof (split_plain b [] [] Hb) as H. rewrite app_nil_r in H.
  rewrite H by done. done.
Qed.

Lemma nonempty_strip (s : pystr) :
  strip s <> [] -> nonempty s = true /\ nonempty (strip s) = true.
Proof.
  intros H. unfold nonempty.
  split; apply negb_true_iff; apply not_true_is_false; intros E;
    apply str_eqb_nil in E; [|done].
  subst s. by apply H.
Qed.

(** X14.  When the full category is two plain texts joined by one of the
    separators, the two levels are these texts, trimmed, in both scripts.
    A plain text holds no separator character, hyphen or ampersand, and is
    not blank. *)
Theorem category_levels_split (x : cell) (a sep b : pystr) :
  In sep separators -> plain_text a -> plain_text b ->
  strip a <> [] -> strip b <> [] ->
  (category_full (parse_category_levels_bs x) = Some (a ++ sep ++ b) ->
   cat_level_1 (parse_category_levels_bs x) = Some (strip a) /\
   cat_level_2 (parse_category_levels_bs x) = Some (strip b)) /\
  (category_full (parse_category_levels_ms x) = Some (a ++ sep ++ b) ->
   cat_level_1 (parse_category_levels_ms x) = Some (strip a) /\
   cat_level_2 (parse_category_levels_ms x) = Some (strip b)).
Proof.
  intros Hsep Ha Hb Hna Hnb.
  destruct (nonempty_strip a Hna) as [Ea Ea'], (nonempty_strip b Hnb) as [Eb Eb'].
  destruct x as [s| | | |]; try (split; discriminate).
  unfold parse_category_levels_bs, parse_category_levels_ms. split.
  - simpl. intros [= E]. rewrite E, (split_two a sep b Ha Hb Hsep). simpl.
    by rewrite Ea, Ea', Eb, Eb'.
  - destruct (str_eqb (strip s) []); [discriminate|].
    simpl. intros [= E]. rewrite E, (split_two a sep b Ha Hb Hsep). simpl.
    by rewrite Ea, Eb.
Qed.

Lemma category_levels_split_witness :
  cat_level_1 (parse_category_levels_ms (Str (U "Movers in Home > Kitchen"))) =
    Some (U "Home") /\
  cat_level_2 (parse_category_levels_ms (Str (U "Movers in Home > Kitchen"))) =
    Some (U "Kitchen").
Proof.
  apply (proj2 (category_levels_split (Str (U "Movers in Home > Kitchen"))
                  (U "Home ") (U ">") (U " Kitchen")
                  ltac:(vm_compute; tauto)
                  ltac:(intros c Hc; vm_compute in Hc |- *; intuition (subst; discriminate))
                  ltac:(intros c Hc; vm_compute in Hc |- *; intuition (subst; discriminate))
                  ltac:(discriminate) ltac:(discriminate))).
  reflexivity.
Defined.

(** * The transforms, column by column *)

Lemma columns_named_rows n k c (df : frame) :
  rows n df -> columns_named k df = [c] -> length c = n.
Proof.
  intros Hr Hc. unfold rows in Hr. rewrite List.Forall_forall in Hr.
  assert (Hin : In c (columns_named k df)) by (rewrite Hc; by left).
  unfold columns_named in Hin. apply in_map_iff in Hin as ([l c'] & <- & Hin).
  apply filter_In in Hin as [Hin _]. by apply (Hr (l, c')).
Qed.

Lemma columns_named_present k c (df : frame) :
  columns_named k df = [c] -> k ∈ labels df.
Proof. intros H. apply columns_named_labels. by rewrite H. Qed.

Lemma raw_length n k (l : list pystr) (df : frame) :
  rows n df -> columns_named k df = [List.map Str l] -> length l = n.
Proof.
  intros Hr Hc. rewrite <- (columns_named_rows n k _ df Hr Hc). by rewrite length_map.
Qed.

(** The projection on the kept labels that the frame has keeps their
    columns as they are. *)
Lemma project_filter_columns n keep (df out : frame) k :
  NoDup (labels df) -> rows n df -> NoDup keep ->
  project (List.filter (has_label df) keep) df = Done out ->
  k ∈ keep -> columns_named k out = columns_named k df.
Proof.
  intros Nd Hr Hk E Hin.
  destruct (decide (k ∈ labels df)) as [Hl|Hl].
  - apply (project_columns_named (List.filter (has_label df) keep)); [|  |done].
    + apply NoDup_ListNoDup, List.NoDup_filter. by apply NoDup_ListNoDup.
    + apply list_elem_of_In, filter_In. split; [by apply list_elem_of_In|].
      by apply bool_decide_eq_true.
  - destruct (project_present n keep df Nd Hr) as (out' & E' & _ & Lo).
    rewrite E' in E. injection E as <-.
    rewrite (columns_named_absent k df Hl). apply columns_named_absent.
    rewrite Lo. intros H. apply list_elem_of_In, filter_In in H as [_ H].
    by apply bool_decide_eq_true in H.
Qed.

Lemma keep_cols_bs_NoDup : NoDup keep_cols_bs.
Proof.
  apply NoDup_ListNoDup. repeat constructor; simpl;
    intros H; vm_compute in H; intuition discriminate.
Qed.

(** X15.  What the best-sellers transform computes.  On a table as
    [read_input] returns it (at least one row, headers that map to distinct
    labels, none of them the label of a category level) with the six columns
    that the script parses, the transform completes, and in its output every
    computed column holds, row by row, what its parser or formula gives on
    the cells of the input: no step disturbs the result of another, and the
    columns that are passed on are those of the input. *)
Theorem transform_bs_columns (table : list (string * list string)) (n : nat)
    (rank link price_raw rating_raw review_count_raw category : list pystr) :
  (0 < n)%nat ->
  Forall (fun hc => length hc.2 = n) table ->
  let df0 := map_columns canonical_bs (read_frame table) in
  NoDup (labels df0) ->
  Forall (fun k => k ∉ labels df0) level_labels ->
  columns_named (U "rank") df0 = [List.map Str rank] ->
  columns_named (U "link") df0 = [List.map Str link] ->
  columns_named (U "price_raw") df0 = [List.map Str price_raw] ->
  columns_named (U "rating_raw") df0 = [List.map Str rating_raw] ->
  columns_named (U "review_count_raw") df0 = [List.map Str review_count_raw] ->
  columns_named (U "category") df0 = [List.map Str category] ->
  exists out,
    transform_bs (read_frame table) = Done out /\
    (forall k c,
       In (k, c) (best_sellers_columns rank link price_raw rating_raw
                    review_count_raw category) ->
       columns_named k out = [c]) /\
    (forall k, In k passed_on -> columns_named k out = columns_named k df0).
Proof.
  intros Hn Hwf df0 Nd0 Hlev Crank Clink Cprice Crating Creview Ccat.
  destruct (read_frame_columns canonical_bs table n Hwf) as [R0 _].
  fold df0 in R0.
  pose proof (columns_named_present _ _ _ Crank) as Krank.
  pose proof (raw_length n _ _ _ R0 Crank) as Lrank.
  pose proof (raw_length n _ _ _ R0 Clink) as Llink.
  pose proof (raw_length n _ _ _ R0 Cprice) as Lprice.
  pose proof (raw_length n _ _ _ R0 Crating) as Lrating.
  pose proof (raw_length n _ _ _ R0 Creview) as Lreview.
  pose proof (raw_length n _ _ _ R0 Ccat) as Lcat.
  unfold level_labels in Hlev.
  apply Forall_cons in Hlev as [V1 Hlev]. apply Forall_cons in Hlev as [V2 Hlev].
  apply Forall_cons in Hlev as [V3 _].
  unfold transform_bs. fold df0.
  rewrite (rows_nrows n df0 R0 (labels_nonempty _ _ Krank)).
  destruct (Nat.eqb_spec n 0) as [->|_]; [lia|].
  (* the five parsed columns *)
  parse_step n rank Nd0 R0 Crank Lrank df1 E1 A1.
  destruct A1 as (Nd1 & R1 & D1 & O1 & L1).
  assert (S2 : columns_named (U "link") df1 = [List.map Str link])
    by (rewrite O1 by neq; exact Clink).
  parse_step n link Nd1 R1 S2 Llink df2 E2 A2.
  destruct A2 as (Nd2 & R2 & D2 & O2 & L2).
  assert (S3 : columns_named (U "price_raw") df2 = [List.map Str price_raw])
    by (rewrite O2, O1 by neq; exact Cprice).
  parse_step n price_raw Nd2 R2 S3 Lprice df3 E3 A3.
  destruct A3 as (Nd3 & R3 & D3 & O3 & L3).
  assert (S4 : columns_named (U "rating_raw") df3 = [List.map Str rating_raw])
    by (rewrite O3, O2, O1 by neq; exact Crating).
  parse_step n rating_raw Nd3 R3 S4 Lrating df4 E4 A4.
  destruct A4 as (Nd4 & R4 & D4 & O4 & L4).
  assert (S5 : columns_named (U "review_count_raw") df4 = [List.map Str review_count_raw])
    by (rewrite O4, O3, O2, O1 by neq; exact Creview).
  parse_step n review_count_raw Nd4 R4 S5 Lreview df5 E5 A5.
  destruct A5 as (Nd5 & R5 & D5 & O5 & L5).
  (* the category levels *)
  assert (S6 : columns_named (U "category") df5 = [List.map Str category])
    by (rewrite O5, O4, O3, O2, O1 by neq; exact Ccat).
  unfold get at 1. rewrite S6. cbn [select bind levels_of].
  set (cats := List.map parse_category_levels_bs (List.map Str category)).
  assert (Lcats : length cats = n) by (unfold cats; by rewrite !length_map).
  assert (NL : forall x, x ∉ labels df0 ->
                 x <> U "rank" -> x <> U "asin" -> x <> U "price_norm" ->
                 x <> U "rating" -> x <> U "review_count" -> x ∉ labels df5).
  { intros x Hx N1 N2 N3 N4 N5 H5.
    apply L5 in H5 as [H5|?]; [|done]. apply L4 in H5 as [H5|?]; [|done].
    apply L3 in H5 as [H5|?]; [|done]. apply L2 in H5 as [H5|?]; [|done].
    by apply L1 in H5 as [H5|?]. }
  destruct (concat_levels_simple n df5 cats Nd5 R5 Lcats)
    as (Nd6 & R6 & D6 & O6 & L6); [apply NL; (done || neq)..|].
  set (df6 := concat_levels df5 cats) in *.
  (* the date *)
  assert (K6 : U "cat_level_1" ∈ labels df6) by (apply L6; right; set_solver).
  unfold assign_const at 1.
  rewrite (rows_nrows n df6 R6 (labels_nonempty _ _ K6)).
  assign_step n (repeat (Str SCRAPED_AT) n) Nd6 R6
    (repeat_length (Str SCRAPED_AT) n) df7 E7 A7.
  destruct A7 as (Nd7 & R7 & D7 & O7 & L7).
  (* the review density *)
  unfold with_review_density.
  rewrite (read_column_simple cell_num
             (fun s => int_cell (parse_int_bs s))
             (fun s => inject_Z <$> parse_int_bs s) (U "review_count") df7 review_count_raw)
    by (first [intros x; apply cell_num_num_cell
              |rewrite O7 by neq; rewrite O6 by neq; exact D5]).
  cbn [bind].
  rewrite (read_column_simple cell_num
             (fun s => int_cell (parse_int_bs s))
             (fun s => inject_Z <$> parse_int_bs s) (U "rank") df7 rank)
    by (first [intros x; apply cell_num_num_cell
              |rewrite O7 by neq; rewrite O6 by neq;
               rewrite O5, O4, O3, O2 by neq; exact D1]).
  cbn [bind].
  set (density := zip_with review_density _ _).
  assert (Ldens : length density = n)
    by (unfold density; rewrite length_zip_with, !length_map; lia).
  assign_step n (List.map num_cell density) Nd7 R7
    (eq_trans (length_map num_cell density) Ldens) df8 E8 A8.
  destruct A8 as (Nd8 & R8 & D8 & O8 & L8).
  (* the normalised review density *)
  unfold with_norm_review_density, assign_const.
  rewrite (rows_nrows n df8 R8 (labels_nonempty (U "review_density") _
             (proj2 (L8 _) (or_intror eq_refl)))).
  assign_step n (repeat NaN n) Nd8 R8 (repeat_length NaN n) df9 E9 A9.
  destruct A9 as (Nd9 & R9 & D9 & O9 & L9).
  rewrite (read_column_simple cell_key
             (fun l => text_cell (cat_level_1 l)) cat_level_1
             (U "cat_level_1") df9 cats)
    by (first [intros x; apply cell_key_text_cell
              |rewrite O9, O8, O7 by neq; exact D6]).
  cbn [bind].
  rewrite (read_column_simple cell_num num_cell id (U "review_density") df9 density)
    by (first [intros x; apply cell_num_num_cell
              |rewrite O9 by neq; exact D8]).
  cbn [bind]. rewrite List.map_id.
  match goal with
  | |- context [setitem _ ?c df9] => set (norm := c)
  end.
  assert (Lnorm : length norm = n)
    by (unfold norm;
        by rewrite length_map, norm_review_density_bs_length, length_map).
  assign_step n norm Nd9 R9 Lnorm df10 E10 A10.
  destruct A10 as (Nd10 & R10 & D10 & O10 & L10).
  (* the price segment *)
  unfold with_price_segment, assign_const.
  rewrite (rows_nrows n df10 R10 (labels_nonempty (U "norm_review_density") _
             (proj2 (L10 _) (or_intror eq_refl)))).
  assign_step n (repeat (Str (U "unknown")) n) Nd10 R10
    (repeat_length (Str (U "unknown")) n) df11 E11 A11.
  destruct A11 as (Nd11 & R11 & D11 & O11 & L11).
  rewrite (read_column_simple cell_key
             (fun l => text_cell (cat_level_1 l)) cat_level_1
             (U "cat_level_1") df11 cats)
    by (first [intros x; apply cell_key_text_cell
              |rewrite O11, O10, O9, O8, O7 by neq; exact D6]).
  cbn [bind].
  rewrite (read_column_simple cell_num
             (fun s => num_cell (parse_price_bs s)) parse_price_bs
             (U "price_norm") df11 price_raw)
    by (first [intros x; apply cell_num_num_cell
              |rewrite O11, O10, O9, O8, O7 by neq; rewrite O6 by neq;
               rewrite O5, O4 by neq; exact D3]).
  cbn [bind].
  match goal with
  | |- context [setitem _ ?c df11] => set (segs := c)
  end.
  assert (Lsegs : length segs = n)
    by (unfold segs;
        by rewrite length_map, price_segment_by_category_length, length_map).
  assign_step n segs Nd11 R11 Lsegs df12 E12 A12.
  destruct A12 as (Nd12 & R12 & D12 & O12 & L12).
  (* the other two columns of the category levels *)
  assert (D6a : columns_named (U "category_full") df6 =
                [List.map (fun l => text_cell (category_full l)) cats]).
  { unfold df6, concat_levels. rewrite columns_named_app, columns_named_absent; [done|].
    apply NL; (done || neq). }
  assert (D6b : columns_named (U "cat_level_2") df6 =
                [List.map (fun l => text_cell (cat_level_2 l)) cats]).
  { unfold df6, concat_levels. rewrite columns_named_app, columns_named_absent; [done|].
    apply NL; (done || neq). }
  (* the projection *)
  destruct (project_present n keep_cols_bs df12 Nd12 R12) as (out & Eo & Ro & Lo).
  exists out. split; [exact Eo|].
  assert (Hout : forall k, k ∈ keep_cols_bs ->
                   columns_named k out = columns_named k df12).
  { intros k. apply (project_filter_columns n keep_cols_bs df12 out k Nd12 R12);
      [apply keep_cols_bs_NoDup | exact Eo]. }
  split.
  - intros k c Hin. unfold best_sellers_columns in Hin. fold cats in Hin.
    rewrite Lrank in Hin. cbn [In] in Hin.
    destruct Hin as [Hin|[Hin|[Hin|[Hin|[Hin|[Hin|[Hin|[Hin|[Hin|[Hin|[Hin|[Hin|[]]]]]]]]]]]]];
      injection Hin as <- <-;
      (rewrite Hout by (apply list_elem_of_In; vm_compute; tauto)).
    + rewrite O12, O11, O10, O9, O8, O7 by neq. rewrite O6 by neq.
      rewrite O5, O4, O3, O2 by neq. exact D1.
    + rewrite O12, O11, O10, O9, O8, O7 by neq. rewrite O6 by neq.
      rewrite O5, O4, O3 by neq. exact D2.
    + rewrite O12, O11, O10, O9, O8, O7 by neq. rewrite O6 by neq.
      rewrite O5, O4 by neq. exact D3.
    + rewrite O12, O11, O10, O9, O8, O7 by neq. rewrite O6 by neq.
      rewrite O5 by neq. exact D4.
    + rewrite O12, O11, O10, O9, O8, O7 by neq. rewrite O6 by neq. exact D5.
    + rewrite O12, O11, O10, O9, O8, O7 by neq. exact D6a.
    + rewrite O12, O11, O10, O9, O8, O7 by neq. exact D6.
    + rewrite O12, O11, O10, O9, O8, O7 by neq. exact D6b.
    + rewrite O12, O11, O10, O9, O8 by neq. exact D7.
    + rewrite O12, O11, O10, O9 by neq. exact D8.
    + rewrite O12, O11 by neq. exact D10.
    + exact D12.
  - intros k Hk. unfold passed_on in Hk. cbn [In] in Hk.
    rewrite Hout
      by (apply list_elem_of_In; vm_compute in Hk |- *; intuition (subst; tauto)).
    rewrite O12, O11, O10, O9, O8, O7
      by (intros ->; vm_compute in Hk; intuition discriminate).
    rewrite O6 by (intros ->; vm_compute in Hk; intuition discriminate).
    rewrite O5, O4, O3, O2, O1
      by (intros ->; vm_compute in Hk; intuition discriminate).
    done.
Qed.

(** A parsing step of movers and shakers on a column of strings. *)
Lemma parse_step_ms n dst f g src df (l : list pystr) :
  NoDup (labels df) -> rows n df ->
  columns_named src df = [List.map Str l] -> length l = n ->
  (forall s, f (Str s) = Some (g s)) ->
  exists df',
    assign_applied dst f (getitem src df) df = Done df' /\
    assigned n dst (List.map g l) df df'.
Proof.
  intros Hnd Hr Hs Hl Hf. unfold assign_applied, getitem. rewrite Hs. simpl.
  rewrite (map_cells_str f g l Hf). simpl.
  apply setitem_assigned; [done..|]. by rewrite length_map.
Qed.

Ltac parse_step_ms n l Hnd Hr Hsrc Hl df' E A :=
  match goal with
  | |- context [assign_applied ?dst ?f (getitem ?src ?df) ?df] =>
      destruct (parse_step_ms n dst f _ src df l Hnd Hr Hsrc Hl
                  (fun s => eq_refl)) as (df' & E & A);
      rewrite E; cbn [bind]
  end.

(** A column that later steps have left as it was. *)
Ltac back :=
  repeat match goal with
  | H : forall k', k' <> _ -> columns_named k' ?d = columns_named k' _
    |- context [columns_named ?k ?d] => rewrite (H k) by neq
  | H : forall k', k' <> _ -> k' <> _ -> k' <> _ ->
                   columns_named k' ?d = columns_named k' _
    |- context [columns_named ?k ?d] => rewrite (H k) by neq
  end.

Lemma norm_review_density_ms_length keys density :
  length (norm_review_density_ms keys density) = length keys.
Proof.
  unfold norm_review_density_ms, norm_review_density_over_ms.
  rewrite (groupwise_length _ (norm_group_ms_length keys density)).
  apply repeat_length.
Qed.

Lemma keep_ms_NoDup : NoDup keep_ms.
Proof.
  apply NoDup_ListNoDup. repeat constructor; simpl;
    intros H; vm_compute in H; intuition discriminate.
Qed.

Lemma filter_all {A} (f : A -> bool) (l : list A) :
  (forall x, In x l -> f x = true) -> List.filter f l = l.
Proof.
  induction l as [|a l IH]; intros H; [done|]. simpl.
  rewrite (H a) by (by left). f_equal. apply IH. intros x Hx. apply H. by right.
Qed.

(** X16.  What the movers-and-shakers transform computes.  On a table as
    [read_input] returns it (at least one row, headers that map to distinct
    labels, none of them the label of a category level) with the nine
    columns that the script parses and the columns [page] and [title], the
    transform completes; its output has the kept labels, each once and in
    the order of the script, and every computed column holds, row by row,
    what its parser or formula gives on the cells of the input. *)
Theorem transform_ms_columns (table : list (string * list string)) (n : nat)
    (rank link price_raw rating_raw review_count_raw move_pct_raw
     sales_rank_now_raw sales_rank_was_raw category : list pystr) :
  (0 < n)%nat ->
  Forall (fun hc => length hc.2 = n) table ->
  let df0 := map_columns canonical_ms (read_frame table) in
  NoDup (labels df0) ->
  Forall (fun k => k ∉ labels df0) level_labels ->
  U "page" ∈ labels df0 -> U "title" ∈ labels df0 ->
  columns_named (U "rank") df0 = [List.map Str rank] ->
  columns_named (U "link") df0 = [List.map Str link] ->
  columns_named (U "price_raw") df0 = [List.map Str price_raw] ->
  columns_named (U "rating_raw") df0 = [List.map Str rating_raw] ->
  columns_named (U "review_count_raw") df0 = [List.map Str review_count_raw] ->
  columns_named (U "move_pct_raw") df0 = [List.map Str move_pct_raw] ->
  columns_named (U "sales_rank_now_raw") df0 = [List.map Str sales_rank_now_raw] ->
  columns_named (U "sales_rank_was_raw") df0 = [List.map Str sales_rank_was_raw] ->
  columns_named (U "category") df0 = [List.map Str category] ->
  exists out,
    transform_ms (read_frame table) = Done out /\
    labels out = keep_ms /\ rows n out /\
    (forall k c,
       In (k, c) (movers_shakers_columns rank link price_raw rating_raw
                    review_count_raw move_pct_raw sales_rank_now_raw
                    sales_rank_was_raw category) ->
       columns_named k out = [c]) /\
    (forall k, In k passed_on -> columns_named k out = columns_named k df0).
Proof.
  intros Hn Hwf df0 Nd0 Hlev Kpage Ktitle
    Crank Clink Cprice Crating Creview Cmove Cnow Cwas Ccat.
  destruct (read_frame_columns canonical_ms table n Hwf) as [R0 _].
  fold df0 in R0.
  pose proof (columns_named_present _ _ _ Crank) as Krank.
  pose proof (raw_length n _ _ _ R0 Crank) as Lrank.
  pose proof (raw_length n _ _ _ R0 Clink) as Llink.
  pose proof (raw_length n _ _ _ R0 Cprice) as Lprice.
  pose proof (raw_length n _ _ _ R0 Crating) as Lrating.
  pose proof (raw_length n _ _ _ R0 Creview) as Lreview.
  pose proof (raw_length n _ _ _ R0 Cmove) as Lmove.
  pose proof (raw_length n _ _ _ R0 Cnow) as Lnow.
  pose proof (raw_length n _ _ _ R0 Cwas) as Lwas.
  pose proof (raw_length n _ _ _ R0 Ccat) as Lcat.
  unfold level_labels in Hlev.
  apply Forall_cons in Hlev as [V1 Hlev]. apply Forall_cons in Hlev as [V2 Hlev].
  apply Forall_cons in Hlev as [V3 _].
  unfold transform_ms. fold df0.
  rewrite (rows_nrows n df0 R0 (labels_nonempty _ _ Krank)).
  destruct (Nat.eqb_spec n 0) as [->|_]; [lia|].
  (* the eight parsed columns *)
  parse_step_ms n rank Nd0 R0 Crank Lrank df1 E1 A1.
  destruct A1 as (Nd1 & R1 & D1 & O1 & L1).
  assert (S2 : columns_named (U "link") df1 = [List.map Str link])
    by (back; exact Clink).
  parse_step_ms n link Nd1 R1 S2 Llink df2 E2 A2.
  destruct A2 as (Nd2 & R2 & D2 & O2 & L2).
  assert (S3 : columns_named (U "price_raw") df2 = [List.map Str price_raw])
    by (back; exact Cprice).
  parse_step_ms n price_raw Nd2 R2 S3 Lprice df3 E3 A3.
  destruct A3 as (Nd3 & R3 & D3 & O3 & L3).
  assert (S4 : columns_named (U "rating_raw") df3 = [List.map Str rating_raw])
    by (back; exact Crating).
  parse_step_ms n rating_raw Nd3 R3 S4 Lrating df4 E4 A4.
  destruct A4 as (Nd4 & R4 & D4 & O4 & L4).
  assert (S5 : columns_named (U "review_count_raw") df4 =
               [List.map Str review_count_raw])
    by (back; exact Creview).
  parse_step_ms n review_count_raw Nd4 R4 S5 Lreview df5 E5 A5.
  destruct A5 as (Nd5 & R5 & D5 & O5 & L5).
  assert (S6 : columns_named (U "move_pct_raw") df5 = [List.map Str move_pct_raw])
    by (back; exact Cmove).
  parse_step_ms n move_pct_raw Nd5 R5 S6 Lmove df6 E6 A6.
  destruct A6 as (Nd6 & R6 & D6 & O6 & L6).
  assert (S7 : columns_named (U "sales_rank_now_raw") df6 =
               [List.map Str sales_rank_now_raw])
    by (back; exact Cnow).
  parse_step_ms n sales_rank_now_raw Nd6 R6 S7 Lnow df7 E7 A7.
  destruct A7 as (Nd7 & R7 & D7 & O7 & L7).
  assert (S8 : columns_named (U "sales_rank_was_raw") df7 =
               [List.map Str sales_rank_was_raw])
    by (back; exact Cwas).
  parse_step_ms n sales_rank_was_raw Nd7 R7 S8 Lwas df8 E8 A8.
  destruct A8 as (Nd8 & R8 & D8 & O8 & L8).
  (* the category levels *)
  assert (S9 : columns_named (U "category") df8 = [List.map Str category])
    by (back; exact Ccat).
  unfold getitem at 1. rewrite S9. cbn [select bind levels_of].
  set (cats := List.map parse_category_levels_ms (List.map Str category)).
  assert (Lcats : length cats = n) by (unfold cats; by rewrite !length_map).
  assert (NL : forall x, x ∉ labels df0 ->
                 x <> U "rank" -> x <> U "asin" -> x <> U "price_norm" ->
                 x <> U "rating" -> x <> U "review_count" ->
                 x <> U "move_pct" -> x <> U "sales_rank_now" ->
                 x <> U "sales_rank_was" -> x ∉ labels df8).
  { intros x Hx N1 N2 N3 N4 N5 N6 N7 N8 H8.
    apply L8 in H8 as [H8|?]; [|done]. apply L7 in H8 as [H8|?]; [|done].
    apply L6 in H8 as [H8|?]; [|done]. apply L5 in H8 as [H8|?]; [|done].
    apply L4 in H8 as [H8|?]; [|done]. apply L3 in H8 as [H8|?]; [|done].
    apply L2 in H8 as [H8|?]; [|done]. by apply L1 in H8 as [H8|?]. }
  destruct (concat_levels_simple n df8 cats Nd8 R8 Lcats)
    as (Nd9 & R9 & D9 & O9 & L9); [apply NL; (done || neq)..|].
  assert (D9a : columns_named (U "category_full") (concat_levels df8 cats) =
                [List.map (fun l => text_cell (category_full l)) cats]).
  { unfold concat_levels. rewrite columns_named_app, columns_named_absent; [done|].
    apply NL; (done || neq). }
  assert (D9b : columns_named (U "cat_level_2") (concat_levels df8 cats) =
                [List.map (fun l => text_cell (cat_level_2 l)) cats]).
  { unfold concat_levels. rewrite columns_named_app, columns_named_absent; [done|].
    apply NL; (done || neq). }
  set (df9 := concat_levels df8 cats) in *.
  (* the rank change *)
  unfold with_rank_change.
  rewrite (read_column_simple cell_num
             (fun s => num_cell (parse_float (Str s)))
             (fun s => parse_float (Str s)) (U "sales_rank_was") df9
             sales_rank_was_raw)
    by (first [intros x; apply cell_num_num_cell | back; exact D8]).
  cbn [bind].
  rewrite (read_column_simple cell_num
             (fun s => num_cell (parse_float (Str s)))
             (fun s => parse_float (Str s)) (U "sales_rank_now") df9
             sales_rank_now_raw)
    by (first [intros x; apply cell_num_num_cell | back; exact D7]).
  cbn [bind].
  set (change := zip_with sales_rank_change _ _).
  assert (Lchange : length change = n)
    by (unfold change; rewrite length_zip_with, !length_map; lia).
  assign_step n (List.map num_cell change) Nd9 R9
    (eq_trans (length_map num_cell change) Lchange) df10 E10 A10.
  destruct A10 as (Nd10 & R10 & D10 & O10 & L10).
  assign_step n (List.map (fun x => num_cell (sales_rank_change_abs x)) change)
    Nd10 R10
    (eq_trans (length_map (fun x => num_cell (sales_rank_change_abs x)) change)
       Lchange) df11 E11 A11.
  destruct A11 as (Nd11 & R11 & D11 & O11 & L11).
  assign_step n (List.map (fun x => text_cell (direction x)) change) Nd11 R11
    (eq_trans (length_map (fun x => text_cell (direction x)) change) Lchange)
    df12 E12 A12.
  destruct A12 as (Nd12 & R12 & D12 & O12 & L12).
  (* the review density *)
  unfold with_review_density.
  rewrite (read_column_simple cell_num
             (fun s => int_cell (parse_int_ms (Str s)))
             (fun s => inject_Z <$> parse_int_ms (Str s)) (U "review_count") df12
             review_count_raw)
    by (first [intros x; apply cell_num_num_cell | back; exact D5]).
  cbn [bind].
  rewrite (read_column_simple cell_num
             (fun s => int_cell (parse_int_ms (Str s)))
             (fun s => inject_Z <$> parse_int_ms (Str s)) (U "rank") df12 rank)
    by (first [intros x; apply cell_num_num_cell | back; exact D1]).
  cbn [bind].
  set (density := zip_with review_density _ _).
  assert (Ldens : length density = n)
    by (unfold density; rewrite length_zip_with, !length_map; lia).
  assign_step n (List.map num_cell density) Nd12 R12
    (eq_trans (length_map num_cell density) Ldens) df13 E13 A13.
  destruct A13 as (Nd13 & R13 & D13 & O13 & L13).
  (* the normalised review density *)
  unfold with_norm_review_density, assign_const.
  rewrite (rows_nrows n df13 R13 (labels_nonempty (U "review_density") _
             (proj2 (L13 _) (or_intror eq_refl)))).
  assign_step n (repeat NaN n) Nd13 R13 (repeat_length NaN n) df14 E14 A14.
  destruct A14 as (Nd14 & R14 & D14 & O14 & L14).
  rewrite (read_column_simple cell_key
             (fun l => text_cell (cat_level_1 l)) cat_level_1
             (U "cat_level_1") df14 cats)
    by (first [intros x; apply cell_key_text_cell | back; exact D9]).
  cbn [bind].
  rewrite (read_column_simple cell_num num_cell id (U "review_density") df14 density)
    by (first [intros x; apply cell_num_num_cell | back; exact D13]).
  cbn [bind]. rewrite List.map_id.
  match goal with
  | |- context [setitem _ ?c df14] => set (norm := c)
  end.
  assert (Lnorm : length norm = n)
    by (unfold norm;
        by rewrite length_map, norm_review_density_ms_length, length_map).
  assign_step n norm Nd14 R14 Lnorm df15 E15 A15.
  destruct A15 as (Nd15 & R15 & D15 & O15 & L15).
  (* the price segment *)
  unfold with_price_segment, assign_const.
  rewrite (rows_nrows n df15 R15 (labels_nonempty (U "norm_review_density") _
             (proj2 (L15 _) (or_intror eq_refl)))).
  assign_step n (repeat (Str (U "unknown")) n) Nd15 R15
    (repeat_length (Str (U "unknown")) n) df16 E16 A16.
  destruct A16 as (Nd16 & R16 & D16 & O16 & L16).
  rewrite (read_column_simple cell_key
             (fun l => text_cell (cat_level_1 l)) cat_level_1
             (U "cat_level_1") df16 cats)
    by (first [intros x; apply cell_key_text_cell | back; exact D9]).
  cbn [bind].
  rewrite (read_column_simple cell_num
             (fun s => num_cell (parse_price_ms (Str s)))
             (fun s => parse_price_ms (Str s))
             (U "price_norm") df16 price_raw)
    by (first [intros x; apply cell_num_num_cell | back; exact D3]).
  cbn [bind].
  match goal with
  | |- context [setitem _ ?c df16] => set (segs := c)
  end.
  assert (Lsegs : length segs = n)
    by (unfold segs;
        by rewrite length_map, price_segment_by_category_length, length_map).
  assign_step n segs Nd16 R16 Lsegs df17 E17 A17.
  destruct A17 as (Nd17 & R17 & D17 & O17 & L17).
  (* the date *)
  rewrite (rows_nrows n df17 R17 (labels_nonempty (U "price_segment") _
             (proj2 (L17 _) (or_intror eq_refl)))).
  assign_step n (repeat (Str SCRAPED_AT) n) Nd17 R17
    (repeat_length (Str SCRAPED_AT) n) df18 E18 A18.
  destruct A18 as (Nd18 & R18 & D18 & O18 & L18).
  (* the projection *)
  assert (Hall : forall k, In k keep_ms -> has_label df18 k = true).
  { intros k Hk. apply bool_decide_eq_true.
    rewrite L18, L17, L16, L15, L14, L13, L12, L11, L10, L9,
      L8, L7, L6, L5, L4, L3, L2, L1.
    unfold keep_ms in Hk. cbn [In] in Hk.
    assert (Kcat := columns_named_present _ _ _ Ccat).
    assert (Klink := columns_named_present _ _ _ Clink).
    assert (Kprice := columns_named_present _ _ _ Cprice).
    rewrite !elem_of_cons, elem_of_nil.
    repeat (destruct Hk as [<-|Hk]; [tauto|]). destruct Hk. }
  destruct (project_present n keep_ms df18 Nd18 R18) as (out & Eo & Ro & Lo).
  rewrite (filter_all _ _ Hall) in Eo, Lo.
  exists out. split; [exact Eo|]. split; [exact Lo|]. split; [exact Ro|].
  assert (Hout : forall k, k ∈ keep_ms ->
                   columns_named k out = columns_named k df18).
  { intros k Hk. by apply (project_columns_named keep_ms df18 out k keep_ms_NoDup). }
  split.
  - intros k c Hin. unfold movers_shakers_columns in Hin. fold cats in Hin.
    fold change in Hin. fold density in Hin. rewrite Lrank in Hin. cbn [In] in Hin.
    destruct Hin as [Hin|[Hin|[Hin|[Hin|[Hin|[Hin|[Hin|[Hin|[Hin|[Hin|[Hin|[Hin|
                    [Hin|[Hin|[Hin|[Hin|[Hin|[Hin|[]]]]]]]]]]]]]]]]]]];
      injection Hin as <- <-;
      (rewrite Hout by (apply list_elem_of_In; vm_compute; tauto)); back;
      assumption.
  - intros k Hk. unfold passed_on in Hk. cbn [In] in Hk.
    destruct Hk as [<-|[<-|[<-|[<-|[<-|[]]]]]];
      (rewrite Hout by (apply list_elem_of_In; vm_compute; tauto)); back; done.
Qed.

(** The best-sellers table with its price column. *)
Lemma transform_bs_columns_witness :
  exists out,
    transform_bs (read_frame table_with_price) = Done out /\
    columns_named (U "price_segment") out = [[Str (U "High"); Str (U "Low")]] /\
    columns_named (U "asin") out = [[Str (U "B000000001"); Str (U "B000000002")]].
Proof.
  destruct (transform_bs_columns table_with_price 2
              [U "1"; U "2"]
              [U "https://a.example/dp/B000000001/ref=x";
               U "https://a.example/gp/product/B000000002"]
              [U "$19.99"; U "$9.00 (converted)"]
              [U "4.5 out of 5 stars"; U "3.0"]
              [U "1,234"; U "10"]
              [U "Best Sellers in Toys"; U "Best Sellers in Toys"])
    as (out & E & C & _).
  - lia.
  - repeat constructor.
  - apply (proj1 (bool_decide_eq_true _)). vm_compute. reflexivity.
  - apply (proj1 (bool_decide_eq_true _)). vm_compute. reflexivity.
  - reflexivity.
  - reflexivity.
  - reflexivity.
  - reflexivity.
  - reflexivity.
  - reflexivity.
  - exists out. split; [exact E|]. split; apply C; vm_compute; tauto.
Defined.

(** The complete movers-and-shakers table. *)
Lemma transform_ms_columns_witness :
  exists out,
    transform_ms (read_frame table_ms_complete) = Done out /\
    labels out = keep_ms /\
    columns_named (U "move_direction") out = [[Str (U "up"); Str (U "no_change")]].
Proof.
  destruct (transform_ms_columns table_ms_complete 2
              [U "1"; U "2"]
              [U "https://a.example/dp/B000000001/ref=x";
               U "https://a.example/gp/product/B000000002"]
              [U "$19.99"; U "$9.00 (converted)"]
              [U "4.5 out of 5 stars"; U "3.0"]
              [U "1,234"; U "10"]
              [U "+120%"; U "5%"]
              [U "10"; U "20"]
              [U "22"; U "20"]
              [U "Best Sellers in Toys"; U "Best Sellers in Toys"])
    as (out & E & L & _ & C & _).
  - lia.
  - repeat constructor.
  - apply (proj1 (bool_decide_eq_true _)). vm_compute. reflexivity.
  - apply (proj1 (bool_decide_eq_true _)). vm_compute. reflexivity.
  - apply (proj1 (bool_decide_eq_true _)). vm_compute. reflexivity.
  - apply (proj1 (bool_decide_eq_true _)). vm_compute. reflexivity.
  - reflexivity.
  - reflexivity.
  - reflexivity.
  - reflexivity.
  - reflexivity.
  - reflexivity.
  - reflexivity.
  - reflexivity.
  - reflexivity.
  - exists out. split; [exact E|]. split; [exact L|]. apply C. vm_compute. tauto.
Defined.

(** ** What the transforms never let through *)

Lemma project_labels keep (df out : frame) :
  project keep df = Done out -> forall k, k ∈ labels out -> k ∈ keep.
Proof.
  revert out. induction keep as [|a keep IH]; intros out H k Hk.
  - injection H as <-. by apply elem_of_nil in Hk.
  - cbn [project] in H. destruct (columns_named a df) as [|c cs] eqn:E; [done|].
    apply bind_Done in H as (o & Ho & [= <-]).
    apply list_elem_of_In, in_map_iff in Hk as ([l col] & <- & Hin).
    simpl in Hin. destruct Hin as [[= <- <-]|Hin]; [by left|].
    apply in_app_or in Hin as [Hin|Hin].
    + apply in_map_iff in Hin as (? & [= <- <-] & _). by left.
    + right. apply (IH o Ho). apply list_elem_of_In, in_map_iff.
      by exists (l, col).
Qed.

(** X17.  Whatever the input frame, a transform that completes returns
    columns of its list of kept labels only: a column of the input that no
    rule of the mapping matches, and the raw columns that are parsed into
    others ([rating_raw], [review_count_raw] and the raw columns of movers
    and shakers), never reach the output. *)
Theorem transforms_keep_only (df out : frame) (k : pystr) :
  (transform_bs df = Done out -> k ∈ labels out -> k ∈ keep_cols_bs) /\
  (transform_ms df = Done out -> k ∈ labels out -> k ∈ keep_ms).
Proof.
  split.
  - unfold transform_bs. destruct (_ =? _)%nat; [done|]. intros H Hk.
    repeat (apply bind_Done in H as (? & _ & H)).
    apply (project_labels _ _ _ H) in Hk.
    apply list_elem_of_In, filter_In in Hk as [Hk _]. by apply list_elem_of_In.
  - unfold transform_ms. destruct (_ =? _)%nat; [done|]. intros H Hk.
    repeat (apply bind_Done in H as (? & _ & H)).
    by apply (project_labels _ _ _ H) in Hk.
Qed.

Lemma transforms_keep_only_witness :
  exists out,
    transform_bs (read_frame table_with_price) = Done out /\
    U "rating_raw" ∉ labels out.
Proof.
  eexists. split; [vm_compute; reflexivity|]. intros Hk.
  apply (proj1 (transforms_keep_only (read_frame table_with_price) _
                  (U "rating_raw")) ltac:(vm_compute; reflexivity)) in Hk.
  apply list_elem_of_In in Hk. vm_compute in Hk. intuition discriminate.
Defined.

(** * The price conversion of the scraper *)

(** ** Digits *)

Lemma digit_char (k : N) :
  (k < 10)%N -> is_digit (48 + k)%N = true /\ digit_val (48 + k)%N = Z.of_N k.
Proof.
  intros H. unfold is_digit, in_range, digit_val. split.
  - apply andb_true_iff. split; apply N.leb_le; lia.
  - f_equal. lia.
Qed.

Lemma dec_value_app (a b : pystr) :
  dec_value (a ++ b) = (dec_value a * 10 ^ Z.of_nat (length b) + dec_value b)%Z.
Proof.
  unfold dec_value. rewrite fold_left_app.
  generalize (fold_left (fun acc c => (acc * 10 + digit_val c)%Z) a 0%Z) as x.
  induction b as [|c b IH]; intros x.
  - simpl. lia.
  - cbn [fold_left length]. rewrite IH, (IH (0 * 10 + digit_val c)%Z).
    rewrite Nat2Z.inj_succ, Z.pow_succ_r by lia. lia.
Qed.

Lemma digits_from_spec (fuel : nat) (n : N) (acc : pystr) :
  (n < 2 ^ N.of_nat fuel)%N -> (0 < fuel)%nat ->
  forallb is_digit acc = true ->
  let d := digits_from fuel n acc in
  forallb is_digit d = true /\ d <> [] /\
  dec_value d = (Z.of_N n * 10 ^ Z.of_nat (length acc) + dec_value acc)%Z.
Proof.
  revert n acc. induction fuel as [|fuel IH]; intros n acc Hn Hf Hacc; [lia|].
  cbn [digits_from].
  assert (Hm : (n mod 10 < 10)%N) by (apply N.mod_lt; lia).
  destruct (digit_char _ Hm) as [Hd Hv].
  assert (Hacc' : forallb is_digit ((48 + n mod 10)%N :: acc) = true)
    by (simpl; by rewrite Hd, Hacc).
  assert (Hval : dec_value ((48 + n mod 10)%N :: acc) =
                 (Z.of_N (n mod 10) * 10 ^ Z.of_nat (length acc) + dec_value acc)%Z).
  { change ((48 + n mod 10)%N :: acc) with ([(48 + n mod 10)%N] ++ acc).
    rewrite dec_value_app. unfold dec_value at 1. simpl fold_left. rewrite Hv. lia. }
  destruct (N.ltb_spec n 10) as [Hlt|Hge].
  - split; [done|]. split; [done|]. rewrite Hval, N.mod_small by done. done.
  - assert (Hfuel : (0 < fuel)%nat).
    { destruct fuel; [|lia]. simpl in Hn. lia. }
    assert (Hdiv : (n / 10 < 2 ^ N.of_nat fuel)%N).
    { rewrite Nat2N.inj_succ, N.pow_succ_r' in Hn.
      apply N.Div0.div_lt_upper_bound. lia. }
    destruct (IH (n / 10)%N _ Hdiv Hfuel Hacc') as (H1 & H2 & H3).
    split; [exact H1|]. split; [exact H2|]. rewrite H3, Hval.
    cbn [length]. rewrite Nat2Z.inj_succ, Z.pow_succ_r by lia.
    rewrite (N.div_mod n 10) at 3 by lia. lia.
Qed.

Lemma digits_of_spec (n : N) :
  forallb is_digit (digits_of n) = true /\ digits_of n <> [] /\
  dec_value (digits_of n) = Z.of_N n.
Proof.
  destruct (digits_from_spec (S (N.to_nat (N.size n))) n []) as (H1 & H2 & H3);
    [|lia|done|].
  - rewrite Nat2N.inj_succ, N.pow_succ_r', N2Nat.id.
    pose proof (N.size_gt n). lia.
  - unfold digits_of. split; [exact H1|]. split; [exact H2|]. rewrite H3.
    unfold dec_value. cbn [length fold_left Z.of_nat]. rewrite Z.pow_0_r. lia.
Qed.

Lemma two_digits_spec (n : N) :
  (n < 100)%N ->
  forallb is_digit (two_digits n) = true /\ dec_value (two_digits n) = Z.of_N n.
Proof.
  intros H. unfold two_digits.
  assert (H1 : (n / 10 < 10)%N) by (apply N.Div0.div_lt_upper_bound; lia).
  assert (H2 : (n mod 10 < 10)%N) by (apply N.mod_lt; lia).
  destruct (digit_char _ H1) as [D1 V1], (digit_char _ H2) as [D2 V2].
  split; [simpl; by rewrite D1, D2|].
  unfold dec_value. simpl. rewrite V1, V2.
  rewrite (N.div_mod n 10) at 3 by lia. lia.
Qed.

(** ** Rounding *)

Lemma round_half_even_near (x : Q) :
  Qabs (inject_Z (round_half_even x) - x) <= 1 # 2.
Proof.
  unfold round_half_even.
  pose proof (Qfloor_le x) as H1. pose proof (Qlt_floor x) as H2.
  rewrite inject_Z_plus in H2. change (inject_Z 1) with 1 in H2.
  set (f := inject_Z (Qfloor x)) in *.
  destruct (Qltb (x - f) (1 # 2)) eqn:E1.
  - apply Qltb_lt in E1. fold f. apply Qabs_Qle_condition. split; lra.
  - assert (G1 : ~ x - f < 1 # 2) by (rewrite <- Qltb_lt; congruence).
    destruct (Qltb (1 # 2) (x - f)) eqn:E2.
    + rewrite inject_Z_plus. fold f. change (inject_Z 1) with 1.
      apply Qabs_Qle_condition. split; lra.
    + assert (G2 : ~ 1 # 2 < x - f) by (rewrite <- Qltb_lt; congruence).
      destruct (Z.even (Qfloor x)).
      * fold f. apply Qabs_Qle_condition. split; lra.
      * rewrite inject_Z_plus. fold f. change (inject_Z 1) with 1.
        apply Qabs_Qle_condition. split; lra.
Qed.

Lemma round_half_even_nonneg (x : Q) : 0 <= x -> (0 <= round_half_even x)%Z.
Proof.
  intros H. unfold round_half_even.
  assert (H0 : (0 <= Qfloor x)%Z)
    by (change 0%Z with (Qfloor 0); by apply Qfloor_resp_le).
  repeat destruct (Qltb _ _); try destruct (Z.even _); lia.
Qed.

(** ** Reading a converted price back *)

Lemma strip_parens_plain (a b : pystr) :
  (forall c, In c a -> c <> 40%N) ->
  strip_parens (a ++ b) = a ++ strip_parens b.
Proof.
  intros Ha. unfold strip_parens. induction a as [|c a IH]; [done|].
  change ((c :: a) ++ b) with (c :: (a ++ b)). cbn [strip_parens_from].
  destruct (N.eqb_spec c 40) as [E|_]; [by destruct (Ha c (or_introl eq_refl))|].
  rewrite IH; [done|]. intros x Hx. apply Ha. by right.
Qed.

Lemma digits_no_paren (d : pystr) (c : char) :
  forallb is_digit d = true -> In c d -> is_digit c = true.
Proof. intros H. by apply forallb_forall. Qed.

Lemma keep_price_chars_digits (d : pystr) :
  forallb is_digit d = true -> keep_price_chars d = d.
Proof.
  intros H. unfold keep_price_chars. apply filter_all. intros c Hc.
  by apply digit_price_char, (digits_no_paren d).
Qed.

Lemma remove_commas_digits (d : pystr) :
  forallb is_digit d = true -> remove_commas d = d.
Proof.
  intros H. unfold remove_commas. apply filter_all. intros c Hc.
  apply (digits_no_paren d c H) in Hc.
  destruct (N.eqb_spec c 44) as [->|]; [discriminate Hc | done].
Qed.

(** What the two parsers keep of a dollar amount with the annotation of
    the scraper. *)
Lemma cleaned_converted (d f : pystr) :
  forallb is_digit d = true -> forallb is_digit f = true ->
  remove_commas (keep_price_chars
    (strip_parens (U "$" ++ d ++ 46%N :: f ++ U " (converted)"))) =
  d ++ 46%N :: f.
Proof.
  intros Hd Hf.
  replace (U "$" ++ d ++ 46%N :: f ++ U " (converted)")
    with ((U "$" ++ d ++ 46%N :: f ++ U " ") ++ U "(converted)")
    by (by rewrite <- !app_assoc; simpl; rewrite <- !app_assoc).
  rewrite strip_parens_plain.
  - change (strip_parens (U "(converted)")) with (@nil char).
    rewrite app_nil_r, !keep_price_chars_app.
    change (keep_price_chars (U "$")) with (@nil char).
    change (46%N :: f ++ U " ") with ([46%N] ++ f ++ U " ").
    rewrite !keep_price_chars_app.
    change (keep_price_chars (U " ")) with (@nil char).
    change (keep_price_chars [46%N]) with [46%N].
    rewrite !keep_price_chars_digits by done.
    rewrite app_nil_r. simpl. unfold remove_commas.
    rewrite List.filter_app. fold (remove_commas d). simpl.
    fold (remove_commas f). by rewrite !remove_commas_digits.
  - intros c Hc E. subst c.
    apply in_app_or in Hc as [Hc|Hc]; [vm_compute in Hc; intuition discriminate|].
    apply in_app_or in Hc as [Hc|Hc];
      [by apply (digits_no_paren d _ Hd) in Hc|].
    destruct Hc as [Hc|Hc]; [discriminate|].
    apply in_app_or in Hc as [Hc|Hc];
      [by apply (digits_no_paren f _ Hf) in Hc|].
    vm_compute in Hc. intuition discriminate.
Qed.

Lemma guard_no_dollar (p : pystr) : In 36%N p -> price_guard_bs p = false.
Proof.
  intros Hin. unfold price_guard_bs.
  destruct (str_eqb p []) eqn:E.
  - apply str_eqb_nil in E. subst p. destruct Hin.
  - simpl. apply bool_decide_eq_false. intros H.
    assert (Hl : In 36%N (lower p)).
    { unfold lower. apply in_map_iff. exists 36%N. by split. }
    apply list_elem_of_In in H. cbn [In] in H.
    destruct H as [H|[H|[H|[]]]]; rewrite <- H in Hl;
      vm_compute in Hl; intuition discriminate.
Qed.

Lemma read_converted (d f : pystr) :
  d <> [] -> forallb is_digit d = true -> forallb is_digit f = true -> f <> [] ->
  let out := U "$" ++ d ++ 46%N :: f ++ U " (converted)" in
  parse_price_bs out = Some (decimal d f) /\
  parse_price_ms (Str out) = Some (decimal d f).
Proof.
  intros Hne Hd Hf Hnf out.
  assert (Ht : d ++ 46%N :: f = token_text (d, f))
    by (unfold token_text; by destruct f).
  split.
  - rewrite parse_price_bs_cleaned, guard_no_dollar by (by left).
    unfold out. rewrite (cleaned_converted d f Hd Hf), Ht.
    by apply py_float_token.
  - rewrite parse_price_ms_spec. unfold parse_price_spec, out.
    rewrite (cleaned_converted d f Hd Hf), Ht.
    rewrite (findall_single d f Hne Hd Hf). simpl last.
    by apply py_float_token.
Qed.

(** The amounts that [float] reads from a run of digits and points. *)
Lemma py_float_unsigned_nonneg (s : pystr) (q : Q) :
  (forall c, head s = Some c -> c <> 45%N) -> py_float s = Some q -> 0 <= q.
Proof.
  intros Hs. unfold py_float.
  assert (E : match s with
              | c :: t => if (c =? 45)%N then (true, t) else (false, s)
              | [] => (false, s)
              end = (false, s)).
  { destruct s as [|c t]; [done|].
    destruct (N.eqb_spec c 45) as [->|]; [by destruct (Hs _ eq_refl) | done]. }
  rewrite E. destruct (span_digits s) as [ip r]. destruct r as [|c fp].
  - destruct (str_eqb ip []); [done|]. intros [= <-]. apply decimal_nonneg.
  - destruct (_ && _); [|done]. intros [= <-]. apply decimal_nonneg.
Qed.

Lemma first_amount_head (s num : pystr) (c : char) :
  first_amount s = Some num -> head num = Some c -> c <> 45%N.
Proof.
  induction s as [|x s IH]; [done|]. cbn [first_amount].
  destruct (is_amount_char x) eqn:E; [|exact IH].
  intros [= <-]. cbn [amount_run]. rewrite E. intros [= <-] ->. discriminate E.
Qed.

Lemma format_2f_spec (x : Q) :
  0 <= x ->
  exists d f,
    format_2f x = d ++ 46%N :: f /\
    d <> [] /\ forallb is_digit d = true /\ forallb is_digit f = true /\ f <> [] /\
    Qabs (decimal d f - x) <= 1 # 200.
Proof.
  intros Hx. unfold format_2f.
  set (z := round_half_even (x * 100)).
  assert (Hz : (0 <= z)%Z) by (apply round_half_even_nonneg; lra).
  set (cents := Z.to_N z).
  destruct (digits_of_spec (cents / 100)) as (D1 & D2 & D3).
  assert (Hm : (cents mod 100 < 100)%N) by (apply N.mod_lt; lia).
  destruct (two_digits_spec _ Hm) as [F1 F2].
  exists (digits_of (cents / 100)), (two_digits (cents mod 100)).
  split; [done|]. split; [done|]. split; [done|]. split; [done|].
  split; [done|].
  assert (E : decimal (digits_of (cents / 100)) (two_digits (cents mod 100)) ==
              inject_Z z / 100).
  { unfold decimal. rewrite dec_value_app, D3, F2.
    change (length (two_digits (cents mod 100))) with 2%nat.
    change (Z.to_pos (10 ^ Z.of_nat 2)) with 100%positive.
    change (10 ^ Z.of_nat 2)%Z with 100%Z.
    replace (Z.of_N (cents / 100) * 100 + Z.of_N (cents mod 100))%Z with z.
    - unfold Qeq, Qdiv, Qmult, Qinv, inject_Z. simpl. lia.
    - pose proof (N.div_mod cents 100 ltac:(lia)) as Hdm.
      assert (Hc : Z.of_N cents = z) by (unfold cents; lia). lia. }
  rewrite E.
  pose proof (round_half_even_near (x * 100)) as Hr. fold z in Hr.
  apply Qabs_Qle_condition in Hr as [Hr1 Hr2].
  apply Qabs_Qle_condition. split.
  - unfold Qdiv. change (/ 100) with (1 # 100). lra.
  - unfold Qdiv. change (/ 100) with (1 # 100). lra.
Qed.

(** X18.  A price in rupiah is written by the scraper as a dollar amount
    with two decimals and the annotation, and both transforms read that
    text back as the amount, to half a cent: the amount of the text times
    the rate when it is above 10000, and the amount itself, taken for
    dollars already, otherwise. *)
Theorem convert_price_idr (p num : pystr) (amount : Q) :
  let clean := remove_spaces (remove_commas (strip p)) in
  starts_with (U "$") clean = false ->
  starts_with (U "idr") (lower clean) || contains (U "rp") (lower clean) = true ->
  first_amount clean = Some num -> py_float num = Some amount ->
  let usd := if Qltb 10000 amount then amount * IDR_TO_USD else amount in
  exists out q,
    convert_price (Some p) = Some out /\
    parse_price_bs out = Some q /\ parse_price_ms (Str out) = Some q /\
    Qabs (q - usd) <= 1 # 200.
Proof.
  intros clean Hd Hidr Hnum Ham usd.
  assert (H0 : 0 <= amount).
  { apply (py_float_unsigned_nonneg num); [|done].
    intros c. by apply (first_amount_head clean). }
  assert (Husd : 0 <= usd).
  { unfold usd, IDR_TO_USD. destruct (Qltb 10000 amount); lra. }
  destruct (format_2f_spec usd Husd) as (d & f & E & Hne & Hdd & Hf & Hnf & Hnear).
  destruct (read_converted d f Hne Hdd Hf Hnf) as [Hbs Hms].
  exists (U "$" ++ format_2f usd ++ U " (converted)"), (decimal d f).
  split; [|rewrite E, <- app_assoc; by simpl].
  unfold convert_price. destruct p as [|c p].
  - by vm_compute in Hnum.
  - fold clean. by rewrite Hd, Hidr, Hnum, Ham.
Qed.

Lemma convert_price_idr_witness :
  exists out q,
    convert_price (Some (U "Rp 150,000")) = Some out /\
    parse_price_bs out = Some q /\ parse_price_ms (Str out) = Some q /\
    Qabs (q - 150000 * IDR_TO_USD) <= 1 # 200.
Proof.
  exact (convert_price_idr (U "Rp 150,000") (U "150000") 150000
           eq_refl eq_refl eq_refl eq_refl).
Defined.

(** ** Dollar prices *)

(** Dropping characters other than the parentheses and the newline does not
    change which parentheticals are stripped. *)
Lemma strip_parens_filter (keep : char -> bool) (s : pystr) (pending : option pystr) :
  keep 40%N = true -> keep 41%N = true -> keep 10%N = true ->
  strip_parens_from (List.filter keep <$> pending) (List.filter keep s) =
  List.filter keep (strip_parens_from pending s).
Proof.
  intros K40 K41 K10. revert pending.
  induction s as [|c s IH]; intros pending.
  - by destruct pending.
  - cbn [List.filter]. destruct (keep c) eqn:Ec.
    + cbn [strip_parens_from]. destruct pending as [p|]; simpl.
      * destruct (c =? 41)%N; [apply (IH None)|].
        destruct (c =? 10)%N.
        -- rewrite List.filter_app. cbn [List.filter]. rewrite Ec.
           by rewrite <- (IH None).
        -- rewrite <- (IH (Some (p ++ [c]))). simpl.
           rewrite List.filter_app. cbn [List.filter]. by rewrite Ec.
      * destruct (c =? 40)%N.
        -- rewrite <- (IH (Some [c])). simpl. by rewrite Ec.
        -- cbn [List.filter]. rewrite Ec. by rewrite <- (IH None).
    + assert (N40 : (c =? 40)%N = false)
        by (destruct (N.eqb_spec c 40) as [->|]; [congruence | done]).
      assert (N41 : (c =? 41)%N = false)
        by (destruct (N.eqb_spec c 41) as [->|]; [congruence | done]).
      assert (N10 : (c =? 10)%N = false)
        by (destruct (N.eqb_spec c 10) as [->|]; [congruence | done]).
      cbn [strip_parens_from]. destruct pending as [p|]; simpl.
      * rewrite N41, N10. rewrite <- (IH (Some (p ++ [c]))). simpl.
        rewrite List.filter_app. cbn [List.filter]. rewrite Ec.
        by rewrite app_nil_r.
      * rewrite N40. cbn [List.filter]. rewrite Ec. apply (IH None).
Qed.

Lemma filter_filter_weaker {A} (f g : A -> bool) (l : list A) :
  (forall x, g x = true -> f x = true) ->
  List.filter g (List.filter f l) = List.filter g l.
Proof.
  intros H. induction l as [|a l IH]; [done|]. simpl.
  destruct (f a) eqn:Ef; simpl.
  - destruct (g a); by rewrite IH.
  - destruct (g a) eqn:Eg; [|done]. apply H in Eg. congruence.
Qed.

Lemma filter_comm {A} (f g : A -> bool) (l : list A) :
  List.filter g (List.filter f l) = List.filter f (List.filter g l).
Proof.
  induction l as [|a l IH]; [done|]. simpl.
  destruct (f a) eqn:Ef, (g a) eqn:Eg; simpl; rewrite ?Ef, ?Eg, ?IH; done.
Qed.

Lemma strip_parens_filtered (keep : char -> bool) (s : pystr) :
  keep 40%N = true -> keep 41%N = true -> keep 10%N = true ->
  strip_parens (List.filter keep s) = List.filter keep (strip_parens s).
Proof. intros K40 K41 K10. exact (strip_parens_filter keep s None K40 K41 K10). Qed.

(** The cleaning of the scraper does not change what the parsers keep. *)
Lemma cleaned_clean (p : pystr) :
  remove_commas (keep_price_chars
    (strip_parens (remove_spaces (remove_commas (strip p))))) =
  remove_commas (keep_price_chars (strip_parens p)).
Proof.
  unfold remove_spaces, remove_commas at 2.
  rewrite !strip_parens_filtered by done.
  unfold keep_price_chars at 1.
  rewrite (filter_filter_weaker (fun c => negb (c =? 32)%N) is_price_char).
  - rewrite filter_comm. fold (keep_price_chars (strip_parens (strip p))).
    rewrite keep_strip_parens_strip. unfold remove_commas.
    by rewrite (filter_filter_weaker _ _ _ (fun x H => H)).
  - intros x Hx. destruct (N.eqb_spec x 32) as [->|]; [discriminate Hx | done].
Qed.

Lemma starts_with_dollar (s : pystr) :
  starts_with (U "$") s = true -> In 36%N s.
Proof.
  destruct s as [|c s]; [done|]. change (U "$") with [36%N].
  cbn [starts_with]. rewrite andb_true_r. intros H. apply N.eqb_eq in H.
  left. done.
Qed.

(** X19.  A price in dollars is returned without its commas and spaces, and
    nothing is lost by that: both transforms read from the cleaned text
    what they read from the text of the page. *)
Theorem convert_price_dollar (p : pystr) :
  let clean := remove_spaces (remove_commas (strip p)) in
  starts_with (U "$") clean = true ->
  convert_price (Some p) = Some clean /\
  parse_price_bs clean = parse_price_bs p /\
  parse_price_ms (Str clean) = parse_price_ms (Str p).
Proof.
  intros clean Hd.
  pose proof (starts_with_dollar clean Hd) as Hin.
  assert (Hp : In 36%N p).
  { unfold clean, remove_spaces, remove_commas in Hin.
    apply filter_In in Hin as [Hin _]. apply filter_In in Hin as [Hin _].
    by apply strip_subset. }
  split; [|split].
  - unfold convert_price. destruct p as [|c p]; [destruct Hp|].
    fold clean. by rewrite Hd.
  - rewrite !parse_price_bs_cleaned, !guard_no_dollar by done.
    unfold clean. by rewrite cleaned_clean.
  - rewrite !parse_price_ms_spec. unfold parse_price_spec, clean.
    by rewrite cleaned_clean.
Qed.

Lemma convert_price_dollar_witness :
  convert_price (Some (U " $ 1,234.50 ")) = Some (U "$1234.50") /\
  parse_price_bs (U "$1234.50") = parse_price_bs (U " $ 1,234.50 ").
Proof.
  destruct (convert_price_dollar (U " $ 1,234.50 ") eq_refl) as (H1 & H2 & _).
  split; [exact H1 | exact H2].
Defined.

(** ** A group of equal densities *)

(** X20.  The two scripts part on a group that has two or more present
    review densities, all of them equal: best sellers writes 0.0 on every
    row of the group, movers and shakers divides zero by zero and leaves
    every row of the group missing. *)
Theorem equal_group_differs keys density i k :
  keys !! i = Some k ->
  let present := dropna (group_values keys density k) in
  (2 <= length present)%nat -> all_equal present ->
  norm_review_density_bs keys density !! i = Some (Fin 0) /\
  norm_review_density_ms keys density !! i = Some Nan.
Proof.
  intros Hi present Hlen Heq.
  rewrite (norm_review_density_bs_row _ _ _ _ Hi),
          (norm_review_density_ms_row _ _ _ _ Hi).
  fold present.
  assert (Hin : forall v, nth i density None = Some v -> In v present).
  { intros v Hv. apply (present_in_group keys density i k v Hi).
    by apply nth_Some_lookup. }
  clearbody present. destruct present as [|v0 [|v1 vs]]; simpl in Hlen; try lia.
  pose proof (proj1 (all_equal_min_max v0 (v1 :: vs)) Heq) as Hmm.
  split.
  - f_equal. unfold norm_value_bs.
    by rewrite (proj2 (Qeq_bool_iff _ _) Hmm).
  - f_equal. unfold norm_value_ms. cbn [length Nat.ltb Nat.leb].
    set (mn := qmin_list v0 (v1 :: vs)) in *.
    set (mx := qmax_list v0 (v1 :: vs)) in *.
    assert (Hz : Qeq_bool (mx - mn) 0 = true) by (apply Qeq_bool_iff; lra).
    destruct (nth i density None) as [v|] eqn:Ev; [|done].
    unfold fdiv, fsub. simpl. rewrite Hz.
    assert (Hv : v == mn).
    { apply Heq; [by apply Hin | apply qmin_list_in]. }
    assert (Hv0 : Qeq_bool (v - mn) 0 = true) by (apply Qeq_bool_iff; lra).
    by rewrite Hv0.
Qed.

Lemma equal_group_differs_witness :
  let keys := repeat (Some (U "Toys")) 3 in
  norm_review_density_bs keys [Some 2; None; Some 2] !! 0%nat = Some (Fin 0) /\
  norm_review_density_ms keys [Some 2; None; Some 2] !! 0%nat = Some Nan.
Proof.
  intros keys.
  apply (equal_group_differs keys [Some 2; None; Some 2] 0 (Some (U "Toys")) eq_refl).
  - simpl. lia.
  - intros x y Hx Hy. vm_compute in Hx, Hy.
    destruct Hx as [<-|[<-|[]]], Hy as [<-|[<-|[]]]; reflexivity.
Defined.
